(** * video_demo: filename decomposition and Bangumi reconciliation

    A shallow embedding of [src/main.py] ([MediaManager.parse_filename],
    [MediaManager._get_bangumi_details], the per-file body of
    [MediaManager.process_directory]) and of [src/demo/bangumi_api.py]
    ([BangumiAPIClient]), followed by the properties of the specification
    settled against it.

    Python strings are sequences of Unicode code points, Python values are
    dynamically typed, and every call may raise: the embedding keeps all
    three. *)

From Stdlib Require Import ZArith NArith Ascii String List Lia Bool.
From stdpp Require Import base option list gmap strings.

Set Warnings "-register-all".

Local Open Scope string_scope.
Local Open Scope list_scope.
Local Open Scope N_scope.

(** ** Python strings *)

(** A [str] is a list of code points. *)
Abbreviation pystr := (list N).

Fixpoint bytes_of (s : string) : list N :=
  match s with
  | EmptyString => []
  | String a r => N_of_ascii a :: bytes_of r
  end.

(** Literals of this file are UTF-8 text; [utf8_decode] recovers the code
    points (well-formed input only, which is all the literals are). *)
Fixpoint utf8_decode (bs : list N) : pystr :=
  match bs with
  | [] => []
  | b :: r =>
      if b <? 0x80 then b :: utf8_decode r
      else if b <? 0xE0 then
        match r with
        | b1 :: r' => ((b - 0xC0) * 64 + (b1 - 0x80)) :: utf8_decode r'
        | _ => []
        end
      else if b <? 0xF0 then
        match r with
        | b1 :: b2 :: r' =>
            ((b - 0xE0) * 4096 + (b1 - 0x80) * 64 + (b2 - 0x80)) :: utf8_decode r'
        | _ => []
        end
      else
        match r with
        | b1 :: b2 :: b3 :: r' =>
            ((b - 0xF0) * 262144 + (b1 - 0x80) * 4096 + (b2 - 0x80) * 64 + (b3 - 0x80))
              :: utf8_decode r'
        | _ => []
        end
  end.

Definition py (s : string) : pystr := utf8_decode (bytes_of s).

(** [Py_UNICODE_ISSPACE]: what [str.strip] removes and what [\s] matches in
    a [str] pattern. *)
Definition is_space (c : N) : bool :=
  ((0x09 <=? c) && (c <=? 0x0D)) || ((0x1C <=? c) && (c <=? 0x20))
  || (c =? 0x85) || (c =? 0xA0) || (c =? 0x1680)
  || ((0x2000 <=? c) && (c <=? 0x200A))
  || (c =? 0x2028) || (c =? 0x2029) || (c =? 0x202F) || (c =? 0x205F)
  || (c =? 0x3000).

(** The zero of every run of decimal digits (general category Nd, Unicode
    15.0 as shipped with CPython 3.12): [\d] and [int] accept all of them. *)
Definition nd_zeros : list N :=
  [ 0x0030; 0x0660; 0x06F0; 0x07C0; 0x0966; 0x09E6; 0x0A66; 0x0AE6; 0x0B66;
    0x0BE6; 0x0C66; 0x0CE6; 0x0D66; 0x0DE6; 0x0E50; 0x0ED0; 0x0F20; 0x1040;
    0x1090; 0x17E0; 0x1810; 0x1946; 0x19D0; 0x1A80; 0x1A90; 0x1B50; 0x1BB0;
    0x1C40; 0x1C50; 0xA620; 0xA8D0; 0xA900; 0xA9D0; 0xA9F0; 0xAA50; 0xABF0;
    0xFF10; 0x104A0; 0x10D30; 0x11066; 0x110F0; 0x11136; 0x111D0; 0x112F0;
    0x11450; 0x114D0; 0x11650; 0x116C0; 0x11730; 0x118E0; 0x11950; 0x11C50;
    0x11D50; 0x11DA0; 0x11F50; 0x16A60; 0x16AC0; 0x16B50; 0x1D7CE; 0x1D7D8;
    0x1D7E2; 0x1D7EC; 0x1D7F6; 0x1E140; 0x1E2F0; 0x1E4F0; 0x1E950; 0x1FBF0 ].

Definition decimal_value (c : N) : option N :=
  match List.find (fun z => (z <=? c) && (c <? z + 10)) nd_zeros with
  | Some z => Some (c - z)
  | None => None
  end.

Definition is_digit (c : N) : bool :=
  match decimal_value c with Some _ => true | None => false end.

Fixpoint lstrip (s : pystr) : pystr :=
  match s with
  | c :: t => if is_space c then lstrip t else s
  | [] => []
  end.

(** [str.strip()] *)
Definition strip (s : pystr) : pystr := rev (lstrip (rev (lstrip s))).

Fixpoint starts_with (p s : pystr) : bool :=
  match p, s with
  | [], _ => true
  | a :: p', b :: s' => (a =? b) && starts_with p' s'
  | _ :: _, [] => false
  end.

(** [s.replace(old, new, 1)]: the first occurrence of [old] in [s], which
    need not be where a regular expression found its match. *)
Fixpoint replace_first (old new s : pystr) : pystr :=
  if starts_with old s then new ++ drop (length old) s
  else match s with
       | [] => []
       | c :: t => c :: replace_first old new t
       end.

(** [sep.join(parts)] *)
Fixpoint join (sep : pystr) (parts : list pystr) : pystr :=
  match parts with
  | [] => []
  | [x] => x
  | x :: rest => x ++ sep ++ join sep rest
  end.

(** ** Exceptions *)

Inductive exn :=
| IndexError | KeyError | TypeError | ValueError | AttributeError
| ReError                                    (* re.error *)
| APIError | NetworkError | NotFoundError.   (* bangumi_api.py, lines 13-23 *)

Inductive result (A : Type) :=
| Ok (a : A)
| Raise (e : exn).
Arguments Ok {A} a.
Arguments Raise {A} e.

#[global] Instance result_ret : MRet result := fun A a => Ok a.
#[global] Instance result_bind : MBind result := fun A B f m =>
  match m with
  | Ok a => f a
  | Raise e => Raise e
  end.

(** [NotFoundError] and [NetworkError] derive from [APIError]. *)
Definition is_APIError (e : exn) : bool :=
  match e with
  | APIError | NetworkError | NotFoundError => true
  | _ => false
  end.

(** ** Regular expressions

    The patterns written in the source are given as syntax trees and run
    by a backtracking matcher with Python's priorities: alternatives left
    to right, greedy repetition longest first, lazy repetition shortest
    first, leftmost starting position. *)

Inductive regex :=
| Eps
| Chr (p : N -> bool)
| Seq (r1 r2 : regex)
| Alt (r1 r2 : regex)
| Star (greedy : bool) (r : regex)
| Group (i : nat) (r : regex).

Definition Plus (greedy : bool) (r : regex) : regex := Seq r (Star greedy r).
Definition Lit (c : N) : regex := Chr (N.eqb c).

Definition caps := list (nat * pystr).

Fixpoint cap_lookup (i : nat) (c : caps) : option pystr :=
  match c with
  | [] => None
  | (j, s) :: c' => if Nat.eqb i j then Some s else cap_lookup i c'
  end.

Fixpoint ngroups (r : regex) : nat :=
  match r with
  | Eps | Chr _ => 0
  | Seq r1 r2 | Alt r1 r2 => Nat.max (ngroups r1) (ngroups r2)
  | Star _ r1 => ngroups r1
  | Group i r1 => Nat.max i (ngroups r1)
  end.

Section Matcher.
Context {A : Type}.

(** [rmatch r s c k]: match [r] at the head of [s], then continue with
    [k] on what is left; [None] makes the matcher backtrack. A repetition
    gives up an iteration that consumed nothing. *)
Fixpoint rmatch (r : regex) (s : pystr) (c : caps)
         (k : pystr -> caps -> option A) {struct r} : option A :=
  match r with
  | Eps => k s c
  | Chr p =>
      match s with
      | x :: s' => if p x then k s' c else None
      | [] => None
      end
  | Seq r1 r2 => rmatch r1 s c (fun s' c' => rmatch r2 s' c' k)
  | Alt r1 r2 =>
      match rmatch r1 s c k with
      | Some a => Some a
      | None => rmatch r2 s c k
      end
  | Star greedy r1 =>
      (fix loop (fuel : nat) (s : pystr) (c : caps) {struct fuel} : option A :=
         match fuel with
         | O => k s c
         | S fuel' =>
             let again :=
               rmatch r1 s c (fun s' c' =>
                 if (length s' <? length s)%nat then loop fuel' s' c' else None) in
             if greedy then
               match again with Some a => Some a | None => k s c end
             else
               match k s c with Some a => Some a | None => again end
         end) (length s) s c
  | Group i r1 =>
      rmatch r1 s c (fun s' c' =>
        k s' ((i, take (length s - length s') s) :: c'))
  end.
End Matcher.

(** A match object: the text before the match, [group(0)], the numbered
    groups ([None] for one that took no part), the text after. *)
Record re_match := {
  m_pre : pystr;
  m_text : pystr;
  m_groups : list (option pystr);
  m_post : pystr
}.

Definition match_here (r : regex) (advance : bool) (s : pystr) : option (pystr * caps) :=
  rmatch r s [] (fun s' c =>
    if advance && (length s' =? length s)%nat then None else Some (s', c)).

(** Leftmost match; [advance] forbids an empty match at the very start, as
    the scanner of [sub] and [finditer] does after an empty match. *)
Fixpoint search_from (r : regex) (advance : bool) (pre : pystr) (s : pystr)
  : option re_match :=
  match match_here r advance s with
  | Some (s', c) =>
      Some {| m_pre := rev pre;
              m_text := take (length s - length s') s;
              m_groups := map (fun i => cap_lookup i c) (seq 1 (ngroups r));
              m_post := s' |}
  | None =>
      match s with
      | [] => None
      | x :: t => search_from r false (x :: pre) t
      end
  end.

(** [re.search] *)
Definition re_search (r : regex) (s : pystr) : option re_match :=
  search_from r false [] s.

(** The successive non-overlapping matches, and the text after the last. *)
Fixpoint scan (fuel : nat) (r : regex) (advance : bool) (s : pystr)
  : list re_match * pystr :=
  match fuel with
  | O => ([], s)
  | S fuel' =>
      match search_from r advance [] s with
      | None => ([], s)
      | Some m =>
          let '(ms, tl) :=
            scan fuel' r (match m_text m with [] => true | _ => false end) (m_post m) in
          (m :: ms, tl)
      end
  end.

Definition scan_all (r : regex) (s : pystr) : list re_match * pystr :=
  scan (2 * length s + 2) r false s.

(** [re.finditer] *)
Definition re_finditer (r : regex) (s : pystr) : list re_match := fst (scan_all r s).

(** [re.sub] with a replacement free of group references *)
Definition re_sub (r : regex) (repl : pystr) (s : pystr) : pystr :=
  let '(ms, tl) := scan_all r s in
  concat (map (fun m => m_pre m ++ repl) ms) ++ tl.

(** ** Python values

    [None], [bool], [int], [str], [list] and [dict] (of a decoded JSON
    document, keys in document order). *)

Inductive value :=
| VNone
| VBool (b : bool)
| VInt (n : Z)
| VStr (s : pystr)
| VList (l : list value)
| VDict (d : list (pystr * value)).

Definition truthy (v : value) : bool :=
  match v with
  | VNone => false
  | VBool b => b
  | VInt n => negb (n =? 0)%Z
  | VStr s => match s with [] => false | _ => true end
  | VList l => match l with [] => false | _ => true end
  | VDict d => match d with [] => false | _ => true end
  end.

(** [a or b] *)
Definition py_or (a b : value) : value := if truthy a then a else b.

(** [v.strip()] *)
Definition str_strip (v : value) : result value :=
  match v with
  | VStr s => Ok (VStr (strip s))
  | _ => Raise AttributeError
  end.

(** [m.group(n)] *)
Definition group (m : re_match) (n : nat) : result value :=
  match n with
  | O => Ok (VStr (m_text m))
  | S n' =>
      match m_groups m !! n' with
      | Some (Some s) => Ok (VStr s)
      | Some None => Ok VNone
      | None => Raise IndexError
      end
  end.

(** *** Numbers and their text *)

Fixpoint digits_fuel (fuel : nat) (n : N) : pystr :=
  match fuel with
  | O => []
  | S fuel' =>
      if n <? 10 then [48 + n]
      else digits_fuel fuel' (n / 10) ++ [48 + n mod 10]
  end.

Definition str_of_N (n : N) : pystr := digits_fuel (S (N.to_nat (N.log2 n))) n.

(** [str(n)] *)
Definition str_of_int (n : Z) : pystr :=
  if (n <? 0)%Z then 45 :: str_of_N (Z.abs_N n) else str_of_N (Z.abs_N n).

Definition zfill (width : nat) (s : pystr) : pystr :=
  replicate (width - length s)%nat 48 ++ s.

(** [f"{n:02d}"]: zeros up to a width of two, the sign counted in. *)
Definition format_02d (n : Z) : pystr :=
  if (n <? 0)%Z then 45 :: zfill 1 (str_of_N (Z.abs_N n))
  else zfill 2 (str_of_N (Z.abs_N n)).

(** The digits of an [int] literal given as text: decimal digits of any
    script, single underscores between them. *)
Fixpoint digits_value (acc : N) (after_digit : bool) (s : pystr) : option N :=
  match s with
  | [] => if after_digit then Some acc else None
  | c :: t =>
      match decimal_value c with
      | Some d => digits_value (acc * 10 + d) true t
      | None =>
          if (c =? 95) && after_digit then digits_value acc false t else None
      end
  end.

(** The white space [int] skips at the two ends of its text: a
    white-space character above ASCII is read as a space, and of the
    ASCII ones the tab to the carriage return and the space are skipped;
    U+001C to U+001F, which [str.strip] removes, are not. *)
Definition is_int_space (c : N) : bool :=
  is_space c && negb ((0x1C <=? c) && (c <=? 0x1F)).

Fixpoint lstrip_int (s : pystr) : pystr :=
  match s with
  | c :: t => if is_int_space c then lstrip_int t else s
  | [] => []
  end.

Definition strip_int (s : pystr) : pystr := rev (lstrip_int (rev (lstrip_int s))).

(** [sys.int_info.default_max_str_digits]: a text of more digits is
    refused (the program does not change the limit). *)
Definition int_max_str_digits : N := 4300.

(** [int(v)] *)
Definition py_int (v : value) : result Z :=
  match v with
  | VStr s =>
      let body := strip_int s in
      let '(neg, ds) :=
        match body with
        | 45 :: t => (true, t)
        | 43 :: t => (false, t)
        | _ => (false, body)
        end in
      if int_max_str_digits <? N.of_nat (length (List.filter is_digit ds))
      then Raise ValueError
      else
        match digits_value 0 false ds with
        | Some n => Ok (if neg then - Z.of_N n else Z.of_N n)%Z
        | None => Raise ValueError
        end
  | VInt n => Ok n
  | VBool b => Ok (if b then 1 else 0)%Z
  | _ => Raise TypeError
  end.

(** ** The Pattern Set

    [_load_patterns] returns the rule file as a [dict] from rule name to
    pattern string. The module [re] is not part of the repository: a rule
    is kept as its source text together with what
    [re.search(pattern, _, re.IGNORECASE)] does with it, [re.error]
    included. *)

Record pattern := {
  pat_source : pystr;
  pat_search : pystr -> result (option re_match)
}.

(** A pattern text and the syntax tree [re] compiles it to. *)
Definition compiled (source : string) (r : regex) : pattern :=
  {| pat_source := py source; pat_search := fun s => Ok (re_search r s) |}.

(** The pattern [''], the default of [self.patterns.get(_, '')]. *)
Definition empty_pattern : pattern := compiled "" Eps.

(** [not pattern] *)
Definition pat_falsy (p : pattern) : bool :=
  match pat_source p with [] => true | _ => false end.

(** ** The patterns written in [parse_filename] and [process_directory] *)

Definition ch (s : string) : N := hd 0 (py s).
Definition in_set (s : string) (c : N) : bool := existsb (N.eqb c) (py s).
Definition dot (c : N) : bool := negb (c =? 10).

Fixpoint cat (rs : list regex) : regex :=
  match rs with
  | [] => Eps
  | [r] => r
  | r :: rest => Seq r (cat rest)
  end.

(** Under [re.IGNORECASE] an ASCII letter matches both of its cases, and
    [s] also U+017F (long s), its second lower-case form; none of the other
    letters written in this file has a further form. [l] is the lower-case
    letter. *)
Definition letter_i (l : string) (c : N) : bool :=
  (c =? ch l) || (c + 32 =? ch l) || ((ch l =? 115) && (c =? 0x17F)).

(** [r'\[([^\]]*?)\s*[Ss]eason\s*(\d+)\]'] with [re.IGNORECASE] (line 84) *)
Definition title_season_re : regex :=
  cat [ Lit (ch "[");
        Group 1 (Star false (Chr (fun c => negb (c =? ch "]"))));
        Star true (Chr is_space);
        Chr (letter_i "s"); Chr (letter_i "e"); Chr (letter_i "a");
        Chr (letter_i "s"); Chr (letter_i "o"); Chr (letter_i "n");
        Star true (Chr is_space);
        Group 2 (Plus true (Chr is_digit));
        Lit (ch "]") ].

(** [r'[\[【](.*?)[\]】]'] (line 95) *)
Definition bracket_re : regex :=
  cat [ Chr (in_set "[【"); Group 1 (Star false (Chr dot)); Chr (in_set "]】") ].

(** [r'[\[【].*?[】\]]'] (line 130) *)
Definition bracket_strip_re : regex :=
  cat [ Chr (in_set "[【"); Star false (Chr dot); Chr (in_set "】]") ].

(** [r'[\s._-]+'] (line 131) *)
Definition separators_re : regex :=
  Plus true (Chr (fun c => is_space c || in_set "._-" c)).

(** [r'第([一二三四五六七八九十])季'] (line 226) *)
Definition season_marker_re : regex :=
  cat [ Lit (ch "第"); Group 1 (Chr (in_set "一二三四五六七八九十")); Lit (ch "季") ].

(** [r'\s*第[一二三四五六七八九十]季'] (line 234) *)
Definition season_strip_re : regex :=
  cat [ Star true (Chr is_space); Lit (ch "第");
        Chr (in_set "一二三四五六七八九十"); Lit (ch "季") ].

(** ** [MediaManager.parse_filename] (main.py, lines 69-138)

    [bracket_content] of line 80 is computed and never read; it is left
    out. *)

(** The [dict]s [info] and [media_info], keyed as in the source:
    字幕组 group, 标题 title, 季数 season, 集数 episode, 分辨率 resolution,
    视频编码 video codec, 音频编码 audio codec, 字幕 subtitle, 备注 remarks. *)
Abbreviation pydict := (gmap string value).

(** [d[k]] *)
Definition getitem (d : pydict) (k : string) : result value :=
  match d !! k with
  | Some v => Ok v
  | None => Raise KeyError
  end.

(** [d.get(k)] *)
Definition dict_get (d : pydict) (k : string) : value := default VNone (d !! k).

Definition is_None (v : value) : bool :=
  match v with VNone => true | _ => false end.

(** [for x in xs: st = body(st, x)], left at the first exception *)
Fixpoint for_each {S B : Type} (body : S -> B -> result S) (st : S) (xs : list B)
  : result S :=
  match xs with
  | [] => Ok st
  | x :: rest => st' ← body st x; for_each body st' rest
  end.

(** line 76 *)
Definition info_init : pydict :=
  list_to_map
    [ ("字幕组", VNone); ("标题", VNone); ("季数", VNone); ("集数", VNone);
      ("分辨率", VNone); ("视频编码", VNone); ("音频编码", VNone);
      ("字幕", VNone); ("备注", VList []) ].

(** line 92, in the order [items()] yields *)
Definition tech_keys : list (string * string) :=
  [ ("resolution", "分辨率"); ("source", "备注"); ("video_codec", "视频编码");
    ("audio_codec", "音频编码"); ("subtitle", "字幕"); ("group", "字幕组") ].

Abbreviation PatternSet := (gmap string pattern).

(** Step 1, lines 84-89 *)
Definition title_season_stage (info : pydict) (work_str : pystr)
  : result (pydict * pystr) :=
  match re_search title_season_re work_str with
  | Some m =>
      g1 ← group m 1; title ← str_strip g1;
      g2 ← group m 2; season ← str_strip g2;
      Ok (<["季数" := season]> (<["标题" := title]> info),
          replace_first (m_text m) [] work_str)
  | None => Ok (info, work_str)
  end.

(** [info['备注'].append(value)] *)
Definition remarks_append (info : pydict) (v : value) : result pydict :=
  cur ← getitem info "备注";
  match cur with
  | VList l => Ok (<["备注" := VList (l ++ [v])]> info)
  | _ => Raise AttributeError
  end.

(** The inner loop, lines 98-110: the rules in order, the first that
    matches takes the segment. The flag is [matched]. *)
Fixpoint try_keys (patterns : PatternSet) (keys : list (string * string))
         (content : pystr) (info : pydict) : result (pydict * bool) :=
  match keys with
  | [] => Ok (info, false)
  | (key, field) :: rest =>
      match patterns !! key with
      | None => try_keys patterns rest content info
      | Some pattern =>
          if pat_falsy pattern then try_keys patterns rest content info
          else
            found ← pat_search pattern content;
            match found with
            | None => try_keys patterns rest content info
            | Some m =>
                g1 ← group m 1;
                val ← str_strip (py_or g1 (VStr (m_text m)));
                info' ← (if String.eqb key "source" then remarks_append info val
                         else
                           cur ← getitem info field;
                           Ok (if is_None cur then <[field := val]> info else info));
                Ok (info', true)
            end
      end
  end.

(** The body of the outer loop, lines 96-112; the state is [info] and
    [temp_work_str]. *)
Definition tech_block (patterns : PatternSet) (st : pydict * pystr)
           (content_block : re_match) : result (pydict * pystr) :=
  let '(info, temp_work_str) := st in
  content ← group content_block 1;
  match content with
  | VStr content =>
      '(info', matched) ← try_keys patterns tech_keys content info;
      Ok (info',
          if matched : bool
          then replace_first (m_text content_block) [] temp_work_str
          else temp_work_str)
  | _ => Raise TypeError
  end.

(** Step 2, lines 94-113 *)
Definition tech_stage (patterns : PatternSet) (info : pydict) (work_str : pystr)
  : result (pydict * pystr) :=
  for_each (tech_block patterns) (info, work_str) (re_finditer bracket_re work_str).

(** [self.patterns.get(name, '')] *)
Definition rule_or_empty (patterns : PatternSet) (name : string) : pattern :=
  default empty_pattern (patterns !! name).

(** Step 3, lines 116-126 *)
Definition episode_stage (patterns : PatternSet) (info : pydict) (work_str : pystr)
  : result (pydict * pystr) :=
  ep ← getitem info "集数";
  if is_None ep then
    se_match ← pat_search (rule_or_empty patterns "season_episode") work_str;
    match se_match with
    | Some m =>
        cur ← getitem info "季数";
        info1 ← (if is_None cur
                 then g1 ← group m 1; n ← py_int g1;
                      Ok (<["季数" := VStr (str_of_int n)]> info)
                 else Ok info);
        g2 ← group m 2; n2 ← py_int g2;
        Ok (<["集数" := VStr (format_02d n2)]> info1,
            replace_first (m_text m) [] work_str)
    | None =>
        ep_match ← pat_search (rule_or_empty patterns "episode") work_str;
        match ep_match with
        | Some m =>
            g1 ← group m 1; n ← py_int g1;
            Ok (<["集数" := VStr (format_02d n)]> info,
                replace_first (m_text m) [] work_str)
        | None => Ok (info, work_str)
        end
    end
  else Ok (info, work_str).

Definition unknown_title : pystr := py "Unknown Title".

(** Lines 130-131: what is left of the name, as a title *)
Definition residual_title (work_str : pystr) : pystr :=
  let title := strip (re_sub bracket_strip_re [] work_str) in
  strip (re_sub separators_re (py " ") title).

(** Step 4, lines 129-132 *)
Definition title_stage (info : pydict) (work_str : pystr) : result pydict :=
  cur ← getitem info "标题";
  if is_None cur then
    let title := residual_title work_str in
    Ok (<["标题" := VStr (match title with [] => unknown_title | _ => title end)]> info)
  else Ok info.

(** The items of a list that [str.join] accepts *)
Fixpoint str_items (l : list value) : result (list pystr) :=
  match l with
  | [] => Ok []
  | VStr s :: rest => ss ← str_items rest; Ok (s :: ss)
  | _ :: _ => Raise TypeError
  end.

(** Step 5, lines 135-136 *)
Definition defaults_stage (info : pydict) : result pydict :=
  season ← getitem info "季数";
  let info := if is_None season then <["季数" := VStr (py "1")]> info else info in
  remarks ← getitem info "备注";
  match remarks with
  | VList l =>
      parts ← str_items l;
      Ok (<["备注" := py_or (VStr (join (py ", ") parts)) VNone]> info)
  | _ => Raise TypeError
  end.

Definition parse_filename (patterns : PatternSet) (filename : pystr) : result pydict :=
  '(info, work_str) ← title_season_stage info_init filename;
  '(info, work_str) ← tech_stage patterns info work_str;
  '(info, work_str) ← episode_stage patterns info work_str;
  info ← title_stage info work_str;
  defaults_stage info.

(** ** [BangumiAPIClient] (bangumi_api.py)

    The HTTP session is the outside world: it answers the [n]-th request
    of a run as it pleases. A request is kept as its endpoint and
    argument. *)

Inductive request :=
| SearchSubject (term : pystr)     (* /search/subject/{term} *)
| GetSubject (subject_id : value)  (* /v0/subjects/{subject_id} *)
| GetEpisodes (subject_id : value). (* /v0/episodes?subject_id=... *)

Inductive http_reply :=
| Response (status_code : Z) (json : option value) (* [None]: the body is not JSON *)
| NoResponse.                                      (* connection error, timeout *)

Abbreviation world := (nat -> request -> http_reply).

(** What a run changes: the Lookup Cache [_api_cache], the requests sent
    so far, and the records handed to [create_hard_link]. *)
Record state := {
  api_cache : gmap pystr value;
  requests : list request;
  linked : list pydict
}.

Definition initial_state : state :=
  {| api_cache := ∅; requests := []; linked := [] |}.

(** Computations that read and change the state and may raise *)
Definition M (A : Type) : Type := state -> result A * state.

#[global] Instance M_ret : MRet M := fun A a st => (Ok a, st).
#[global] Instance M_bind : MBind M := fun A B f m st =>
  match m st with
  | (Ok a, st') => f a st'
  | (Raise e, st') => (Raise e, st')
  end.

Definition lift {A : Type} (r : result A) : M A := fun st => (r, st).

(** [try: body except <caught>: handler] *)
Definition try_except {A : Type} (body : M A) (caught : exn -> bool) (handler : M A)
  : M A :=
  fun st =>
    match body st with
    | (Raise e, st') => if caught e then handler st' else (Raise e, st')
    | ok => ok
    end.

Definition str_eqb (a b : pystr) : bool := bool_decide (a = b).

(** [d.get(key, default)] on a value: only a [dict] has the method. *)
Definition py_get (d : value) (key : string) (default : value) : result value :=
  match d with
  | VDict items =>
      Ok (match List.find (fun kv => str_eqb (fst kv) (py key)) items with
          | Some kv => snd kv
          | None => default
          end)
  | _ => Raise AttributeError
  end.

(** [d[key]] for a [str] key *)
Definition py_getitem (d : value) (key : string) : result value :=
  match d with
  | VDict items =>
      match List.find (fun kv => str_eqb (fst kv) (py key)) items with
      | Some kv => Ok (snd kv)
      | None => Raise KeyError
      end
  | _ => Raise TypeError
  end.

(** [v[0]] *)
Definition py_first (v : value) : result value :=
  match v with
  | VList (x :: _) => Ok x
  | VStr (c :: _) => Ok (VStr [c])
  | VList [] | VStr [] => Raise IndexError
  | VDict _ => Raise KeyError
  | _ => Raise TypeError
  end.

(** [v[:4]]; a [dict] raises as well ([KeyError] from 3.12 on) *)
Definition py_take4 (v : value) : result value :=
  match v with
  | VStr s => Ok (VStr (take 4 s))
  | VList l => Ok (VList (take 4 l))
  | _ => Raise TypeError
  end.

(** [for x in v] *)
Definition py_iter (v : value) : result (list value) :=
  match v with
  | VList l => Ok l
  | VStr s => Ok (map (fun c => VStr [c]) s)
  | VDict items => Ok (map (fun kv => VStr (fst kv)) items)
  | _ => Raise TypeError
  end.

(** [v == 0] *)
Definition py_is_zero (v : value) : bool :=
  match v with
  | VInt n => (n =? 0)%Z
  | VBool b => negb b
  | _ => false
  end.

(** [_make_request], lines 34-50 *)
Definition sent (st : state) (reqs : list request) : state :=
  {| api_cache := api_cache st;
     requests := requests st ++ reqs;
     linked := linked st |}.

Definition _make_request (http : world) (req : request) : M value :=
  fun st =>
    let st' := sent st [req] in
    match http (length (requests st)) req with
    | NoResponse => (Raise NetworkError, st')
    | Response status_code json =>
        if (status_code =? 404)%Z then (Raise NotFoundError, st')
        else if ((400 <=? status_code) && (status_code <? 600))%Z
        then (Raise APIError, st')                (* raise_for_status *)
        else match json with
             | Some v => (Ok v, st')
             | None => (Raise NetworkError, st')  (* JSONDecodeError is a RequestException *)
             end
    end.

(** [search_subject], lines 52-66 *)
Definition search_subject (http : world) (term : pystr) : M value :=
  try_except
    (data ← _make_request http (SearchSubject term);
     lst ← lift (if truthy data then py_get data "list" VNone else Ok data);
     if truthy data && truthy lst then
       first_result ← lift (py_first lst);
       name_cn ← lift (py_get first_result "name_cn" VNone);
       _ ← lift (if truthy name_cn then Ok name_cn
                 else py_get first_result "name" VNone);
       _ ← lift (py_getitem first_result "id");
       mret first_result
     else mret VNone)
    (fun e => match e with
              | NotFoundError | IndexError | KeyError => true
              | _ => false
              end)
    (mret VNone).

(** [get_subject_details], lines 68-71 *)
Definition get_subject_details (http : world) (subject_id : value) : M value :=
  _make_request http (GetSubject subject_id).

(** [get_episodes], lines 73-79 *)
Definition get_episodes (http : world) (subject_id : value) : M value :=
  data ← _make_request http (GetEpisodes subject_id);
  lift (py_get data "data" (VList [])).

(** One turn of the comprehension of lines 92-101 *)
Definition episode_entry (ep : value) : result (list value) :=
  ty ← py_get ep "type" VNone;
  if py_is_zero ty then
    sort ← py_get ep "sort" VNone;
    name_cn ← py_get ep "name_cn" VNone;
    name ← py_get ep "name" VNone;
    airdate ← py_get ep "airdate" VNone;
    desc ← py_get ep "desc" (VStr []);
    Ok [VDict [ (py "sort", sort); (py "name_cn", name_cn); (py "name", name);
                (py "airdate", airdate); (py "desc", desc) ]]
  else Ok [].

Fixpoint episode_entries (eps : list value) : result (list value) :=
  match eps with
  | [] => Ok []
  | ep :: rest =>
      e ← episode_entry ep;
      es ← episode_entries rest;
      Ok (e ++ es)
  end.

(** The record built at lines 104-113 *)
Definition scraped_record (bangumi_id details : value) (episodes_list : list value)
  : result value :=
  name_cn ← py_get details "name_cn" VNone;
  name ← (if truthy name_cn then Ok name_cn else py_get details "name" (VStr (py "未知")));
  name_jp ← py_get details "name" (VStr (py "未知"));
  date ← py_get details "date" VNone;
  year ← py_take4 (py_or date (VStr (py "未知")));
  eps_count ← py_get details "eps_count" VNone;
  total ← (if truthy eps_count then Ok eps_count else py_get details "eps" (VInt 0));
  summary ← py_get details "summary" (VStr (py "未知"));
  images ← py_get details "images" (VDict []);
  image ← py_get images "large" (VStr []);
  Ok (VDict [ (py "bangumi_id", bangumi_id); (py "name_cn", name);
              (py "name_jp", name_jp); (py "year", year);
              (py "total_episodes", total); (py "episodes", VList episodes_list);
              (py "summary", summary); (py "image", image) ]).

(** ['id' not in search_result] for the values [search_subject] returns *)
Definition lacks_id (search_result : value) : bool :=
  match py_getitem search_result "id" with
  | Ok _ => false
  | Raise _ => true
  end.

(** [get_details_for_scraping], lines 81-116 *)
Definition get_details_for_scraping (http : world) (search_term : pystr) : M value :=
  search_result ← search_subject http search_term;
  if negb (truthy search_result) || lacks_id search_result then mret VNone
  else
    bangumi_id ← lift (py_getitem search_result "id");
    try_except
      (details ← get_subject_details http bangumi_id;
       all_episodes ← get_episodes http bangumi_id;
       eps ← lift (py_iter all_episodes);
       episodes_list ← lift (episode_entries eps);
       lift (scraped_record bangumi_id details episodes_list))
      is_APIError
      (mret VNone).

(** ** [MediaManager]: the Metadata Resolver (main.py, lines 140-152 and
    216-236) *)

(** line 46 *)
Definition cn_num_map : list (pystr * Z) :=
  [ (py "一", 1); (py "二", 2); (py "三", 3); (py "四", 4); (py "五", 5);
    (py "六", 6); (py "七", 7); (py "八", 8); (py "九", 9); (py "十", 10) ]%Z.

Definition cn_num_lookup (k : pystr) : option Z :=
  snd <$> List.find (fun kv => str_eqb (fst kv) k) cn_num_map.

(** [v == s] for a [str] literal [s] *)
Definition is_str (v : value) (s : pystr) : bool :=
  match v with
  | VStr t => str_eqb t s
  | _ => false
  end.

(** line 146 *)
Definition api_query_of (title : pystr) (season : option pystr) : pystr :=
  match season with
  | Some s =>
      if truthy (VStr s) && negb (str_eqb s (py "1"))
      then title ++ py " Season " ++ s
      else title
  | None => title
  end.

(** [_get_bangumi_details], lines 140-152 *)
Definition _get_bangumi_details (http : world) (title : pystr) (season : option pystr)
  : M value :=
  let api_query := api_query_of title season in
  fun st =>
    match api_cache st !! api_query with
    | Some cached => (Ok cached, st)
    | None =>
        match get_details_for_scraping http api_query st with
        | (Ok details, st') =>
            (Ok details,
             {| api_cache := <[api_query := details]> (api_cache st');
                requests := requests st';
                linked := linked st' |})
        | (Raise e, st') => (Raise e, st')
        end
    end.

(** The arguments of [_get_bangumi_details] are annotated [str] and
    [Optional[str]], and [parse_filename] stores nothing else under 标题
    and 季数; any other value is refused here. *)
Definition as_str (v : value) : result pystr :=
  match v with
  | VStr s => Ok s
  | _ => Raise TypeError
  end.

Definition as_optional_str (v : value) : result (option pystr) :=
  match v with
  | VStr s => Ok (Some s)
  | VNone => Ok None
  | _ => Raise TypeError
  end.

(** Lines 225-231: the season read off the title of the record *)
Definition season_correction (media_info : pydict) (api_title : pystr) : pydict :=
  if is_str (dict_get media_info "季数") (py "1") then
    match re_search season_marker_re api_title with
    | Some season_match =>
        match group season_match 1 with
        | Ok (VStr cn_season) =>
            match cn_num_lookup cn_season with
            | Some n => <["季数" := VStr (str_of_int n)]> media_info
            | None => media_info
            end
        | _ => media_info
        end
    | None => media_info
    end
  else media_info.

(** Lines 220-236: a record was found *)
Definition apply_details (media_info : pydict) (bangumi_details : value)
  : result pydict :=
  local_title ← getitem media_info "标题";
  api_title ← py_get bangumi_details "name_cn" local_title;
  api_title ← as_str api_title;
  let media_info := season_correction media_info api_title in
  let clean_title := strip (re_sub season_strip_re [] api_title) in
  eps ← py_get bangumi_details "total_episodes" (VStr (py "??"));
  Ok (<["bangumi_eps" := eps]> (<["标题" := VStr clean_title]> media_info)).

(** Lines 216-236 of [process_directory]: one parsed record, reconciled *)
Definition resolve (http : world) (media_info : pydict) : M pydict :=
  let title := dict_get media_info "标题" in
  if truthy title && negb (is_str title unknown_title) then
    title ← lift (as_str title);
    season ← lift (as_optional_str (dict_get media_info "季数"));
    bangumi_details ← _get_bangumi_details http title season;
    if truthy bangumi_details then lift (apply_details media_info bangumi_details)
    else mret media_info
  else mret media_info.

(** [create_hard_link] is reached with the record (the file system is
    outside the model). *)
Definition create_hard_link (media_info : pydict) : M unit :=
  fun st =>
    (Ok tt, {| api_cache := api_cache st;
               requests := requests st;
               linked := linked st ++ [media_info] |}).

(** A run of calls of [_get_bangumi_details], one after the other as the
    loop of [process_directory] issues them, left at the first exception *)
Fixpoint lookups (http : world) (calls : list (pystr * option pystr)) : M (list value) :=
  match calls with
  | [] => mret []
  | (title, season) :: rest =>
      details ← _get_bangumi_details http title season;
      more ← lookups http rest;
      mret (details :: more)
  end.

(** The queries put to the External Title Source: each call of
    [get_details_for_scraping] opens with the search request for its
    query. *)
Definition searches_of (reqs : list request) : list pystr :=
  omap (fun req => match req with SearchSubject q => Some q | _ => None end) reqs.

(** The body of the loop of [process_directory], lines 214-239, for one
    file stem, linking enabled *)
Definition process_file (patterns : PatternSet) (http : world) (stem : pystr)
  : M unit :=
  media_info ← lift (parse_filename patterns stem);
  media_info ← resolve http media_info;
  create_hard_link media_info.

(** [process_directory], lines 210-239: the files in turn; an exception
    leaves the loop. *)
Fixpoint process_directory (patterns : PatternSet) (http : world) (stems : list pystr)
  : M unit :=
  match stems with
  | [] => mret tt
  | stem :: rest =>
      _ ← process_file patterns http stem;
      process_directory patterns http rest
  end.

(** ** [clean_filename] (main.py, lines 31-35) *)

(** The nine characters of the class of line 33, by code point: backslash,
    slash, asterisk, question mark, colon, double quote, less-than,
    greater-than, vertical bar. *)
Definition illegal_chars : pystr := [92; 47; 42; 63; 58; 34; 60; 62; 124].

Definition is_illegal (c : N) : bool := existsb (N.eqb c) illegal_chars.

(** The class of line 33 *)
Definition illegal_re : regex := Chr is_illegal.

(** [r'\s{2,}'] (line 34) *)
Definition spaces_re : regex :=
  cat [Chr is_space; Chr is_space; Star true (Chr is_space)].

Definition clean_filename (filename : pystr) : pystr :=
  let cleaned := re_sub illegal_re (py "_") filename in
  strip (re_sub spaces_re (py " ") cleaned).

(** ** Rule files used in the examples *)

Definition digit : regex := Chr is_digit.

Module Rules.
(** [\d{3,4}p] *)
Definition resolution_re : regex :=
  cat [digit; digit; digit; Alt digit Eps; Chr (letter_i "p")].
(** [x26[45]] *)
Definition video_codec_re : regex :=
  cat [Chr (letter_i "x"); Lit (ch "2"); Lit (ch "6"); Chr (in_set "45")].
(** [(BD|WEB)] *)
Definition source_re : regex :=
  Group 1 (Alt (cat [Chr (letter_i "b"); Chr (letter_i "d")])
               (cat [Chr (letter_i "w"); Chr (letter_i "e"); Chr (letter_i "b")])).
(** [S(\d+)E(\d+)] *)
Definition season_episode_re : regex :=
  cat [Chr (letter_i "s"); Group 1 (Plus true digit);
       Chr (letter_i "e"); Group 2 (Plus true digit)].
(** [- (\d+)] *)
Definition episode_re : regex :=
  cat [Lit (ch "-"); Lit (ch " "); Group 1 (Plus true digit)].

Definition season_episode : pattern := compiled "S(\d+)E(\d+)" season_episode_re.
Definition episode : pattern := compiled "- (\d+)" episode_re.

(** The rules of Scenario A as the specification writes them, with
    rules for the episode *)
Definition scenario_A : PatternSet :=
  list_to_map
    [ ("resolution", compiled "\d{3,4}p" resolution_re);
      ("video_codec", compiled "x26[45]" video_codec_re);
      ("season_episode", season_episode);
      ("episode", episode) ].

(** The same rules, each inside a capturing group *)
Definition grouped : PatternSet :=
  list_to_map
    [ ("resolution", compiled "(\d{3,4}p)" (Group 1 resolution_re));
      ("source", compiled "(BD|WEB)" source_re);
      ("video_codec", compiled "(x26[45])" (Group 1 video_codec_re));
      ("season_episode", season_episode);
      ("episode", episode) ].
End Rules.

Definition stem_A : pystr := py "[Group][Spy x Family Season 3][1080p][x264] - 05".

(** ** The vocabulary of the properties *)

(** The keys of the technical fields, 备注 apart *)
Definition tech_fields : list string :=
  ["分辨率"; "视频编码"; "音频编码"; "字幕"; "字幕组"].

(** From [info] to [info']: a technical field is kept, or filled if it was
    [None]; 备注 grows at its end; no other key changes. *)
Definition tech_extends (info info' : pydict) : Prop :=
  (forall k, k <> "备注" ->
     info' !! k = info !! k \/
     (k ∈ tech_fields /\ info !! k = Some VNone /\ exists s, info' !! k = Some (VStr s)))
  /\ (forall l, info !! "备注" = Some (VList l) ->
        exists l', info' !! "备注" = Some (VList (l ++ l'))).

(** The entries of [tech_keys]: the rule [source] feeds 备注, every other
    rule one technical field. *)
Definition tech_entry (kf : string * string) : Prop :=
  kf.1 = "source" \/ (kf.1 <> "source" /\ kf.2 ∈ tech_fields).

(** Where the number of an episode comes from: group 2 of the
    [season_episode] rule, or else group 1 of the [episode] rule, read by
    [int]. *)
Definition episode_source (patterns : PatternSet) (work_str : pystr) (n : Z) : Prop :=
  (exists m raw,
      pat_search (rule_or_empty patterns "season_episode") work_str = Ok (Some m) /\
      group m 2 = Ok raw /\ py_int raw = Ok n)
  \/ (exists m raw,
         pat_search (rule_or_empty patterns "season_episode") work_str = Ok None /\
         pat_search (rule_or_empty patterns "episode") work_str = Ok (Some m) /\
         group m 1 = Ok raw /\ py_int raw = Ok n).

(** [footprint m P]: [m] leaves the cache and the links alone and sends a
    list of requests that satisfies [P]. *)
Definition footprint {A : Type} (m : M A) (P : list request -> Prop) : Prop :=
  forall st, exists reqs, P reqs /\ (m st).2 = sent st reqs.

(** A request other than a search *)
Definition not_search (req : request) : Prop :=
  match req with SearchSubject _ => False | _ => True end.

(** Every query put to the source so far was put once and has its answer
    in the cache. *)
Definition cache_inv (st : state) : Prop :=
  NoDup (searches_of (requests st)) /\
  forall q, q ∈ searches_of (requests st) -> is_Some (api_cache st !! q).

(** The words a pattern spells *)
Inductive matches : regex -> pystr -> Prop :=
| matches_Eps : matches Eps []
| matches_Chr p c : p c = true -> matches (Chr p) [c]
| matches_Seq r1 r2 w1 w2 :
    matches r1 w1 -> matches r2 w2 -> matches (Seq r1 r2) (w1 ++ w2)
| matches_Alt_l r1 r2 w : matches r1 w -> matches (Alt r1 r2) w
| matches_Alt_r r1 r2 w : matches r2 w -> matches (Alt r1 r2) w
| matches_Star_nil g r : matches (Star g r) []
| matches_Star_more g r w1 w2 :
    matches r w1 -> matches (Star g r) w2 -> matches (Star g r) (w1 ++ w2)
| matches_Group i r w : matches r w -> matches (Group i r) w.





(** [eager p r]: at a character of the class [p], the pattern [r] finds
    a match on the spot. *)
Definition eager (p : N -> bool) (r : regex) : Prop :=
  forall c s, p c = true -> match_here r false (c :: s) <> None.

(** [r] spells no empty word. *)
Definition never_empty (r : regex) : Prop := forall w, matches r w -> w <> [].

(** The separators of line 131 *)
Definition is_separator (c : N) : bool := is_space c || in_set "._-" c.

(** The groups of a pattern with their bodies, and the groups that take
    part in every match (those outside alternatives and repetitions). *)
Fixpoint group_bodies (r : regex) : list (nat * regex) :=
  match r with
  | Eps | Chr _ => []
  | Seq r1 r2 | Alt r1 r2 => group_bodies r1 ++ group_bodies r2
  | Star _ r1 => group_bodies r1
  | Group i r1 => (i, r1) :: group_bodies r1
  end.

Fixpoint sure_groups (r : regex) : list nat :=
  match r with
  | Eps | Chr _ | Alt _ _ | Star _ _ => []
  | Seq r1 r2 => sure_groups r1 ++ sure_groups r2
  | Group i r1 => i :: sure_groups r1
  end.

(** Every captured text is a word of the body of a group of that number. *)
Definition captured (r : regex) (added : caps) : Prop :=
  Forall (fun kv => exists body, (kv.1, body) ∈ group_bodies r /\ matches body kv.2) added.

(** The values [parse_filename] keeps under its keys while it works *)
Definition str_or_none (v : value) : Prop := v = VNone \/ exists s, v = VStr s.

Definition str_keys : list string :=
  ["字幕组"; "标题"; "季数"; "集数"; "分辨率"; "视频编码"; "音频编码"; "字幕"].

Definition working_record (info : pydict) : Prop :=
  (forall k, k ∈ str_keys -> exists v, info !! k = Some v /\ str_or_none v)
  /\ (exists l : list pystr, info !! "备注" = Some (VList (VStr <$> l))).

(** A text of no more characters than [int] reads digits *)
Definition short_enough (w : pystr) : Prop :=
  N.of_nat (length w) <= int_max_str_digits.

(** Rules [parse_filename] can work with: a technical rule searches
    without error and has a group 1; the episode rules search without
    error and, in a text that is short enough, the groups read with
    [int] hold what [int] accepts. *)
Definition tech_rule_ok (p : pattern) : Prop :=
  forall content,
    match pat_search p content with
    | Ok None => True
    | Ok (Some m) => m_groups m <> []
    | Raise _ => False
    end.

Definition int_group (m : re_match) (n : nat) : Prop :=
  exists g z, group m n = Ok g /\ py_int g = Ok z.

Definition season_episode_rule_ok (p : pattern) : Prop :=
  forall w,
    short_enough w ->
    match pat_search p w with
    | Ok None => True
    | Ok (Some m) => int_group m 1 /\ int_group m 2
    | Raise _ => False
    end.

Definition episode_rule_ok (p : pattern) : Prop :=
  forall w,
    short_enough w ->
    match pat_search p w with
    | Ok None => True
    | Ok (Some m) => int_group m 1
    | Raise _ => False
    end.

Definition rules_ok (patterns : PatternSet) : Prop :=
  (forall key field p,
      (key, field) ∈ tech_keys -> patterns !! key = Some p -> pat_falsy p = false ->
      tech_rule_ok p)
  /\ (exists p, patterns !! "season_episode" = Some p /\ season_episode_rule_ok p)
  /\ (exists p, patterns !! "episode" = Some p /\ episode_rule_ok p).

(** A result that, if it is an exception, is none of the client's own
    ([APIError] and its two subclasses) *)
Definition quiet {A : Type} (r : result A) : Prop :=
  forall e, r = Raise e -> is_APIError e = false.

(** The dictionaries built at lines 93-99 and 104-113 *)
Definition episode_shape (v : value) : Prop :=
  exists sort name_cn name airdate desc,
    v = VDict [ (py "sort", sort); (py "name_cn", name_cn); (py "name", name);
                (py "airdate", airdate); (py "desc", desc) ].

Definition scraped_shape (bangumi_id v : value) : Prop :=
  exists name name_jp year total eps summary image,
    v = VDict [ (py "bangumi_id", bangumi_id); (py "name_cn", name);
                (py "name_jp", name_jp); (py "year", year);
                (py "total_episodes", total); (py "episodes", VList eps);
                (py "summary", summary); (py "image", image) ]
    /\ Forall episode_shape eps.

(** The keys the Metadata Resolver may write *)
Definition resolver_keys : list string := ["标题"; "季数"; "bangumi_eps"].

(** Every answer in the Lookup Cache is [None] or a dictionary of lines
    104-113 of the client. *)
Definition cache_shaped (st : state) : Prop :=
  forall q v, api_cache st !! q = Some v -> v = VNone \/ exists id, scraped_shape id v.

(** White space at the head of [s] *)
Definition begins_space (s : pystr) : bool :=
  match s with c :: _ => is_space c | [] => false end.

(** Two neighbours of [s] that are both white space *)
Fixpoint double_space (s : pystr) : bool :=
  match s with
  | a :: t => (is_space a && begins_space t) || double_space t
  | [] => false
  end.

(** The check [spaces_re] makes at one position: two white-space
    characters, and then all that follow. *)
Definition spaces_here (s : pystr) : option pystr :=
  match s with
  | a :: b :: rest => if is_space a && is_space b then Some (lstrip rest) else None
  | _ => None
  end.

(** * Properties *)

(** ** The error monad *)

Lemma bind_Ok {A B : Type} (m : result A) (f : A -> result B) (b : B) :
  m ≫= f = Ok b <-> exists a, m = Ok a /\ f a = Ok b.
Proof.
  destruct m as [a|e]; simpl; split.
  - intros H. exists a. auto.
  - intros (a' & Ha & H). inversion Ha. subst. exact H.
  - discriminate.
  - intros (a' & Ha & _). discriminate.
Qed.

Lemma bind_Raise {A B : Type} (m : result A) (f : A -> result B) :
  (forall a, m = Ok a -> exists e, f a = Raise e) -> exists e, m ≫= f = Raise e.
Proof.
  destruct m as [a|e]; simpl; intros H; [apply H; reflexivity | eauto].
Qed.

(** Splits the first bind of an equation [_ = Ok _]. *)
Tactic Notation "bind_inv" hyp(H) "as" ident(a) ident(Ha) :=
  apply bind_Ok in H as (a & Ha & H).

(** ** Evaluations *)

Example scenario_A_grouped_rules :
  parse_filename Rules.grouped stem_A =
  Ok (list_to_map
        [ ("字幕组", VNone); ("标题", VStr (py "Spy x Family"));
          ("季数", VStr (py "3")); ("集数", VStr (py "05"));
          ("分辨率", VStr (py "1080p")); ("视频编码", VStr (py "x264"));
          ("音频编码", VNone); ("字幕", VNone); ("备注", VNone) ]).
Proof. reflexivity. Qed.

Example scenario_A_IndexError :
  parse_filename Rules.scenario_A stem_A = Raise IndexError.
Proof. reflexivity. Qed.

Example no_rules_IndexError :
  parse_filename ∅ (py "Show - 05") = Raise IndexError.
Proof. reflexivity. Qed.

Example remarks_accumulate :
  parse_filename Rules.grouped (py "[BD][720p][WEB][1080p] Show - 07")
  ≫= (fun info => Ok (info !! "备注", info !! "分辨率")) =
  Ok (Some (VStr (py "BD, WEB")), Some (VStr (py "720p"))).
Proof. reflexivity. Qed.

(** ** What each stage of [parse_filename] may change *)

Lemma tech_extends_refl info : tech_extends info info.
Proof.
  split; [intros; left; reflexivity |].
  intros l Hl. exists []. rewrite app_nil_r. exact Hl.
Qed.

Lemma tech_extends_trans a b c :
  tech_extends a b -> tech_extends b c -> tech_extends a c.
Proof.
  intros [Hab Rab] [Hbc Rbc]. split.
  - intros k Hk.
    destruct (Hab k Hk) as [E1 | (Hin & Hnone & s & Hs)];
      destruct (Hbc k Hk) as [E2 | (Hin2 & Hnone2 & s2 & Hs2)].
    + left. congruence.
    + right. rewrite <- E1. eauto.
    + right. rewrite E2. eauto.
    + congruence.
  - intros l Hl. destruct (Rab l Hl) as [l1 H1].
    destruct (Rbc _ H1) as [l2 H2]. exists (l1 ++ l2).
    rewrite app_assoc. exact H2.
Qed.

Lemma getitem_Ok (d : pydict) k v : getitem d k = Ok v <-> d !! k = Some v.
Proof.
  unfold getitem. destruct (d !! k); split; intros H; inversion H; reflexivity.
Qed.

Lemma str_strip_Ok v w : str_strip v = Ok w -> exists s, w = VStr s.
Proof. destruct v; simpl; intros H; inversion H; eauto. Qed.

Lemma remarks_append_extends info v info' :
  remarks_append info v = Ok info' -> tech_extends info info'.
Proof.
  unfold remarks_append. intros H. bind_inv H as cur Hcur.
  apply getitem_Ok in Hcur. destruct cur; try discriminate. inversion H; subst.
  split.
  - intros k Hk. left. apply lookup_insert_ne. congruence.
  - intros l0 Hl0. exists [v]. rewrite lookup_insert_eq. congruence.
Qed.

Lemma fill_extends info field val s cur :
  field ∈ tech_fields -> info !! field = Some cur -> val = VStr s ->
  tech_extends info (if is_None cur then <[field := val]> info else info).
Proof.
  intros Hin Hcur ->. destruct cur; simpl; try apply tech_extends_refl.
  assert (Hne : field <> "备注").
  { intros ->. revert Hin. unfold tech_fields. rewrite !elem_of_cons.
    rewrite elem_of_nil. intros H. repeat destruct H as [H|H]; discriminate || exact H. }
  split.
  - intros k Hk. destruct (decide (field = k)) as [<- | Hd].
    + right. rewrite lookup_insert_eq. eauto.
    + left. apply lookup_insert_ne. exact Hd.
  - intros l Hl. exists []. rewrite app_nil_r, lookup_insert_ne; auto.
Qed.

Lemma tech_keys_entries : Forall tech_entry tech_keys.
Proof.
  unfold tech_keys, tech_entry, tech_fields.
  repeat (apply List.Forall_cons; [| ]); try apply List.Forall_nil; simpl;
    solve [ left; reflexivity
          | right; split; [discriminate | rewrite !elem_of_cons; tauto ] ].
Qed.

Lemma try_keys_extends patterns keys content :
  Forall tech_entry keys ->
  forall info info' b,
    try_keys patterns keys content info = Ok (info', b) -> tech_extends info info'.
Proof.
  induction 1 as [| [key field] keys Hkf Hkeys IH]; intros info info' b H; simpl in H.
  - inversion H. apply tech_extends_refl.
  - destruct (patterns !! key) as [pattern|]; [| eauto].
    destruct (pat_falsy pattern); [eauto |].
    bind_inv H as found Hfound. destruct found as [m|]; [| eauto].
    bind_inv H as g1 Hg1. bind_inv H as val Hval. bind_inv H as info1 Hinfo1.
    inversion H; subst. clear H.
    apply str_strip_Ok in Hval as [s ->].
    destruct Hkf as [Hsrc | [Hsrc Hfield]]; simpl in *.
    + subst key. simpl in Hinfo1. eapply remarks_append_extends; eauto.
    + apply String.eqb_neq in Hsrc. rewrite Hsrc in Hinfo1.
      bind_inv Hinfo1 as cur Hcur. inversion Hinfo1; subst.
      apply getitem_Ok in Hcur. eapply fill_extends; eauto.
Qed.

Lemma tech_block_extends patterns info w block info' w' :
  tech_block patterns (info, w) block = Ok (info', w') -> tech_extends info info'.
Proof.
  unfold tech_block. intros H. bind_inv H as content Hc.
  destruct content; try discriminate.
  bind_inv H as r Hr. destruct r as [info1 matched]. inversion H; subst.
  eapply try_keys_extends; [apply tech_keys_entries | eauto].
Qed.

Lemma tech_blocks_extend patterns blocks :
  forall info w info' w',
    for_each (tech_block patterns) (info, w) blocks = Ok (info', w') ->
    tech_extends info info'.
Proof.
  induction blocks as [| block blocks IH]; intros info w info' w' H; simpl in H.
  - inversion H. apply tech_extends_refl.
  - bind_inv H as st1 Hst1. destruct st1 as [info1 w1].
    eapply tech_extends_trans;
      [eapply tech_block_extends; exact Hst1 | eapply IH; exact H].
Qed.

Lemma for_each_app {S B : Type} (body : S -> B -> result S) xs ys st :
  for_each body st (xs ++ ys) = for_each body st xs ≫= (fun st' => for_each body st' ys).
Proof.
  revert st. induction xs as [| x xs IH]; intros st; simpl; [reflexivity |].
  destruct (body st x); simpl; auto.
Qed.

(** A key outside the technical fields and 备注 goes through untouched. *)
Lemma tech_extends_other info info' k :
  tech_extends info info' -> k <> "备注" -> k ∉ tech_fields -> info' !! k = info !! k.
Proof.
  intros [H _] Hk Hnot. destruct (H k Hk) as [E | (Hin & _)]; [exact E | contradiction].
Qed.

(** A field that holds a value keeps it. *)
Lemma tech_extends_set info info' k v :
  tech_extends info info' -> k <> "备注" -> info !! k = Some v -> v <> VNone ->
  info' !! k = Some v.
Proof.
  intros [H _] Hk Hv Hne. destruct (H k Hk) as [E | (_ & Hnone & _)]; congruence.
Qed.

Lemma title_season_stage_cases info w info' w' :
  title_season_stage info w = Ok (info', w') ->
  (info' = info /\ w' = w) \/
  exists t s, info' = <["季数" := VStr s]> (<["标题" := VStr t]> info).
Proof.
  unfold title_season_stage. intros H.
  destruct (re_search title_season_re w) as [m|].
  - bind_inv H as g1 Hg1. bind_inv H as title Ht. bind_inv H as g2 Hg2.
    bind_inv H as season Hs. inversion H; subst.
    apply str_strip_Ok in Ht as [t ->]. apply str_strip_Ok in Hs as [s ->].
    right. eauto.
  - inversion H. left. auto.
Qed.

Lemma title_season_stage_frame info w info' w' k :
  title_season_stage info w = Ok (info', w') ->
  k <> "标题" -> k <> "季数" -> info' !! k = info !! k.
Proof.
  intros H Ht Hs. apply title_season_stage_cases in H as [[-> _] | (t & s & ->)].
  - reflexivity.
  - rewrite !lookup_insert_ne; auto.
Qed.

Lemma episode_stage_frame patterns info w info' w' k :
  episode_stage patterns info w = Ok (info', w') ->
  k <> "季数" -> k <> "集数" -> info' !! k = info !! k.
Proof.
  unfold episode_stage. intros H Hs He.
  bind_inv H as ep Hep. destruct (is_None ep); [| inversion H; reflexivity].
  bind_inv H as se Hse. destruct se as [m|].
  - bind_inv H as cur Hcur. bind_inv H as info1 Hinfo1.
    bind_inv H as g2 Hg2. bind_inv H as n2 Hn2. inversion H; subst.
    rewrite lookup_insert_ne by auto.
    destruct (is_None cur).
    + bind_inv Hinfo1 as g1 Hg1. bind_inv Hinfo1 as n Hn. inversion Hinfo1; subst.
      rewrite lookup_insert_ne by auto. reflexivity.
    + inversion Hinfo1. reflexivity.
  - bind_inv H as epm Hepm. destruct epm as [m|].
    + bind_inv H as g1 Hg1. bind_inv H as n Hn. inversion H; subst.
      rewrite lookup_insert_ne by auto. reflexivity.
    + inversion H. reflexivity.
Qed.

Lemma title_stage_frame info w info' k :
  title_stage info w = Ok info' -> k <> "标题" -> info' !! k = info !! k.
Proof.
  unfold title_stage. intros H Hk. bind_inv H as cur Hcur.
  destruct (is_None cur); inversion H; subst; [| reflexivity].
  rewrite lookup_insert_ne by auto. reflexivity.
Qed.

Lemma defaults_stage_frame info info' k :
  defaults_stage info = Ok info' -> k <> "季数" -> k <> "备注" -> info' !! k = info !! k.
Proof.
  unfold defaults_stage. intros H Hs Hr. bind_inv H as season Hseason.
  bind_inv H as remarks Hrem. destruct remarks; try discriminate.
  bind_inv H as parts Hparts. inversion H; subst.
  rewrite lookup_insert_ne by auto.
  destruct (is_None season); [rewrite lookup_insert_ne by auto |]; reflexivity.
Qed.

(** The stages of a parse that returns *)
Lemma parse_filename_stages patterns stem info :
  parse_filename patterns stem = Ok info ->
  exists info1 w1 info2 w2 info3 w3 info4,
    title_season_stage info_init stem = Ok (info1, w1) /\
    tech_stage patterns info1 w1 = Ok (info2, w2) /\
    episode_stage patterns info2 w2 = Ok (info3, w3) /\
    title_stage info3 w3 = Ok info4 /\
    defaults_stage info4 = Ok info.
Proof.
  unfold parse_filename. intros H.
  bind_inv H as s1 H1. destruct s1 as [info1 w1].
  bind_inv H as s2 H2. destruct s2 as [info2 w2].
  bind_inv H as s3 H3. destruct s3 as [info3 w3].
  bind_inv H as info4 H4.
  exists info1, w1, info2, w2, info3, w3, info4. auto.
Qed.

Lemma tech_fields_not k :
  k ∈ tech_fields -> k <> "标题" /\ k <> "季数" /\ k <> "集数" /\ k <> "备注".
Proof.
  unfold tech_fields. rewrite !elem_of_cons, elem_of_nil.
  intros H. repeat destruct H as [H|H]; try contradiction; subst;
    repeat split; discriminate.
Qed.

Lemma not_tech_field_episode : "集数" ∉ tech_fields.
Proof.
  unfold tech_fields. rewrite !elem_of_cons, elem_of_nil.
  intros H. repeat destruct H as [H|H]; try contradiction; discriminate.
Qed.

(** Until step 3 the episode is [None]. *)
Lemma episode_None_before_step3 patterns stem info1 w1 info2 w2 :
  title_season_stage info_init stem = Ok (info1, w1) ->
  tech_stage patterns info1 w1 = Ok (info2, w2) ->
  info2 !! "集数" = Some VNone.
Proof.
  intros H1 H2. apply tech_blocks_extend in H2.
  rewrite (tech_extends_other _ _ _ H2); [| discriminate | apply not_tech_field_episode].
  rewrite (title_season_stage_frame _ _ _ _ _ H1); [reflexivity | discriminate | discriminate].
Qed.

(** ** C1: a rule missing from the Pattern Set *)

(** The pattern [''] matches at once, with the empty text and no group. *)
Lemma search_empty_pattern w :
  exists m, pat_search empty_pattern w = Ok (Some m) /\ m_groups m = [].
Proof.
  unfold empty_pattern, compiled, re_search. simpl pat_search.
  destruct w; simpl; eexists; split; reflexivity.
Qed.

Lemma episode_stage_missing_rule patterns info w :
  patterns !! "season_episode" = None ->
  info !! "集数" = Some VNone ->
  exists e, episode_stage patterns info w = Raise e.
Proof.
  intros Hrule Hep. unfold episode_stage, rule_or_empty.
  apply getitem_Ok in Hep. rewrite Hep, Hrule. cbn [mbind result_bind is_None default].
  destruct (search_empty_pattern w) as (m & -> & Hm). cbn [mbind result_bind].
  assert (G : forall n, group m (S n) = Raise IndexError).
  { intros n. unfold group. rewrite Hm. reflexivity. }
  destruct (getitem info "季数") as [cur|e]; cbn [mbind result_bind]; [| eauto].
  destruct (is_None cur); rewrite ?(G 0%nat), ?(G 1%nat); cbn [mbind result_bind]; eauto.
Qed.

Lemma episode_stage_missing_episode_rule patterns info w :
  patterns !! "episode" = None ->
  info !! "集数" = Some VNone ->
  pat_search (rule_or_empty patterns "season_episode") w = Ok None ->
  episode_stage patterns info w = Raise IndexError.
Proof.
  intros Hrule Hep Hse. unfold episode_stage.
  apply getitem_Ok in Hep. rewrite Hep. cbn [mbind result_bind is_None].
  rewrite Hse. cbn [mbind result_bind]. unfold rule_or_empty at 1. rewrite Hrule.
  cbn [default]. destruct (search_empty_pattern w) as (m & -> & Hm).
  cbn [mbind result_bind]. unfold group. rewrite Hm. reflexivity.
Qed.

(** C1 (the code departs from the claim): with no [season_episode] rule in
    the Pattern Set, [parse_filename] raises on every file name; the
    default [''] of line 117 matches everywhere and has no group to read. *)
Theorem missing_season_episode_rule_raises (patterns : PatternSet) (stem : pystr) :
  patterns !! "season_episode" = None ->
  exists e, parse_filename patterns stem = Raise e.
Proof.
  intros Hrule. unfold parse_filename.
  apply bind_Raise. intros [info1 w1] H1.
  apply bind_Raise. intros [info2 w2] H2.
  destruct (episode_stage_missing_rule patterns info2 w2 Hrule) as [e He].
  - eapply episode_None_before_step3; eauto.
  - rewrite He. simpl. eauto.
Qed.

Lemma missing_season_episode_rule_raises_witness :
  (∅ : PatternSet) !! "season_episode" = None /\
  exists e, parse_filename ∅ (py "Show - 05") = Raise e.
Proof.
  split; [reflexivity |].
  apply (missing_season_episode_rule_raises ∅ (py "Show - 05")). reflexivity.
Defined.

(** ** C4: Scenario A *)

Lemma resolution_rule_IndexError (patterns : PatternSet) info :
  patterns !! "resolution" = Some (compiled "\d{3,4}p" Rules.resolution_re) ->
  try_keys patterns tech_keys (py "1080p") info = Raise IndexError.
Proof.
  intros H. unfold tech_keys. cbn [try_keys]. rewrite H.
  reflexivity.
Qed.

(** C4 (the code departs from the claim): whatever the other rules, with
    the resolution rule [\d{3,4}p] the parse of the Scenario A name raises,
    at [match.group(1)] of line 104 on the segment [1080p]: the rule has
    no group. *)
Theorem scenario_A_raises (patterns : PatternSet) :
  exists e,
    parse_filename (<["resolution" := compiled "\d{3,4}p" Rules.resolution_re]> patterns)
                   stem_A = Raise e.
Proof.
  set (rules := <["resolution" := _]> patterns).
  assert (Hres : rules !! "resolution" = Some (compiled "\d{3,4}p" Rules.resolution_re))
    by apply lookup_insert_eq.
  unfold parse_filename.
  assert (E1 : title_season_stage info_init stem_A =
               Ok (<["季数" := VStr (py "3")]> (<["标题" := VStr (py "Spy x Family")]> info_init),
                   py "[Group][1080p][x264] - 05"))
    by reflexivity.
  rewrite E1. cbn [mbind result_bind].
  apply bind_Raise. intros [info2 w2] H2. exfalso.
  unfold tech_stage in H2.
  assert (E2 : re_finditer bracket_re (py "[Group][1080p][x264] - 05") =
               [ {| m_pre := []; m_text := py "[Group]";
                    m_groups := [Some (py "Group")]; m_post := py "[1080p][x264] - 05" |};
                 {| m_pre := []; m_text := py "[1080p]";
                    m_groups := [Some (py "1080p")]; m_post := py "[x264] - 05" |};
                 {| m_pre := []; m_text := py "[x264]";
                    m_groups := [Some (py "x264")]; m_post := py " - 05" |} ])
    by reflexivity.
  rewrite E2 in H2. cbn [for_each] in H2.
  bind_inv H2 as st1 Hst1.
  bind_inv H2 as st2 Hst2.
  unfold tech_block in Hst2. destruct st1 as [info1' w1'].
  change (group _ 1) with (Ok (VStr (py "1080p"))) in Hst2.
  cbn [mbind result_bind] in Hst2.
  rewrite (resolution_rule_IndexError rules info1' Hres) in Hst2. discriminate.
Qed.

(** ** C6: technical fields are set once *)

Lemma defaults_stage_remarks info info' l :
  defaults_stage info = Ok info' ->
  info !! "备注" = Some (VList l) ->
  exists parts, str_items l = Ok parts /\
                info' !! "备注" = Some (py_or (VStr (join (py ", ") parts)) VNone).
Proof.
  unfold defaults_stage. intros H Hl. bind_inv H as season Hseason.
  bind_inv H as remarks Hrem. apply getitem_Ok in Hrem.
  assert (remarks = VList l) as ->.
  { destruct (is_None season);
      [rewrite lookup_insert_ne in Hrem by discriminate |]; congruence. }
  bind_inv H as parts Hparts. inversion H; subst.
  exists parts. split; [exact Hparts | apply lookup_insert_eq].
Qed.

(** C6: whatever a technical field holds after some of the bracketed
    segments have been processed, the parsed record holds at the end, the
    later segments notwithstanding; 备注 alone grows, and ends as the
    joined list of all its entries. *)
Theorem technical_fields_set_once
        (patterns : PatternSet) (stem : pystr) (info1 : pydict) (w1 : pystr)
        (blocks1 blocks2 : list re_match) (info_mid : pydict) (w_mid : pystr)
        (info : pydict) :
  title_season_stage info_init stem = Ok (info1, w1) ->
  re_finditer bracket_re w1 = blocks1 ++ blocks2 ->
  for_each (tech_block patterns) (info1, w1) blocks1 = Ok (info_mid, w_mid) ->
  parse_filename patterns stem = Ok info ->
  (forall field v,
      field ∈ tech_fields -> info_mid !! field = Some v -> v <> VNone ->
      info !! field = Some v)
  /\ (forall l,
        info_mid !! "备注" = Some (VList l) ->
        exists l' parts,
          str_items (l ++ l') = Ok parts /\
          info !! "备注" = Some (py_or (VStr (join (py ", ") parts)) VNone)).
Proof.
  intros H1 Hblocks Hmid Hparse.
  apply parse_filename_stages in Hparse
    as (i1 & x1 & info2 & w2 & info3 & w3 & info4 & S1 & S2 & S3 & S4 & S5).
  rewrite H1 in S1. inversion S1; subst i1 x1. clear S1.
  unfold tech_stage in S2. rewrite Hblocks, for_each_app, Hmid in S2.
  cbn [mbind result_bind] in S2. apply tech_blocks_extend in S2.
  split.
  - intros field v Hf Hv Hne.
    destruct (tech_fields_not field Hf) as (Nt & Ns & Ne & Nr).
    rewrite (defaults_stage_frame _ _ _ S5), (title_stage_frame _ _ _ _ S4),
      (episode_stage_frame _ _ _ _ _ _ S3) by assumption.
    eapply tech_extends_set; eauto.
  - intros l Hl. destruct S2 as [_ R]. destruct (R l Hl) as [l' Hl'].
    rewrite <- (episode_stage_frame _ _ _ _ _ "备注" S3) in Hl' by discriminate.
    rewrite <- (title_stage_frame _ _ _ "备注" S4) in Hl' by discriminate.
    destruct (defaults_stage_remarks _ _ _ S5 Hl') as (parts & Hp & Hfin).
    exists l', parts. auto.
Qed.

Lemma technical_fields_set_once_witness :
  let stem := py "[BD][720p][WEB][1080p] Show - 07" in
  let blocks := re_finditer bracket_re stem in
  let info_mid :=
    <["分辨率" := VStr (py "720p")]> (<["备注" := VList [VStr (py "BD")]]> info_init) in
  let info : pydict :=
    list_to_map
      [ ("字幕组", VNone); ("标题", VStr (py "Show")); ("季数", VStr (py "1"));
        ("集数", VStr (py "07")); ("分辨率", VStr (py "720p")); ("视频编码", VNone);
        ("音频编码", VNone); ("字幕", VNone); ("备注", VStr (py "BD, WEB")) ] in
  parse_filename Rules.grouped stem = Ok info /\
  info_mid !! "分辨率" = Some (VStr (py "720p")) /\
  info !! "分辨率" = Some (VStr (py "720p")).
Proof.
  intros stem blocks info_mid info.
  assert (Hp : parse_filename Rules.grouped stem = Ok info) by reflexivity.
  split; [exact Hp |]. split; [reflexivity |].
  refine (proj1 (technical_fields_set_once Rules.grouped stem info_init stem
                   (take 2 blocks) (drop 2 blocks) info_mid
                   (py "[WEB][1080p] Show - 07") info _ _ _ Hp)
                "分辨率" (VStr (py "720p")) _ _ _).
  - reflexivity.
  - symmetry. apply take_drop.
  - reflexivity.
  - unfold tech_fields. rewrite !elem_of_cons. tauto.
  - reflexivity.
  - discriminate.
Defined.

(** ** C5: the episode number as text *)

Lemma format_02d_below_100 (n : Z) :
  (0 <= n < 100)%Z ->
  format_02d n = [48 + Z.to_N (n / 10); 48 + Z.to_N (n mod 10)].
Proof.
  intros H. rewrite <- (Z2Nat.id n) by lia.
  assert (Hk : (Z.to_nat n < 100)%nat) by lia.
  generalize dependent (Z.to_nat n). clear. intros k Hk.
  do 100 (destruct k as [| k]; [reflexivity |]). lia.
Qed.

Lemma digits_fuel_nonempty fuel n : (1 <= length (digits_fuel (S fuel) n))%nat.
Proof.
  simpl. destruct (n <? 10); [simpl; lia |]. rewrite length_app. simpl. lia.
Qed.

Lemma str_of_N_long n : 100 <= n -> (3 <= length (str_of_N n))%nat.
Proof.
  intros H. unfold str_of_N.
  assert (L : 6 <= N.log2 n) by (change 6 with (N.log2 100); apply N.log2_le_mono, H).
  destruct (N.to_nat (N.log2 n)) as [| [| fuel]] eqn:E; try lia.
  assert (H10 : 10 <= n / 10).
  { change 10 with (100 / 10) at 1. apply N.Div0.div_le_mono. exact H. }
  pose proof (digits_fuel_nonempty fuel (n / 10 / 10)) as Hne.
  cbn [digits_fuel] in *.
  destruct (N.ltb_spec n 10); [lia |].
  destruct (N.ltb_spec (n / 10) 10); [lia |].
  rewrite !length_app. cbn [length]. lia.
Qed.

Lemma format_02d_from_100 (n : Z) :
  (100 <= n)%Z -> format_02d n = str_of_int n /\ (2 < length (format_02d n))%nat.
Proof.
  intros H. unfold format_02d, str_of_int, zfill.
  destruct (Z.ltb_spec n 0); [lia |].
  pose proof (str_of_N_long (Z.abs_N n)) as L.
  assert (3 <= length (str_of_N (Z.abs_N n)))%nat as L' by (apply L; lia).
  replace (2 - length (str_of_N (Z.abs_N n)))%nat with 0%nat by lia.
  simpl. split; [reflexivity | lia].
Qed.

Lemma episode_stage_episode patterns info w info' w' :
  episode_stage patterns info w = Ok (info', w') ->
  info !! "集数" = Some VNone ->
  info' !! "集数" = Some VNone \/
  exists n, episode_source patterns w n /\ info' !! "集数" = Some (VStr (format_02d n)).
Proof.
  unfold episode_stage. intros H Hep. apply getitem_Ok in Hep. rewrite Hep in H.
  cbn [mbind result_bind is_None] in H.
  bind_inv H as se Hse. destruct se as [m|].
  - bind_inv H as cur Hcur. bind_inv H as info1 Hinfo1.
    bind_inv H as g2 Hg2. bind_inv H as n2 Hn2. inversion H; subst.
    right. exists n2. split; [left; eauto | apply lookup_insert_eq].
  - bind_inv H as epm Hepm. destruct epm as [m|].
    + bind_inv H as g1 Hg1. bind_inv H as n Hn. inversion H; subst.
      right. exists n. split; [right; eauto 6 | apply lookup_insert_eq].
    + inversion H; subst. left. apply getitem_Ok. exact Hep.
Qed.

Lemma format_02d_negative (n : Z) :
  (n < 0)%Z -> format_02d n = 45 :: str_of_int (- n) /\ format_02d n = str_of_int n.
Proof.
  intros H. unfold format_02d, str_of_int, zfill.
  destruct (Z.ltb_spec n 0); [| lia]. destruct (Z.ltb_spec (- n) 0); [lia |].
  replace (Z.abs_N (- n)) with (Z.abs_N n) by lia.
  pose proof (digits_fuel_nonempty (N.to_nat (N.log2 (Z.abs_N n))) (Z.abs_N n)) as L.
  fold (str_of_N (Z.abs_N n)) in L.
  replace (1 - length (str_of_N (Z.abs_N n)))%nat with 0%nat by lia.
  split; reflexivity.
Qed.

(** C5, as the code has it: the episode number read by [int] from the
    working string that steps 1 and 2 leave is written by [f"{n:02d}"],
    in decimal and filled with zeros to a width of two. From 0 to 99
    that is exactly two digits (5 gives 05, 12 gives 12); from 100 on it
    is the number itself, three digits or more; below 0, which a rule
    whose group admits a sign can read, it is the minus sign and the
    digits of the number with no zero added (-5 gives -5). *)
Theorem episode_zero_padded (patterns : PatternSet) (stem : pystr) (info : pydict) :
  parse_filename patterns stem = Ok info ->
  info !! "集数" = Some VNone \/
  exists info1 w1 info2 work_str n,
    title_season_stage info_init stem = Ok (info1, w1) /\
    tech_stage patterns info1 w1 = Ok (info2, work_str) /\
    episode_source patterns work_str n /\
    info !! "集数" = Some (VStr (format_02d n)) /\
    ((0 <= n < 100)%Z ->
       format_02d n = [48 + Z.to_N (n / 10); 48 + Z.to_N (n mod 10)]) /\
    ((100 <= n)%Z -> format_02d n = str_of_int n /\ (2 < length (format_02d n))%nat) /\
    ((n < 0)%Z -> format_02d n = 45 :: str_of_int (- n) /\ format_02d n = str_of_int n).
Proof.
  intros Hparse.
  apply parse_filename_stages in Hparse
    as (info1 & w1 & info2 & w2 & info3 & w3 & info4 & S1 & S2 & S3 & S4 & S5).
  rewrite (defaults_stage_frame _ _ "集数" S5), (title_stage_frame _ _ _ "集数" S4)
    by discriminate.
  pose proof (episode_None_before_step3 _ _ _ _ _ _ S1 S2) as Hnone.
  destruct (episode_stage_episode _ _ _ _ _ S3 Hnone) as [E | (n & Hsrc & E)].
  - left. exact E.
  - right. exists info1, w1, info2, w2, n.
    split; [exact S1 |]. split; [exact S2 |]. split; [exact Hsrc |].
    split; [exact E |]. split; [apply format_02d_below_100 |].
    split; [apply format_02d_from_100 | apply format_02d_negative].
Qed.

Lemma episode_zero_padded_witness :
  let info : pydict :=
    list_to_map
      [ ("字幕组", VNone); ("标题", VStr (py "Show")); ("季数", VStr (py "1"));
        ("集数", VStr (py "05")); ("分辨率", VNone); ("视频编码", VNone);
        ("音频编码", VNone); ("字幕", VNone); ("备注", VNone) ] in
  parse_filename Rules.grouped (py "Show - 5") = Ok info /\
  (info !! "集数" = Some VNone \/
   exists info1 w1 info2 work_str n,
     title_season_stage info_init (py "Show - 5") = Ok (info1, w1) /\
     tech_stage Rules.grouped info1 w1 = Ok (info2, work_str) /\
     episode_source Rules.grouped work_str n /\
     info !! "集数" = Some (VStr (format_02d n)) /\
     ((0 <= n < 100)%Z ->
        format_02d n = [48 + Z.to_N (n / 10); 48 + Z.to_N (n mod 10)]) /\
     ((100 <= n)%Z -> format_02d n = str_of_int n /\ (2 < length (format_02d n))%nat) /\
     ((n < 0)%Z -> format_02d n = 45 :: str_of_int (- n) /\ format_02d n = str_of_int n)).
Proof.
  intros info.
  assert (Hp : parse_filename Rules.grouped (py "Show - 5") = Ok info)
    by reflexivity.
  split; [exact Hp |].
  exact (episode_zero_padded Rules.grouped (py "Show - 5") info Hp).
Defined.

(** C5 as stated fails: episode 100 is rendered with three digits. *)
Lemma episode_100_three_digits :
  parse_filename Rules.grouped (py "Show - 100") ≫= (fun info => getitem info "集数")
  = Ok (VStr (py "100"))
  /\ length (py "100") = 3%nat.
Proof. split; reflexivity. Qed.

(** With an [episode] rule whose group admits a sign, [E(-?\d+)], the
    episode of a name can be negative; it is written with its sign and
    no zero. *)
Example episode_minus_5 :
  let patterns : PatternSet :=
    list_to_map
      [ ("season_episode", Rules.season_episode);
        ("episode",
         compiled "E(-?\d+)"
                  (cat [ Chr (letter_i "e");
                         Group 1 (Seq (Alt (Lit (ch "-")) Eps) (Plus true digit)) ])) ] in
  parse_filename patterns (py "Show E-5") ≫= (fun info => getitem info "集数")
  = Ok (VStr (py "-5")).
Proof. reflexivity. Qed.

Example format_02d_examples :
  format_02d 5 = py "05" /\ format_02d 12 = py "12" /\ format_02d 100 = py "100" /\
  py_int (VStr (py "5")) = Ok 5%Z /\ py_int (VStr (py "12")) = Ok 12%Z.
Proof. repeat split; reflexivity. Qed.

(** What [int] refuses and reads at the edges: U+001C and U+001F around
    the digits are refused, other white space is skipped, and one
    underscore between digits is read. *)
Example py_int_examples :
  py_int (VStr [28; 48; 50]) = Raise ValueError
  /\ py_int (VStr [48; 50; 31]) = Raise ValueError
  /\ py_int (VStr [0x85; 48; 50; 0x3000]) = Ok 2%Z
  /\ py_int (VStr (py " -5 ")) = Ok (-5)%Z
  /\ py_int (VStr (py "1_0")) = Ok 10%Z
  /\ py_int (VStr (py "_10")) = Raise ValueError.
Proof. repeat split; reflexivity. Qed.

(** ** The state monad: what a computation sends *)

Lemma sent_nil st : sent st [] = st.
Proof. destruct st. unfold sent. simpl. rewrite app_nil_r. reflexivity. Qed.

Lemma sent_sent st l1 l2 : sent (sent st l1) l2 = sent st (l1 ++ l2).
Proof. unfold sent. simpl. rewrite app_assoc. reflexivity. Qed.

Lemma footprint_mret {A : Type} (a : A) : footprint (mret a) (eq []).
Proof. intros st. exists []. split; [reflexivity |]. simpl. symmetry. apply sent_nil. Qed.

Lemma footprint_lift {A : Type} (r : result A) : footprint (lift r) (eq []).
Proof. intros st. exists []. split; [reflexivity |]. simpl. symmetry. apply sent_nil. Qed.

Lemma footprint_bind {A B : Type} (m : M A) (f : A -> M B) (P Q R : list request -> Prop) :
  footprint m P -> (forall a, footprint (f a) Q) ->
  (forall l1, P l1 -> R l1) -> (forall l1 l2, P l1 -> Q l2 -> R (l1 ++ l2)) ->
  footprint (m ≫= f) R.
Proof.
  intros Hm Hf HP HPQ st. destruct (Hm st) as (l1 & Hl1 & E1).
  unfold mbind, M_bind. destruct (m st) as [[a|e] st1]; simpl in *; subst st1.
  - destruct (Hf a (sent st l1)) as (l2 & Hl2 & E2).
    exists (l1 ++ l2). split; [auto |]. rewrite E2. apply sent_sent.
  - exists l1. auto.
Qed.

Lemma footprint_try_except {A : Type} (body handler : M A) caught
      (P Q R : list request -> Prop) :
  footprint body P -> footprint handler Q ->
  (forall l1, P l1 -> R l1) -> (forall l1 l2, P l1 -> Q l2 -> R (l1 ++ l2)) ->
  footprint (try_except body caught handler) R.
Proof.
  intros Hb Hh HP HPQ st. destruct (Hb st) as (l1 & Hl1 & E1).
  unfold try_except. destruct (body st) as [[a|e] st1]; simpl in *; subst st1.
  - exists l1. auto.
  - destruct (caught e).
    + destruct (Hh (sent st l1)) as (l2 & Hl2 & E2).
      exists (l1 ++ l2). split; [auto |]. rewrite E2. apply sent_sent.
    + exists l1. auto.
Qed.

(** Pure steps after [m] add nothing to what [m] sends. *)
Lemma footprint_then_pure {A B : Type} (m : M A) (f : A -> M B) P :
  footprint m P -> (forall a, footprint (f a) (eq [])) -> footprint (m ≫= f) P.
Proof.
  intros Hm Hf. eapply footprint_bind; eauto.
  intros l1 l2 H <-. rewrite app_nil_r. exact H.
Qed.

Lemma footprint_make_request http req : footprint (_make_request http req) (eq [req]).
Proof.
  intros st. exists [req]. split; [reflexivity |]. unfold _make_request.
  destruct (http _ _) as [code body|]; [| reflexivity].
  destruct (code =? 404)%Z; [reflexivity |].
  destruct (_ && _); [reflexivity |]. destruct body; reflexivity.
Qed.

Lemma footprint_search_subject http term :
  footprint (search_subject http term) (eq [SearchSubject term]).
Proof.
  unfold search_subject.
  eapply footprint_try_except;
    [ | apply footprint_mret | intros l1 H; exact H
      | intros l1 l2 H <-; rewrite app_nil_r; exact H ].
  apply footprint_then_pure; [apply footprint_make_request |]. intros data.
  apply footprint_then_pure; [apply footprint_lift |]. intros lst.
  destruct (_ && _); [| apply footprint_mret].
  repeat (apply footprint_then_pure; [apply footprint_lift | intros ?]).
  apply footprint_mret.
Qed.

Lemma footprint_get_details_for_scraping http q :
  footprint (get_details_for_scraping http q)
            (fun reqs => exists tail, reqs = SearchSubject q :: tail /\ Forall not_search tail).
Proof.
  unfold get_details_for_scraping.
  eapply footprint_bind with (Q := Forall not_search);
    [ apply footprint_search_subject | | | ].
  - intros search_result. destruct (_ || _).
    + intros st. exists []. split; [constructor |]. simpl. symmetry. apply sent_nil.
    + eapply footprint_bind with (P := eq []) (Q := Forall not_search);
        [ apply footprint_lift | | intros l <-; constructor | intros l1 l2 <- H; exact H ].
      intros bangumi_id.
      eapply footprint_try_except with (P := Forall not_search) (Q := eq []);
        [ | apply footprint_mret | intros l1 H; exact H
          | intros l1 l2 H <-; rewrite app_nil_r; exact H ].
      eapply footprint_bind with (P := Forall not_search) (Q := Forall not_search);
        [ | | intros l1 H; exact H | intros l1 l2 H1 H2; apply Forall_app; auto ].
      * unfold get_subject_details. intros st.
        destruct (footprint_make_request http (GetSubject bangumi_id) st) as (l & <- & E).
        exists [GetSubject bangumi_id]. split; [repeat constructor | exact E].
      * intros details.
        eapply footprint_bind with (P := Forall not_search) (Q := eq []);
          [ | | intros l1 H; exact H | intros l1 l2 H <-; rewrite app_nil_r; exact H ].
        -- unfold get_episodes. apply footprint_then_pure; [| intros; apply footprint_lift].
           intros st.
           destruct (footprint_make_request http (GetEpisodes bangumi_id) st) as (l & <- & E).
           exists [GetEpisodes bangumi_id]. split; [repeat constructor | exact E].
        -- intros all_episodes.
           repeat (apply footprint_then_pure; [apply footprint_lift | intros ?]).
           apply footprint_lift.
  - intros l <-. exists []. split; [reflexivity | constructor].
  - intros l1 l2 <- H. exists l2. split; [reflexivity | exact H].
Qed.

(** ** C3: the Lookup Cache *)

Lemma searches_of_app l1 l2 : searches_of (l1 ++ l2) = searches_of l1 ++ searches_of l2.
Proof. apply omap_app. Qed.

Lemma searches_of_quiet tail : Forall not_search tail -> searches_of tail = [].
Proof.
  induction 1 as [| req tail Hreq _ IH]; [reflexivity |].
  destruct req; simpl in *; [contradiction | exact IH | exact IH].
Qed.

(** One call of [_get_bangumi_details]: a hit answers from the cache and
    sends nothing; a miss puts the query to the source once and stores the
    answer if one comes back. *)
Lemma get_bangumi_details_step http title season st r st' :
  _get_bangumi_details http title season st = (r, st') ->
  linked st' = linked st /\
  match api_cache st !! api_query_of title season with
  | Some cached => r = Ok cached /\ st' = st
  | None =>
      searches_of (requests st') = searches_of (requests st) ++ [api_query_of title season]
      /\ api_cache st' = match r with
                         | Ok details => <[api_query_of title season := details]> (api_cache st)
                         | Raise _ => api_cache st
                         end
  end.
Proof.
  unfold _get_bangumi_details. intros H.
  destruct (api_cache st !! api_query_of title season) as [cached|].
  - inversion H; subst. auto.
  - destruct (footprint_get_details_for_scraping http (api_query_of title season) st)
      as (reqs & (tail & -> & Hq) & E).
    destruct (get_details_for_scraping http (api_query_of title season) st)
      as [[details|e] st1]; simpl in E; subst st1; inversion H; subst; simpl;
      rewrite searches_of_app; simpl; rewrite (searches_of_quiet _ Hq); auto.
Qed.

Lemma cache_inv_initial : cache_inv initial_state.
Proof. split; [constructor |]. simpl. intros q Hq. inversion Hq. Qed.

Lemma get_bangumi_details_inv http title season st r st' :
  cache_inv st ->
  _get_bangumi_details http title season st = (r, st') ->
  NoDup (searches_of (requests st')) /\
  forall details, r = Ok details ->
    cache_inv st' /\ api_cache st ⊆ api_cache st' /\
    api_cache st' !! api_query_of title season = Some details.
Proof.
  intros [Hnd Hin] H. apply get_bangumi_details_step in H as [_ H].
  destruct (api_cache st !! api_query_of title season) as [cached|] eqn:Hc.
  - destruct H as [-> ->]. split; [exact Hnd |].
    intros details [= <-]. repeat split; auto.
  - destruct H as [Hs Hcache].
    assert (Hfresh : api_query_of title season ∉ searches_of (requests st)).
    { intros Hq. apply Hin in Hq as [v Hv]. congruence. }
    assert (Hnd' : NoDup (searches_of (requests st'))).
    { rewrite Hs. apply NoDup_app. repeat split; auto.
      - intros q Hq Hq'. apply list_elem_of_singleton in Hq'. subst. contradiction.
      - apply NoDup_singleton. }
    split; [exact Hnd' |]. intros details ->. unfold cache_inv. rewrite Hcache.
    repeat split.
    + exact Hnd'.
    + intros q Hq. rewrite Hs in Hq. apply elem_of_app in Hq as [Hq | Hq].
      * destruct (Hin q Hq) as [v Hv].
        destruct (decide (api_query_of title season = q)) as [<- | Hne]; [congruence |].
        rewrite lookup_insert_ne by exact Hne. eauto.
      * apply list_elem_of_singleton in Hq. subst. rewrite lookup_insert_eq. eauto.
    + apply insert_subseteq. exact Hc.
    + apply lookup_insert_eq.
Qed.

Lemma lookups_inv http calls :
  forall st r st',
    cache_inv st ->
    lookups http calls st = (r, st') ->
    NoDup (searches_of (requests st')) /\
    forall vs, r = Ok vs ->
      cache_inv st' /\ api_cache st ⊆ api_cache st' /\
      Forall2 (fun call v => api_cache st' !! api_query_of call.1 call.2 = Some v) calls vs.
Proof.
  induction calls as [| [title season] calls IH]; intros st r st' Hinv H; simpl in H;
    unfold mret, M_ret in H.
  - inversion H; subst. split; [apply Hinv |]. intros vs [= <-].
    repeat split; try apply Hinv; [reflexivity | constructor].
  - unfold mbind, M_bind in H.
    destruct (_get_bangumi_details http title season st) as [[details|e] st1] eqn:E1.
    + destruct (get_bangumi_details_inv _ _ _ _ _ _ Hinv E1) as [_ Hok].
      destruct (Hok details eq_refl) as (Hinv1 & Hsub1 & Hq1).
      destruct (lookups http calls st1) as [[more|e] st2] eqn:E2.
      * destruct (IH _ _ _ Hinv1 E2) as [Hnd2 Hok2].
        destruct (Hok2 more eq_refl) as (Hinv2 & Hsub2 & Hall).
        inversion H; subst. split; [exact Hnd2 |].
        intros vs [= <-]. repeat split; try apply Hinv2.
        -- etrans; eauto.
        -- constructor; [| exact Hall]. simpl. eapply lookup_weaken; eauto.
      * destruct (IH _ _ _ Hinv1 E2) as [Hnd2 _].
        inversion H; subst. split; [exact Hnd2 | discriminate].
    + inversion H; subst.
      destruct (get_bangumi_details_inv _ _ _ _ _ _ Hinv E1) as [Hnd _].
      split; [exact Hnd | discriminate].
Qed.

(** A run of lookups that returns, cut at its [i]-th call: the calls
    before it return the first [i] values, and the call itself returns the
    [i]-th from the state they leave. *)
Lemma lookups_step http calls :
  forall st vs st' i call v,
    lookups http calls st = (Ok vs, st') ->
    calls !! i = Some call -> vs !! i = Some v ->
    exists before after,
      lookups http (take i calls) st = (Ok (take i vs), before) /\
      _get_bangumi_details http call.1 call.2 before = (Ok v, after) /\
      lookups http (take (S i) calls) st = (Ok (take (S i) vs), after).
Proof.
  induction calls as [| [title season] calls IH]; intros st vs st' i call v H Hi Hv.
  { destruct i; discriminate. }
  cbn [lookups] in H. unfold mbind, M_bind in H.
  destruct (_get_bangumi_details http title season st) as [[d|e] st1] eqn:E1;
    [| discriminate].
  destruct (lookups http calls st1) as [[more|e] st2] eqn:E2; [| discriminate].
  unfold mret, M_ret in H. injection H as <- <-.
  destruct i as [| i].
  - injection Hi as <-. injection Hv as <-. exists st, st1.
    split; [reflexivity |]. split; [exact E1 |].
    cbn [take lookups]. unfold mbind, M_bind. cbn [fst snd]. rewrite E1. reflexivity.
  - cbn [lookup list_lookup] in Hi, Hv.
    destruct (IH st1 more st2 i call v E2 Hi Hv) as (before & after & Hb & Hc & Ha).
    exists before, after. split; [| split; [exact Hc |]].
    + cbn [take lookups]. unfold mbind, M_bind. rewrite E1, Hb. reflexivity.
    + change (take (S (S i)) ((title, season) :: calls))
        with ((title, season) :: take (S i) calls).
      cbn [lookups]. unfold mbind, M_bind. rewrite E1, Ha. reflexivity.
Qed.

(** C3: in a run of lookups from an empty cache, no query string is put to
    the External Title Source twice, and two calls that build the same
    query string return the same value, a stored [None] included. Call by
    call: the value a call returns is the entry of the Lookup Cache under
    its query, from then on to the end of the run; a call whose query is
    in the cache returns that entry and leaves the state as it is, with no
    request; a call whose query is not returns what the source answers in
    that state and stores it. *)
Theorem cache_single_fetch (http : world) (calls : list (pystr * option pystr)) :
  NoDup (searches_of (requests (lookups http calls initial_state).2)) /\
  forall vs,
    (lookups http calls initial_state).1 = Ok vs ->
    (forall i j call_i call_j v_i v_j,
        calls !! i = Some call_i -> calls !! j = Some call_j ->
        api_query_of call_i.1 call_i.2 = api_query_of call_j.1 call_j.2 ->
        vs !! i = Some v_i -> vs !! j = Some v_j ->
        v_i = v_j)
    /\ (forall i call v,
           calls !! i = Some call -> vs !! i = Some v ->
           let q := api_query_of call.1 call.2 in
           let before := (lookups http (take i calls) initial_state).2 in
           let after := (lookups http (take (S i) calls) initial_state).2 in
           api_cache (lookups http calls initial_state).2 !! q = Some v
           /\ api_cache after !! q = Some v
           /\ match api_cache before !! q with
              | Some cached => v = cached /\ after = before
              | None =>
                  (get_details_for_scraping http q before).1 = Ok v
                  /\ api_cache after = <[q := v]> (api_cache before)
                  /\ requests after = requests (get_details_for_scraping http q before).2
              end).
Proof.
  destruct (lookups http calls initial_state) as [r st'] eqn:E.
  destruct (lookups_inv http calls _ _ _ cache_inv_initial E) as [Hnd Hok].
  split; [exact Hnd |]. cbn [fst snd]. intros vs ->.
  destruct (Hok vs eq_refl) as (_ & _ & Hall). split.
  - intros i j ci cj vi vj Hi Hj Hq Hvi Hvj.
    pose proof (Forall2_lookup_lr _ _ _ _ _ _ Hall Hi Hvi) as Ei.
    pose proof (Forall2_lookup_lr _ _ _ _ _ _ Hall Hj Hvj) as Ej.
    simpl in Ei, Ej. congruence.
  - intros i call v Hi Hv.
    set (q := api_query_of call.1 call.2).
    set (before := (lookups http (take i calls) initial_state).2).
    set (after := (lookups http (take (S i) calls) initial_state).2).
    split; [exact (Forall2_lookup_lr _ _ _ _ _ _ Hall Hi Hv) |].
    destruct (lookups_step http calls _ _ _ i call v E Hi Hv)
      as (st_b & st_a & Hb & Hc & Ha).
    assert (Eb : before = st_b) by (unfold before; rewrite Hb; reflexivity).
    assert (Ea : after = st_a) by (unfold after; rewrite Ha; reflexivity).
    rewrite Eb, Ea. clear before after Eb Ea Hb Ha.
    unfold _get_bangumi_details in Hc. fold q in Hc.
    destruct (api_cache st_b !! q) as [cached|] eqn:Hq.
    + injection Hc as <- <-. auto.
    + destruct (footprint_get_details_for_scraping http q st_b) as (reqs & _ & EX).
      destruct (get_details_for_scraping http q st_b) as [[d|e] X]; [| discriminate].
      cbn [snd] in EX. subst X. injection Hc as <- <-. cbn [api_cache requests sent fst snd].
      split; [apply lookup_insert_eq |]. auto.
Qed.

Lemma cache_single_fetch_witness :
  let http : world := fun _ req =>
    match req with
    | SearchSubject _ =>
        Response 200 (Some (VDict [(py "list", VList [VDict [(py "id", VInt 7)]])]))
    | GetSubject _ =>
        Response 200 (Some (VDict [(py "name_cn", VStr (py "某番")); (py "eps", VInt 12)]))
    | GetEpisodes _ => Response 200 (Some (VDict [(py "data", VList [])]))
    end in
  let calls := [(py "Show", None); (py "Show", Some (py "1"))] in
  let record :=
    VDict [ (py "bangumi_id", VInt 7); (py "name_cn", VStr (py "某番"));
            (py "name_jp", VStr (py "未知")); (py "year", VStr (py "未知"));
            (py "total_episodes", VInt 12); (py "episodes", VList []);
            (py "summary", VStr (py "未知")); (py "image", VStr []) ] in
  lookups http calls initial_state
  = (Ok [record; record],
     {| api_cache := {[ py "Show" := record ]};
        requests := [SearchSubject (py "Show"); GetSubject (VInt 7); GetEpisodes (VInt 7)];
        linked := [] |})
  /\ NoDup (searches_of (requests (lookups http calls initial_state).2))
  /\ api_cache (lookups http calls initial_state).2 !! py "Show" = Some record.
Proof.
  intros http calls record.
  assert (E : lookups http calls initial_state
              = (Ok [record; record],
                 {| api_cache := {[ py "Show" := record ]};
                    requests := [SearchSubject (py "Show"); GetSubject (VInt 7);
                                 GetEpisodes (VInt 7)];
                    linked := [] |})) by reflexivity.
  split; [exact E |].
  destruct (cache_single_fetch http calls) as [Hnd Hval].
  split; [exact Hnd |].
  destruct (Hval [record; record] (f_equal fst E)) as [_ Hcall].
  exact (proj1 (Hcall 1%nat (py "Show", Some (py "1")) record eq_refl eq_refl)).
Defined.

(** *** The same for a whole directory *)

Lemma lift_bind {A B : Type} (r : result A) (f : A -> M B) st :
  (lift r ≫= f) st = match r with Ok a => f a st | Raise e => (Raise e, st) end.
Proof. unfold mbind, M_bind, lift. destruct r; reflexivity. Qed.

Lemma resolve_inv http media_info st r st' :
  cache_inv st ->
  resolve http media_info st = (r, st') ->
  linked st' = linked st /\
  NoDup (searches_of (requests st')) /\
  (forall info', r = Ok info' -> cache_inv st').
Proof.
  intros Hinv. unfold resolve.
  destruct (_ && _).
  - rewrite lift_bind. destruct (as_str _) as [title|e];
      [| intros [= <- <-]; split; [reflexivity | split; [apply Hinv | discriminate]]].
    rewrite lift_bind. destruct (as_optional_str _) as [season|e];
      [| intros [= <- <-]; split; [reflexivity | split; [apply Hinv | discriminate]]].
    unfold mbind, M_bind.
    destruct (_get_bangumi_details http title season st) as [[details|e] st1] eqn:E.
    + destruct (get_bangumi_details_inv _ _ _ _ _ _ Hinv E) as [Hnd Hok].
      destruct (Hok details eq_refl) as (Hinv1 & _).
      apply get_bangumi_details_step in E as [Hl _].
      destruct (truthy details); unfold lift, mret, M_ret; intros [= <- <-]; auto.
    + destruct (get_bangumi_details_inv _ _ _ _ _ _ Hinv E) as [Hnd _].
      apply get_bangumi_details_step in E as [Hl _].
      intros [= <- <-]. split; [exact Hl | split; [exact Hnd | discriminate]].
  - unfold mret, M_ret. intros [= <- <-]. split; [reflexivity | split; [apply Hinv | auto]].
Qed.

Lemma process_directory_inv patterns http stems :
  forall st r st',
    cache_inv st ->
    process_directory patterns http stems st = (r, st') ->
    NoDup (searches_of (requests st')).
Proof.
  induction stems as [| stem stems IH]; intros st r st' Hinv H; simpl in H.
  - unfold mret, M_ret in H. inversion H; subst. apply Hinv.
  - unfold process_file in H. unfold mbind at 1, M_bind at 1 in H.
    rewrite lift_bind in H.
    destruct (parse_filename patterns stem) as [media_info|e];
      [| inversion H; subst; apply Hinv].
    unfold mbind, M_bind in H.
    destruct (resolve http media_info st) as [[info'|e] st1] eqn:E.
    + destruct (resolve_inv _ _ _ _ _ Hinv E) as (_ & _ & Hok).
      unfold create_hard_link in H. eapply IH; [| exact H].
      destruct (Hok info' eq_refl) as [Hnd Hin]. split; [exact Hnd | exact Hin].
    + destruct (resolve_inv _ _ _ _ _ Hinv E) as (_ & Hnd & _).
      inversion H; subst. exact Hnd.
Qed.

(** Over a whole directory no query string is put to the source twice,
    however the run ends. *)
Theorem process_directory_single_fetch patterns http stems :
  NoDup (searches_of (requests (process_directory patterns http stems initial_state).2)).
Proof.
  destruct (process_directory patterns http stems initial_state) as [r st'] eqn:E.
  exact (process_directory_inv _ _ _ _ _ _ cache_inv_initial E).
Qed.

(** ** C9: a record without a usable title *)

Lemma parse_filename_no_hint patterns stem info :
  parse_filename patterns stem = Ok info -> info !! "bangumi_eps" = None.
Proof.
  intros Hparse.
  apply parse_filename_stages in Hparse
    as (info1 & w1 & info2 & w2 & info3 & w3 & info4 & S1 & S2 & S3 & S4 & S5).
  rewrite (defaults_stage_frame _ _ _ S5), (title_stage_frame _ _ _ _ S4),
    (episode_stage_frame _ _ _ _ _ _ S3) by discriminate.
  apply tech_blocks_extend in S2.
  rewrite (tech_extends_other _ _ _ S2); [| discriminate |].
  - rewrite (title_season_stage_frame _ _ _ _ _ S1) by discriminate. reflexivity.
  - unfold tech_fields. rewrite !elem_of_cons, elem_of_nil.
    intros H. repeat destruct H as [H|H]; try contradiction; discriminate.
Qed.

(** C9: when the parsed title is empty or the sentinel, the file is handed
    to the linking step as parsed, without the key [bangumi_eps]; no
    request is sent and the cache stays as it was. *)
Theorem unusable_title_skips_lookup
        (patterns : PatternSet) (http : world) (stem : pystr) (info : pydict) (st : state) :
  parse_filename patterns stem = Ok info ->
  info !! "标题" = Some (VStr []) \/ info !! "标题" = Some (VStr unknown_title) ->
  process_file patterns http stem st
  = (Ok tt, {| api_cache := api_cache st;
               requests := requests st;
               linked := linked st ++ [info] |})
  /\ info !! "bangumi_eps" = None.
Proof.
  intros Hparse Htitle. split; [| eapply parse_filename_no_hint; exact Hparse].
  unfold process_file.
  rewrite lift_bind, Hparse. unfold mbind, M_bind.
  assert (E : resolve http info st = (Ok info, st)).
  { unfold resolve, dict_get. destruct Htitle as [-> | ->]; reflexivity. }
  rewrite E. reflexivity.
Qed.

Lemma unusable_title_skips_lookup_witness :
  let info : pydict :=
    list_to_map
      [ ("字幕组", VNone); ("标题", VStr (py "Unknown Title")); ("季数", VStr (py "1"));
        ("集数", VStr (py "05")); ("分辨率", VStr (py "1080p")); ("视频编码", VNone);
        ("音频编码", VNone); ("字幕", VNone); ("备注", VNone) ] in
  parse_filename Rules.grouped (py "[1080p] - 05") = Ok info /\
  info !! "标题" = Some (VStr unknown_title) /\
  process_file Rules.grouped (fun _ _ => NoResponse) (py "[1080p] - 05") initial_state
  = (Ok tt, {| api_cache := ∅; requests := []; linked := [info] |}).
Proof.
  intros info.
  assert (Hp : parse_filename Rules.grouped (py "[1080p] - 05") = Ok info)
    by reflexivity.
  assert (Ht : info !! "标题" = Some (VStr unknown_title)) by reflexivity.
  split; [exact Hp |]. split; [exact Ht |].
  exact (proj1 (unusable_title_skips_lookup Rules.grouped (fun _ _ => NoResponse)
                  (py "[1080p] - 05") info initial_state Hp (or_intror Ht))).
Defined.

(** ** C2: an error of the External Title Source *)

Lemma search_subject_uncaught http term st e :
  (_make_request http (SearchSubject term) st).1 = Raise e ->
  e = NetworkError \/ e = APIError ->
  search_subject http term st = (Raise e, sent st [SearchSubject term]).
Proof.
  intros Hreq He. unfold search_subject, try_except. unfold mbind at 1, M_bind at 1.
  destruct (footprint_make_request http (SearchSubject term) st) as (l & <- & E).
  destruct (_make_request http (SearchSubject term) st) as [r st1].
  simpl in Hreq, E. subst r st1. destruct He as [-> | ->]; reflexivity.
Qed.

(** C2 (the code departs from the claim): when the search request of a
    file fails with [NetworkError] (no connection, a body that is not
    JSON) or [APIError] (an HTTP error status), nothing catches it:
    [process_directory] ends with that exception, the file is not linked
    and the files after it are never looked at. *)
Theorem source_error_aborts_batch
        (patterns : PatternSet) (http : world) (stem : pystr) (rest : list pystr)
        (st : state) (info : pydict) (title : pystr) (season : option pystr) (e : exn) :
  parse_filename patterns stem = Ok info ->
  info !! "标题" = Some (VStr title) -> title <> [] -> title <> unknown_title ->
  as_optional_str (dict_get info "季数") = Ok season ->
  api_cache st !! api_query_of title season = None ->
  (_make_request http (SearchSubject (api_query_of title season)) st).1 = Raise e ->
  e = NetworkError \/ e = APIError ->
  process_directory patterns http (stem :: rest) st
  = (Raise e, sent st [SearchSubject (api_query_of title season)]).
Proof.
  intros Hparse Htitle Hne Hunk Hseason Hmiss Hreq He.
  cbn [process_directory]. unfold process_file.
  unfold mbind at 1, M_bind at 1.
  rewrite lift_bind, Hparse. unfold mbind at 1, M_bind at 1.
  assert (E : resolve http info st
              = (Raise e, sent st [SearchSubject (api_query_of title season)])).
  { assert (Hdg : dict_get info "标题" = VStr title)
      by (unfold dict_get; rewrite Htitle; reflexivity).
    unfold resolve. rewrite Hdg. cbv zeta.
    assert (truthy (VStr title) && negb (is_str (VStr title) unknown_title) = true) as ->.
    { apply andb_true_iff. split.
      - destruct title; [contradiction | reflexivity].
      - unfold is_str, str_eqb. rewrite bool_decide_eq_false_2 by exact Hunk. reflexivity. }
    rewrite lift_bind. cbn [as_str]. rewrite lift_bind, Hseason.
    unfold mbind, M_bind, _get_bangumi_details. rewrite Hmiss.
    unfold get_details_for_scraping. unfold mbind, M_bind.
    rewrite (search_subject_uncaught _ _ _ _ Hreq He). reflexivity. }
  rewrite E. reflexivity.
Qed.

Lemma source_error_aborts_batch_witness :
  process_directory Rules.grouped (fun _ _ => NoResponse)
                    [py "Show - 05"; py "Other - 01"] initial_state
  = (Raise NetworkError,
     {| api_cache := ∅; requests := [SearchSubject (py "Show")]; linked := [] |}).
Proof.
  refine (source_error_aborts_batch Rules.grouped (fun _ _ => NoResponse)
            (py "Show - 05") [py "Other - 01"] initial_state
            (list_to_map
               [ ("字幕组", VNone); ("标题", VStr (py "Show")); ("季数", VStr (py "1"));
                 ("集数", VStr (py "05")); ("分辨率", VNone); ("视频编码", VNone);
                 ("音频编码", VNone); ("字幕", VNone); ("备注", VNone) ])
            (py "Show") (Some (py "1")) NetworkError _ _ _ _ _ _ _ _).
  - reflexivity.
  - reflexivity.
  - discriminate.
  - vm_compute; discriminate.
  - reflexivity.
  - reflexivity.
  - reflexivity.
  - left; reflexivity.
Defined.

(** What the client does absorb: a 404 on the search, and any [APIError]
    on the two detail requests, end as [None], which is cached. *)
Example not_found_and_detail_errors_are_absorbed :
  let not_found : world := fun _ _ => Response 404 None in
  let details_down : world := fun _ req =>
    match req with
    | SearchSubject _ =>
        Response 200 (Some (VDict [(py "list", VList [VDict [(py "id", VInt 7)]])]))
    | _ => NoResponse
    end in
  lookups not_found [(py "Show", None); (py "Show", None)] initial_state
  = (Ok [VNone; VNone],
     {| api_cache := {[ py "Show" := VNone ]};
        requests := [SearchSubject (py "Show")]; linked := [] |})
  /\ lookups details_down [(py "Show", None); (py "Show", None)] initial_state
     = (Ok [VNone; VNone],
        {| api_cache := {[ py "Show" := VNone ]};
           requests := [SearchSubject (py "Show"); GetSubject (VInt 7)]; linked := [] |}).
Proof. split; reflexivity. Qed.

(** ** Regular expressions: first character, and what a match spells *)

(** A pattern that opens with a character class finds nothing in a text
    without a character of that class. *)
Lemma search_from_no_opener p r advance s :
  Forall (fun c => p c = false) s ->
  forall pre, search_from (Seq (Chr p) r) advance pre s = None.
Proof.
  intros H. revert advance. induction H as [| c s Hc _ IH]; intros advance pre.
  - reflexivity.
  - cbn [search_from]. unfold match_here. cbn [rmatch]. rewrite Hc. apply IH.
Qed.

Lemma scan_all_no_opener p r s :
  Forall (fun c => p c = false) s -> scan_all (Seq (Chr p) r) s = ([], s).
Proof.
  intros H. unfold scan_all.
  replace (2 * length s + 2)%nat with (S (2 * length s + 1)) by lia.
  cbn [scan]. rewrite search_from_no_opener by exact H. reflexivity.
Qed.

Lemma no_opening_bracket c :
  in_set "[【" c = false -> N.eqb (ch "[") c = false /\ in_set "[【" c = false.
Proof.
  intros H. split; [| exact H]. unfold in_set in H.
  change (py "[【") with [91; 12304] in H. change (ch "[") with 91.
  cbn [existsb] in H. rewrite N.eqb_sym.
  destruct (c =? 91); [discriminate | reflexivity].
Qed.

Section NoBrackets.
Variable stem : pystr.
Hypothesis no_opener : Forall (fun c => in_set "[【" c = false) stem.

Lemma title_season_none : re_search title_season_re stem = None.
Proof.
  unfold re_search, title_season_re. cbn [cat]. unfold Lit.
  apply search_from_no_opener.
  eapply Forall_impl; [exact no_opener |]. intros c Hc. apply no_opening_bracket, Hc.
Qed.

Lemma no_bracket_blocks : re_finditer bracket_re stem = [].
Proof.
  unfold re_finditer, bracket_re. cbn [cat].
  rewrite scan_all_no_opener by exact no_opener. reflexivity.
Qed.

Lemma no_bracket_to_strip : re_sub bracket_strip_re [] stem = stem.
Proof.
  unfold re_sub, bracket_strip_re. cbn [cat].
  rewrite scan_all_no_opener by exact no_opener. reflexivity.
Qed.
End NoBrackets.

(** ** C8: a name without brackets *)

(** C8, as the code has it: for a stem with no opening bracket in which
    neither episode rule finds a match, the season is "1", every optional
    field is unset, and the title is the stem with its runs of separators
    turned into single spaces and trimmed; "Unknown Title" only when
    nothing is left. *)
Theorem defaults_without_brackets (patterns : PatternSet) (stem : pystr) :
  Forall (fun c => in_set "[【" c = false) stem ->
  pat_search (rule_or_empty patterns "season_episode") stem = Ok None ->
  pat_search (rule_or_empty patterns "episode") stem = Ok None ->
  parse_filename patterns stem =
  Ok (<["备注" := VNone]>
      (<["季数" := VStr (py "1")]>
       (<["标题" := VStr (match strip (re_sub separators_re (py " ") (strip stem)) with
                         | [] => py "Unknown Title"
                         | title => title
                         end)]> info_init))).
Proof.
  intros Hno Hse Hep. unfold parse_filename.
  unfold title_season_stage. rewrite (title_season_none stem Hno).
  cbn [mbind result_bind]. unfold tech_stage. rewrite (no_bracket_blocks stem Hno).
  cbn [for_each mbind result_bind]. unfold episode_stage.
  change (getitem info_init "集数") with (Ok VNone). cbn [mbind result_bind is_None].
  rewrite Hse. cbn [mbind result_bind]. rewrite Hep. cbn [mbind result_bind].
  unfold title_stage. change (getitem info_init "标题") with (Ok VNone).
  cbn [mbind result_bind is_None]. unfold residual_title.
  rewrite (no_bracket_to_strip stem Hno).
  set (title := match strip _ with [] => unknown_title | _ => _ end).
  unfold defaults_stage, getitem. rewrite lookup_insert_ne by discriminate.
  change (info_init !! "季数") with (Some VNone). cbn [mbind result_bind is_None].
  rewrite !lookup_insert_ne by discriminate.
  change (info_init !! "备注") with (Some (VList [])).
  cbn [mbind result_bind str_items join py_or truthy]. subst title.
  destruct (strip (re_sub separators_re (py " ") (strip stem))); reflexivity.
Qed.

Lemma defaults_without_brackets_witness :
  parse_filename Rules.grouped (py "My.Show_-_Special") =
  Ok (list_to_map
        [ ("字幕组", VNone); ("标题", VStr (py "My Show Special")); ("季数", VStr (py "1"));
          ("集数", VNone); ("分辨率", VNone); ("视频编码", VNone);
          ("音频编码", VNone); ("字幕", VNone); ("备注", VNone) ]).
Proof.
  etransitivity.
  - apply (defaults_without_brackets Rules.grouped (py "My.Show_-_Special")).
    + apply (bool_decide_unpack _). vm_compute. exact I.
    + reflexivity.
    + reflexivity.
  - reflexivity.
Defined.

(** C8 as stated fails: a name without brackets and digits keeps its own
    text as the title. *)
Lemma plain_name_keeps_title :
  parse_filename Rules.grouped (py "Show") ≫= (fun info => getitem info "标题")
  = Ok (VStr (py "Show"))
  /\ py "Show" <> py "Unknown Title"
  /\ forallb (fun c => negb (in_set "[【]】" c) && negb (is_digit c)) (py "Show") = true.
Proof.
  split; [reflexivity |]. split; [vm_compute; discriminate | reflexivity].
Qed.

(** What the matcher consumes is a word of the pattern. *)
Lemma rmatch_sound {A : Type} (r : regex) :
  forall (s : pystr) (c : caps) (k : pystr -> caps -> option A) (a : A),
    rmatch r s c k = Some a ->
    exists w s' c', s = w ++ s' /\ matches r w /\ k s' c' = Some a.
Proof.
  induction r as [| p | r1 IH1 r2 IH2 | r1 IH1 r2 IH2 | g r1 IH1 | i r1 IH1];
    intros s c k a H; cbn [rmatch] in H.
  - exists [], s, c. split; [reflexivity |]. split; [constructor | exact H].
  - destruct s as [| x s']; [discriminate |].
    destruct (p x) eqn:Hp; [| discriminate].
    exists [x], s', c. split; [reflexivity |]. split; [constructor; exact Hp | exact H].
  - apply IH1 in H as (w1 & s1 & c1 & -> & M1 & H).
    apply IH2 in H as (w2 & s2 & c2 & -> & M2 & H).
    exists (w1 ++ w2), s2, c2. rewrite app_assoc.
    split; [reflexivity |]. split; [constructor; assumption | exact H].
  - destruct (rmatch r1 s c k) as [a1|] eqn:E1.
    + inversion H; subst a1. apply IH1 in E1 as (w & s' & c' & -> & M & Hk).
      exists w, s', c'. split; [reflexivity |]. split; [apply matches_Alt_l, M | exact Hk].
    + apply IH2 in H as (w & s' & c' & -> & M & Hk).
      exists w, s', c'. split; [reflexivity |]. split; [apply matches_Alt_r, M | exact Hk].
  - match type of H with
    | ?loop (length s) s c = _ => set (L := loop) in H
    end.
    assert (L0 : forall s c, L O s c = k s c) by reflexivity.
    assert (LS : forall fuel s c,
               L (S fuel) s c =
               if g then
                 match rmatch r1 s c (fun s' c' =>
                         if (length s' <? length s)%nat then L fuel s' c' else None) with
                 | Some a => Some a
                 | None => k s c
                 end
               else
                 match k s c with
                 | Some a => Some a
                 | None => rmatch r1 s c (fun s' c' =>
                             if (length s' <? length s)%nat then L fuel s' c' else None)
                 end) by reflexivity.
    clearbody L. revert a H. generalize (length s). intros fuel. revert s c.
    induction fuel as [| fuel IHf]; intros s c a H.
    + rewrite L0 in H.
      exists [], s, c. split; [reflexivity |]. split; [constructor | exact H].
    + rewrite LS in H.
      assert (Hagain :
                forall b,
                  rmatch r1 s c (fun s' c' =>
                    if (length s' <? length s)%nat then L fuel s' c' else None) = Some b ->
                  exists w s' c', s = w ++ s' /\ matches (Star g r1) w /\ k s' c' = Some b).
      { intros b Hb. apply IH1 in Hb as (w1 & s1 & c1 & -> & M1 & Hb).
        destruct (_ <? _)%nat; [| discriminate].
        apply IHf in Hb as (w2 & s2 & c2 & -> & M2 & Hb).
        exists (w1 ++ w2), s2, c2. rewrite app_assoc.
        split; [reflexivity |]. split; [constructor; assumption | exact Hb]. }
      destruct g.
      * remember (rmatch r1 s c _) as again eqn:E in H. symmetry in E.
        destruct again as [b|].
        -- inversion H; subst b. apply Hagain, E.
        -- exists [], s, c. split; [reflexivity |]. split; [constructor | exact H].
      * destruct (k s c) as [b|] eqn:Ek.
        -- inversion H; subst b.
           exists [], s, c. split; [reflexivity |]. split; [constructor | exact Ek].
        -- apply Hagain, H.
  - apply IH1 in H as (w & s' & c' & -> & M & H).
    eexists w, s', _. split; [reflexivity |]. split; [constructor; exact M | exact H].
Qed.

(** A match found by [re.search] lies in the text and is a word of the
    pattern. *)
Lemma search_from_sound r :
  forall s advance pre m,
    search_from r advance pre s = Some m ->
    exists skipped,
      m_pre m = rev pre ++ skipped /\
      s = skipped ++ m_text m ++ m_post m /\
      matches r (m_text m).
Proof.
  induction s as [| x s IH]; intros advance pre m H; cbn [search_from] in H.
  - destruct (match_here r advance []) as [[s' c]|] eqn:E; [| discriminate].
    inversion H; subst m; clear H. cbn [m_pre m_text m_post].
    unfold match_here in E. apply rmatch_sound in E as (w & s1 & c1 & Hs & M & Hk).
    destruct (_ && _); [discriminate |]. inversion Hk; subst s1 c1.
    exists []. rewrite app_nil_r. split; [reflexivity |].
    destruct w; [| discriminate]. simpl in Hs. subst s'. simpl. auto.
  - destruct (match_here r advance (x :: s)) as [[s' c]|] eqn:E.
    + inversion H; subst m; clear H. cbn [m_pre m_text m_post].
      unfold match_here in E. apply rmatch_sound in E as (w & s1 & c1 & Hs & M & Hk).
      destruct (_ && _); [discriminate |]. inversion Hk; subst s1 c1.
      exists []. rewrite app_nil_r. split; [reflexivity |].
      assert (Hlen : (S (length s) - length s' = length w)%nat).
      { apply (f_equal length) in Hs. rewrite length_app in Hs. simpl in Hs. lia. }
      cbn [length]. rewrite Hlen, Hs, take_app_length. auto.
    + apply IH in H as (skipped & Hpre & Hs & M).
      exists (x :: skipped). cbn [rev] in Hpre. rewrite <- app_assoc in Hpre.
      split; [exact Hpre |]. split; [| exact M]. rewrite Hs at 1. reflexivity.
Qed.


Lemma matches_Seq_inv r1 r2 w :
  matches (Seq r1 r2) w -> exists w1 w2, w = w1 ++ w2 /\ matches r1 w1 /\ matches r2 w2.
Proof. intros H. inversion H; subst. eauto. Qed.

Lemma matches_Chr_inv p w : matches (Chr p) w -> exists c, w = [c] /\ p c = true.
Proof. intros H. inversion H; subst. eauto. Qed.


(** ** C10: the title+season stage and its brackets *)




(** ** C7: the season read off the record *)






Lemma is_str_true v s : is_str v s = true <-> v = VStr s.
Proof.
  unfold is_str, str_eqb. destruct v; try (split; [discriminate | intros; congruence]).
  rewrite bool_decide_eq_true. split; congruence.
Qed.




Example scenario_B_C :
  let found : world := fun _ req =>
    match req with
    | SearchSubject _ => Response 200 (Some (VDict [(py "list", VList [VDict [(py "id", VInt 7)]])]))
    | GetSubject _ =>
        Response 200 (Some (VDict [(py "name_cn", VStr (py "某番 第二季")); (py "eps", VInt 12)]))
    | GetEpisodes _ => Response 200 (Some (VDict [(py "data", VList [])]))
    end in
  (process_directory Rules.grouped found [py "Show - 05"; py "Show - 06"] initial_state).1
  = Ok tt
  /\ requests (process_directory Rules.grouped found [py "Show - 05"; py "Show - 06"]
                                 initial_state).2
     = [SearchSubject (py "Show"); GetSubject (VInt 7); GetEpisodes (VInt 7)]
  /\ map (fun info => (info !! "标题", info !! "季数", info !! "集数", info !! "bangumi_eps"))
         (linked (process_directory Rules.grouped found [py "Show - 05"; py "Show - 06"]
                                    initial_state).2)
     = [ (Some (VStr (py "某番")), Some (VStr (py "2")), Some (VStr (py "05")), Some (VInt 12));
         (Some (VStr (py "某番")), Some (VStr (py "2")), Some (VStr (py "06")), Some (VInt 12)) ].
Proof. repeat split; reflexivity. Qed.

(** * Further properties of the code *)

(** ** The scanner behind [re.sub] and [re.finditer] *)

(** The matches and the gaps between them make up the text again. *)
Lemma scan_pieces r :
  forall fuel advance s ms tl,
    scan fuel r advance s = (ms, tl) ->
    s = concat (map (fun m => m_pre m ++ m_text m) ms) ++ tl.
Proof.
  induction fuel as [| fuel IH]; intros advance s ms tl H; cbn [scan] in H.
  - inversion H; subst. reflexivity.
  - destruct (search_from r advance [] s) as [m|] eqn:E.
    + destruct (scan fuel r _ (m_post m)) as [ms' tl'] eqn:E'.
      inversion H; subst. apply IH in E'.
      apply search_from_sound in E as (skipped & Hpre & Hs & _).
      cbn [rev app] in Hpre. cbn [map concat]. rewrite Hpre, <- !app_assoc.
      rewrite <- E'. exact Hs.
    + inversion H; subst. reflexivity.
Qed.

Lemma re_sub_chars r repl s c :
  c ∈ re_sub r repl s -> c ∈ s \/ c ∈ repl.
Proof.
  unfold re_sub, scan_all. destruct (scan _ r false s) as [ms tl] eqn:E.
  apply scan_pieces in E. rewrite E. clear E. rewrite !elem_of_app.
  intros [Hc | Hc]; [| auto].
  induction ms as [| m ms IH]; cbn [map concat] in *; [inversion Hc |].
  rewrite <- app_assoc, !elem_of_app in Hc. rewrite <- app_assoc, !elem_of_app.
  destruct Hc as [Hc | [Hc | Hc]]; [auto | auto |].
  destruct (IH Hc) as [[H | H] | H]; auto.
Qed.

(** What an eager pattern skips has no character of its class. *)
Lemma search_from_gap p r :
  eager p r ->
  forall s pre,
    match search_from r false pre s with
    | Some m => exists skipped, m_pre m = rev pre ++ skipped /\
                                Forall (fun c => p c = false) skipped
    | None => Forall (fun c => p c = false) s
    end.
Proof.
  intros He. induction s as [| x t IH]; intros pre; cbn [search_from].
  - destruct (match_here r false []) as [[s' c]|].
    + exists []. rewrite app_nil_r. split; [reflexivity | constructor].
    + constructor.
  - destruct (match_here r false (x :: t)) as [[s' c]|] eqn:E.
    + exists []. rewrite app_nil_r. split; [reflexivity | constructor].
    + assert (Hx : p x = false).
      { destruct (p x) eqn:Hp; [| reflexivity]. exfalso. eapply He; eauto. }
      specialize (IH (x :: pre)).
      destruct (search_from r false (x :: pre) t) as [m|].
      * destruct IH as (skipped & Hpre & Hsk). exists (x :: skipped).
        cbn [rev] in Hpre. rewrite <- app_assoc in Hpre. split; [exact Hpre |].
        constructor; assumption.
      * constructor; assumption.
Qed.

Lemma scan_gaps p r :
  eager p r -> never_empty r ->
  forall fuel s ms tl,
    (length s < fuel)%nat ->
    scan fuel r false s = (ms, tl) ->
    Forall (fun m => Forall (fun c => p c = false) (m_pre m)) ms /\
    Forall (fun c => p c = false) tl.
Proof.
  intros He Hne. induction fuel as [| fuel IH]; intros s ms tl Hlen H; [lia |].
  cbn [scan] in H. pose proof (search_from_gap p r He s []) as G.
  destruct (search_from r false [] s) as [m|] eqn:E.
  - destruct G as (skipped & Hpre & Hsk). cbn [rev app] in Hpre.
    apply search_from_sound in E as (skipped' & _ & Hs & M).
    assert (Htext : m_text m <> []) by (apply Hne, M).
    destruct (m_text m) as [| y text] eqn:Et; [contradiction |].
    destruct (scan fuel r false (m_post m)) as [ms' tl'] eqn:E'.
    inversion H; subst ms tl.
    apply IH in E' as [Hms Htl].
    + split; [constructor; [rewrite Hpre; exact Hsk | exact Hms] | exact Htl].
    + apply (f_equal length) in Hs. rewrite !length_app in Hs. simpl in Hs. lia.
  - inversion H; subst. split; [constructor | exact G].
Qed.

(** After [re.sub] with an eager pattern, a character of the class can
    only come from the replacement. *)
Lemma re_sub_eager p r repl s c :
  eager p r -> never_empty r ->
  c ∈ re_sub r repl s -> p c = true -> c ∈ repl.
Proof.
  intros He Hne. unfold re_sub, scan_all.
  destruct (scan _ r false s) as [ms tl] eqn:E.
  apply (scan_gaps p r He Hne) in E as [Hms Htl]; [| lia].
  rewrite elem_of_app. intros [Hc | Hc] Hp.
  - induction Hms as [| m ms Hm _ IH]; cbn [map concat] in Hc.
    + inversion Hc.
    + rewrite <- app_assoc, !elem_of_app in Hc. destruct Hc as [Hc | [Hc | Hc]].
      * rewrite Forall_forall in Hm. rewrite (Hm c Hc) in Hp. discriminate.
      * exact Hc.
      * apply IH, Hc.
  - rewrite Forall_forall in Htl. rewrite (Htl c Hc) in Hp. discriminate.
Qed.

(** *** [str.strip] *)

Lemma lstrip_suffix s : exists pre, s = pre ++ lstrip s.
Proof.
  induction s as [| c t [pre IH]]; [exists []; reflexivity |].
  cbn [lstrip]. destruct (is_space c).
  - exists (c :: pre). simpl. congruence.
  - exists []. reflexivity.
Qed.

Lemma lstrip_head s c : head (lstrip s) = Some c -> is_space c = false.
Proof.
  induction s as [| x t IH]; [discriminate |]. cbn [lstrip].
  destruct (is_space x) eqn:E; [exact IH |]. intros [= <-]. exact E.
Qed.

Lemma elem_of_rev (l : pystr) c : c ∈ rev l <-> c ∈ l.
Proof. rewrite !list_elem_of_In. symmetry. apply in_rev. Qed.

Lemma strip_chars s c : c ∈ strip s -> c ∈ s.
Proof.
  unfold strip. rewrite elem_of_rev. intros H.
  destruct (lstrip_suffix (rev (lstrip s))) as [pre Hp].
  assert (c ∈ rev (lstrip s)) as H' by (rewrite Hp, elem_of_app; auto).
  rewrite elem_of_rev in H'.
  destruct (lstrip_suffix s) as [pre' Hp']. rewrite Hp', elem_of_app. auto.
Qed.

(** A stripped text neither begins nor ends with white space. *)
Lemma strip_ends s :
  (forall c, head (strip s) = Some c -> is_space c = false) /\
  (forall c, last (strip s) = Some c -> is_space c = false).
Proof.
  unfold strip. set (t := lstrip s). set (u := lstrip (rev t)).
  assert (Hlast : forall l : pystr, last (rev l) = head l).
  { intros [| x l]; [reflexivity |]. cbn [rev]. apply last_snoc. }
  assert (Hhead : forall l : pystr, head (rev l) = last l).
  { intros l. rewrite <- (rev_involutive l) at 2. symmetry. apply Hlast. }
  split; intros c Hc.
  - rewrite Hhead in Hc. destruct (lstrip_suffix (rev t)) as [pre Hp]. fold u in Hp.
    assert (Hlt : last (rev t) = Some c).
    { rewrite Hp. apply last_Some in Hc as [u' ->].
      rewrite app_assoc. apply last_snoc. }
    rewrite Hlast in Hlt. eapply lstrip_head, Hlt.
  - rewrite Hlast in Hc. eapply lstrip_head, Hc.
Qed.

Lemma eager_Chr p : eager p (Chr p).
Proof.
  intros c s Hp. unfold match_here. cbn [rmatch andb]. rewrite Hp. discriminate.
Qed.

Lemma never_empty_Chr p : never_empty (Chr p).
Proof. intros w H. apply matches_Chr_inv in H as (c & -> & _). discriminate. Qed.

Lemma eager_Plus p : eager p (Plus true (Chr p)).
Proof.
  intros c s Hp. unfold match_here, Plus. cbn [rmatch andb]. rewrite Hp.
  destruct (length s); [discriminate |]. cbv zeta.
  match goal with |- match ?again with _ => _ end <> None => destruct again end;
    discriminate.
Qed.

Lemma never_empty_Plus g p : never_empty (Plus g (Chr p)).
Proof.
  intros w H. apply matches_Seq_inv in H as (w1 & w2 & -> & M1 & _).
  apply matches_Chr_inv in M1 as (c & -> & _). discriminate.
Qed.

(** ** [clean_filename] *)

Lemma clean_filename_chars filename c :
  c ∈ clean_filename filename ->
  is_illegal c = false /\ (c ∈ filename \/ c = 95 \/ c = 32).
Proof.
  unfold clean_filename. cbv zeta.
  intros Hc. apply strip_chars, re_sub_chars in Hc as [Hc | Hc].
  - destruct (is_illegal c) eqn:Hill.
    + pose proof (re_sub_eager is_illegal illegal_re (py "_") filename c
                    (eager_Chr _) (never_empty_Chr _) Hc Hill) as Hu.
      apply list_elem_of_singleton in Hu. subst c. discriminate.
    + split; [reflexivity |]. apply re_sub_chars in Hc as [Hc | Hc]; [auto |].
      apply list_elem_of_singleton in Hc. auto.
  - apply list_elem_of_singleton in Hc. subst c. split; [reflexivity | auto].
Qed.

(** A cleaned name holds none of the nine characters of line 33; each of
    its characters is one of the name given, an underscore or a space; and
    it neither begins nor ends with white space. *)
Theorem clean_filename_is_clean (filename : pystr) :
  (forall c, c ∈ clean_filename filename ->
             is_illegal c = false /\ (c ∈ filename \/ c = 95 \/ c = 32))
  /\ (forall c, head (clean_filename filename) = Some c -> is_space c = false)
  /\ (forall c, last (clean_filename filename) = Some c -> is_space c = false).
Proof.
  split; [apply clean_filename_chars |].
  unfold clean_filename. cbv zeta. apply strip_ends.
Qed.

Example clean_filename_example :
  clean_filename (py "  What?  A: Show <1/2>   ") = py "What_ A_ Show _1_2_".
Proof. reflexivity. Qed.

(** ** The title of the fallback *)

Lemma residual_title_clean w :
  (forall c, c ∈ residual_title w -> is_separator c = true -> c = 32)
  /\ (forall c, head (residual_title w) = Some c -> is_space c = false)
  /\ (forall c, last (residual_title w) = Some c -> is_space c = false).
Proof.
  unfold residual_title. cbv zeta. split; [| apply strip_ends].
  intros c Hc Hsep. apply strip_chars in Hc.
  pose proof (re_sub_eager is_separator separators_re (py " ") _ c
                (eager_Plus _) (never_empty_Plus _ _) Hc Hsep) as Hu.
  apply list_elem_of_singleton in Hu. exact Hu.
Qed.

Lemma unknown_title_clean :
  unknown_title <> []
  /\ (forall c, c ∈ unknown_title -> is_separator c = true -> c = 32)
  /\ (forall c, head unknown_title = Some c -> is_space c = false)
  /\ (forall c, last unknown_title = Some c -> is_space c = false).
Proof.
  change unknown_title with [85; 110; 107; 110; 111; 119; 110; 32; 84; 105; 116; 108; 101].
  split; [discriminate |]. split; [| split].
  - intros c Hc. rewrite !elem_of_cons, elem_of_nil in Hc.
    repeat destruct Hc as [Hc | Hc]; try contradiction; subst c;
      solve [reflexivity | vm_compute; discriminate].
  - intros c [= <-]. reflexivity.
  - intros c [= <-]. reflexivity.
Qed.

(** When no title+season bracket is found, the title of the record is
    never empty, holds no separator (white space, full stop, underscore,
    hyphen) but the plain space, and neither begins nor ends with white
    space. *)
Theorem fallback_title_is_clean (patterns : PatternSet) (stem : pystr) (info : pydict) :
  parse_filename patterns stem = Ok info ->
  re_search title_season_re stem = None ->
  exists title,
    info !! "标题" = Some (VStr title) /\ title <> []
    /\ (forall c, c ∈ title -> is_separator c = true -> c = 32)
    /\ (forall c, head title = Some c -> is_space c = false)
    /\ (forall c, last title = Some c -> is_space c = false).
Proof.
  intros Hparse Hnone.
  apply parse_filename_stages in Hparse
    as (info1 & w1 & info2 & w2 & info3 & w3 & info4 & S1 & S2 & S3 & S4 & S5).
  unfold title_season_stage in S1. rewrite Hnone in S1. inversion S1; subst info1 w1.
  assert (H3 : info3 !! "标题" = Some VNone).
  { rewrite (episode_stage_frame _ _ _ _ _ _ S3) by discriminate.
    apply tech_blocks_extend in S2.
    rewrite (tech_extends_other _ _ _ S2); [reflexivity | discriminate |].
    unfold tech_fields. rewrite !elem_of_cons, elem_of_nil.
    intros H. repeat destruct H as [H|H]; try contradiction; discriminate. }
  rewrite (defaults_stage_frame _ _ _ S5) by discriminate.
  unfold title_stage in S4. apply getitem_Ok in H3. rewrite H3 in S4.
  cbn [mbind result_bind is_None] in S4. inversion S4; subst info4.
  rewrite lookup_insert_eq. eexists. split; [reflexivity |].
  destruct (residual_title w3) as [| c0 t] eqn:E.
  - apply unknown_title_clean.
  - split; [discriminate |]. rewrite <- E. apply residual_title_clean.
Qed.

Lemma fallback_title_is_clean_witness :
  let stem := py "[BD] My.Show_-_Special - 07" in
  let info : pydict :=
    list_to_map
      [ ("字幕组", VNone); ("标题", VStr (py "My Show Special")); ("季数", VStr (py "1"));
        ("集数", VStr (py "07")); ("分辨率", VNone); ("视频编码", VNone);
        ("音频编码", VNone); ("字幕", VNone); ("备注", VStr (py "BD")) ] in
  parse_filename Rules.grouped stem = Ok info
  /\ re_search title_season_re stem = None
  /\ exists title,
       info !! "标题" = Some (VStr title) /\ title <> []
       /\ (forall c, c ∈ title -> is_separator c = true -> c = 32)
       /\ (forall c, head title = Some c -> is_space c = false)
       /\ (forall c, last title = Some c -> is_space c = false).
Proof.
  intros stem info.
  assert (Hp : parse_filename Rules.grouped stem = Ok info) by reflexivity.
  assert (Hn : re_search title_season_re stem = None) by reflexivity.
  split; [exact Hp |]. split; [exact Hn |].
  exact (fallback_title_is_clean Rules.grouped stem info Hp Hn).
Defined.

(** ** What the groups of a match hold *)

Lemma captured_weaken r r' added :
  (forall x, x ∈ group_bodies r -> x ∈ group_bodies r') ->
  captured r added -> captured r' added.
Proof.
  intros Hsub H. unfold captured in *. eapply Forall_impl; [exact H |].
  intros kv (body & Hin & M). eauto.
Qed.

Lemma cap_lookup_app i (a b : caps) :
  is_Some (cap_lookup i a) \/ is_Some (cap_lookup i b) -> is_Some (cap_lookup i (a ++ b)).
Proof.
  induction a as [| [j w] a IH]; cbn [app cap_lookup].
  - intros [[x H] | H]; [discriminate | exact H].
  - destruct (Nat.eqb i j); [eauto | exact IH].
Qed.

Lemma cap_lookup_elem i (a : caps) w : cap_lookup i a = Some w -> (i, w) ∈ a.
Proof.
  induction a as [| [j v] a IH]; cbn [cap_lookup]; [discriminate |].
  destruct (Nat.eqb_spec i j) as [-> | Hne].
  - intros [= ->]. left.
  - intros H. right. apply IH, H.
Qed.

(** The matcher hands on the groups it had, with the groups of the
    pattern in front: each a word of its body, the sure ones all there. *)
Lemma rmatch_captures {A : Type} (r : regex) :
  forall (s : pystr) (c : caps) (k : pystr -> caps -> option A) (a : A),
    rmatch r s c k = Some a ->
    exists w s' added,
      s = w ++ s' /\ matches r w /\ k s' (added ++ c) = Some a /\
      captured r added /\
      (forall i, i ∈ sure_groups r -> is_Some (cap_lookup i added)).
Proof.
  induction r as [| p | r1 IH1 r2 IH2 | r1 IH1 r2 IH2 | g r1 IH1 | i r1 IH1];
    intros s c k a H; cbn [rmatch] in H.
  - exists [], s, []. repeat split; [constructor | exact H | constructor |].
    intros i Hi. inversion Hi.
  - destruct s as [| x s']; [discriminate |].
    destruct (p x) eqn:Hp; [| discriminate].
    exists [x], s', []. repeat split; [constructor; exact Hp | exact H | constructor |].
    intros i Hi. inversion Hi.
  - apply IH1 in H as (w1 & s1 & a1 & -> & M1 & H & C1 & S1).
    apply IH2 in H as (w2 & s2 & a2 & -> & M2 & H & C2 & S2).
    exists (w1 ++ w2), s2, (a2 ++ a1). rewrite <- !app_assoc.
    repeat split; [constructor; assumption | exact H | |].
    + apply Forall_app. split.
      * eapply captured_weaken; [| exact C2]. cbn [group_bodies]. intros x Hx.
        apply elem_of_app. auto.
      * eapply captured_weaken; [| exact C1]. cbn [group_bodies]. intros x Hx.
        apply elem_of_app. auto.
    + cbn [sure_groups]. intros i Hi. apply elem_of_app in Hi.
      apply cap_lookup_app. destruct Hi; auto.
  - destruct (rmatch r1 s c k) as [a1|] eqn:E1.
    + inversion H; subst a1. apply IH1 in E1 as (w & s' & ad & -> & M & Hk & C & _).
      exists w, s', ad. repeat split; [apply matches_Alt_l, M | exact Hk | |].
      * eapply captured_weaken; [| exact C]. cbn [group_bodies]. intros x Hx.
        apply elem_of_app. auto.
      * intros i Hi. inversion Hi.
    + apply IH2 in H as (w & s' & ad & -> & M & Hk & C & _).
      exists w, s', ad. repeat split; [apply matches_Alt_r, M | exact Hk | |].
      * eapply captured_weaken; [| exact C]. cbn [group_bodies]. intros x Hx.
        apply elem_of_app. auto.
      * intros i Hi. inversion Hi.
  - match type of H with
    | ?loop (length s) s c = _ => set (L := loop) in H
    end.
    assert (L0 : forall s c, L O s c = k s c) by reflexivity.
    assert (LS : forall fuel s c,
               L (S fuel) s c =
               if g then
                 match rmatch r1 s c (fun s' c' =>
                         if (length s' <? length s)%nat then L fuel s' c' else None) with
                 | Some a => Some a
                 | None => k s c
                 end
               else
                 match k s c with
                 | Some a => Some a
                 | None => rmatch r1 s c (fun s' c' =>
                             if (length s' <? length s)%nat then L fuel s' c' else None)
                 end) by reflexivity.
    clearbody L.
    assert (Hloop : forall fuel s c a,
               L fuel s c = Some a ->
               exists w s' added,
                 s = w ++ s' /\ matches (Star g r1) w /\ k s' (added ++ c) = Some a /\
                 captured (Star g r1) added).
    { clear H. induction fuel as [| fuel IHf]; intros s0 c0 a0 H.
      - rewrite L0 in H. exists [], s0, [].
        repeat split; [constructor | exact H | constructor].
      - rewrite LS in H.
        assert (Hagain :
                  forall b,
                    rmatch r1 s0 c0 (fun s' c' =>
                      if (length s' <? length s0)%nat then L fuel s' c' else None) = Some b ->
                    exists w s' added,
                      s0 = w ++ s' /\ matches (Star g r1) w /\
                      k s' (added ++ c0) = Some b /\ captured (Star g r1) added).
        { intros b Hb. apply IH1 in Hb as (w1 & s1 & a1 & -> & M1 & Hb & C1 & _).
          destruct (_ <? _)%nat; [| discriminate].
          apply IHf in Hb as (w2 & s2 & a2 & -> & M2 & Hb & C2).
          exists (w1 ++ w2), s2, (a2 ++ a1). rewrite <- !app_assoc.
          repeat split; [constructor; assumption | exact Hb |].
          apply Forall_app. split; [exact C2 | exact C1]. }
        destruct g.
        + remember (rmatch r1 s0 c0 _) as again eqn:E in H. symmetry in E.
          destruct again as [b|].
          * inversion H; subst b. apply Hagain, E.
          * exists [], s0, []. repeat split; [constructor | exact H | constructor].
        + destruct (k s0 c0) as [b|] eqn:Ek.
          * inversion H; subst b. exists [], s0, [].
            repeat split; [constructor | exact Ek | constructor].
          * apply Hagain, H. }
    apply Hloop in H as (w & s' & added & -> & M & Hk & C).
    exists w, s', added. repeat split; try assumption.
    intros i Hi. inversion Hi.
  - apply IH1 in H as (w & s' & a1 & -> & M & H & C & S1).
    rewrite length_app in H.
    replace (length w + length s' - length s')%nat with (length w) in H by lia.
    rewrite take_app_length in H.
    exists w, s', ((i, w) :: a1). repeat split; [constructor; exact M | exact H | |].
    + constructor.
      * exists r1. split; [left | exact M].
      * eapply captured_weaken; [| exact C]. cbn [group_bodies]. intros x Hx.
        right. exact Hx.
    + cbn [sure_groups]. intros j Hj. cbn [cap_lookup].
      destruct (Nat.eqb_spec j i) as [-> | Hne]; [eauto |].
      apply elem_of_cons in Hj as [-> | Hj]; [contradiction | apply S1, Hj].
Qed.

Lemma sure_groups_le r i : i ∈ sure_groups r -> (i <= ngroups r)%nat.
Proof.
  induction r as [| p | r1 IH1 r2 IH2 | r1 IH1 r2 IH2 | g r1 IH1 | j r1 IH1];
    cbn [sure_groups ngroups]; intros H; try (inversion H; fail).
  - apply elem_of_app in H as [H | H]; [apply IH1 in H | apply IH2 in H]; lia.
  - apply elem_of_cons in H as [-> | H]; [| apply IH1 in H]; lia.
Qed.

Lemma search_from_captures r :
  forall s advance pre m,
    search_from r advance pre s = Some m ->
    exists added,
      m_groups m = map (fun i => cap_lookup i added) (seq 1 (ngroups r)) /\
      captured r added /\
      (forall i, i ∈ sure_groups r -> is_Some (cap_lookup i added)).
Proof.
  assert (Hhere : forall advance s s' c,
             match_here r advance s = Some (s', c) ->
             captured r c /\ (forall i, i ∈ sure_groups r -> is_Some (cap_lookup i c))).
  { intros advance s s' c E. unfold match_here in E.
    apply rmatch_captures in E as (w & s1 & added & _ & _ & Hk & C & S1).
    destruct (_ && _); [discriminate |]. inversion Hk; subst.
    rewrite app_nil_r. auto. }
  induction s as [| x s IH]; intros advance pre m H; cbn [search_from] in H.
  - destruct (match_here r advance []) as [[s' c]|] eqn:E; [| discriminate].
    inversion H; subst m. exists c. split; [reflexivity | eapply Hhere, E].
  - destruct (match_here r advance (x :: s)) as [[s' c]|] eqn:E.
    + inversion H; subst m. exists c. split; [reflexivity | eapply Hhere, E].
    + eapply IH, H.
Qed.

Lemma lookup_map_seq {B : Type} (f : nat -> B) N :
  forall start n, (n < N)%nat -> map f (seq start N) !! n = Some (f (start + n)%nat).
Proof.
  induction N as [| N IH]; intros start n Hn; [lia |].
  cbn [seq map]. destruct n as [| n].
  - rewrite Nat.add_0_r. reflexivity.
  - cbn [lookup list_lookup]. rewrite IH by lia. f_equal. f_equal. lia.
Qed.

(** A sure group of a match holds a word of its body. *)
Lemma group_of_sure r s advance pre m n :
  search_from r advance pre s = Some m ->
  S n ∈ sure_groups r ->
  exists w body,
    group m (S n) = Ok (VStr w) /\ (S n, body) ∈ group_bodies r /\ matches body w.
Proof.
  intros H Hn. apply search_from_captures in H as (added & Hg & C & Hs).
  destruct (Hs _ Hn) as [w Hw]. pose proof (sure_groups_le _ _ Hn) as Hle.
  unfold captured in C. rewrite Forall_forall in C.
  destruct (C _ (cap_lookup_elem _ _ _ Hw)) as (body & Hin & M).
  exists w, body. split; [| auto]. unfold group. rewrite Hg.
  rewrite lookup_map_seq by lia. cbn [Nat.add]. rewrite Hw. reflexivity.
Qed.

Lemma scan_Forall r (P : re_match -> Prop) :
  (forall advance s m, search_from r advance [] s = Some m -> P m) ->
  forall fuel advance s ms tl, scan fuel r advance s = (ms, tl) -> Forall P ms.
Proof.
  intros HP. induction fuel as [| fuel IH]; intros advance s ms tl H; cbn [scan] in H.
  - inversion H. constructor.
  - destruct (search_from r advance [] s) as [m|] eqn:E.
    + destruct (scan fuel r _ (m_post m)) as [ms' tl'] eqn:E'.
      inversion H; subst. constructor; [eapply HP, E | eapply IH, E'].
    + inversion H. constructor.
Qed.

(** The matcher captures nothing longer than its text. *)
Lemma rmatch_caps_short {A : Type} (N : nat) (r : regex) :
  forall (s : pystr) (c : caps) (k : pystr -> caps -> option A) (a : A),
    rmatch r s c k = Some a ->
    (length s <= N)%nat -> Forall (fun kv => (length kv.2 <= N)%nat) c ->
    exists s' c',
      k s' c' = Some a /\ (length s' <= length s)%nat /\
      Forall (fun kv => (length kv.2 <= N)%nat) c'.
Proof.
  induction r as [| p | r1 IH1 r2 IH2 | r1 IH1 r2 IH2 | g r1 IH1 | i r1 IH1];
    intros s c k a H Hs Hc; cbn [rmatch] in H.
  - exists s, c. auto.
  - destruct s as [| x s']; [discriminate |].
    destruct (p x); [| discriminate]. exists s', c. cbn [length]. auto.
  - apply IH1 in H as (s1 & c1 & H & L1 & C1); [| exact Hs | exact Hc].
    apply IH2 in H as (s2 & c2 & H & L2 & C2); [| lia | exact C1].
    exists s2, c2. split; [exact H |]. split; [lia | exact C2].
  - destruct (rmatch r1 s c k) as [a1|] eqn:E1.
    + inversion H; subst a1. apply IH1 in E1; auto.
    + apply IH2 in H; auto.
  - match type of H with
    | ?loop (length s) s c = _ => set (L := loop) in H
    end.
    assert (L0 : forall s c, L O s c = k s c) by reflexivity.
    assert (LS : forall fuel s c,
               L (S fuel) s c =
               if g then
                 match rmatch r1 s c (fun s' c' =>
                         if (length s' <? length s)%nat then L fuel s' c' else None) with
                 | Some a => Some a
                 | None => k s c
                 end
               else
                 match k s c with
                 | Some a => Some a
                 | None => rmatch r1 s c (fun s' c' =>
                             if (length s' <? length s)%nat then L fuel s' c' else None)
                 end) by reflexivity.
    clearbody L.
    assert (Hloop : forall fuel s c a,
               L fuel s c = Some a ->
               (length s <= N)%nat -> Forall (fun kv => (length kv.2 <= N)%nat) c ->
               exists s' c',
                 k s' c' = Some a /\ (length s' <= length s)%nat /\
                 Forall (fun kv => (length kv.2 <= N)%nat) c').
    { clear H Hs Hc. induction fuel as [| fuel IHf]; intros s0 c0 a0 H Hs Hc.
      - rewrite L0 in H. exists s0, c0. auto.
      - rewrite LS in H.
        assert (Hagain :
                  forall b,
                    rmatch r1 s0 c0 (fun s' c' =>
                      if (length s' <? length s0)%nat then L fuel s' c' else None) = Some b ->
                    exists s' c',
                      k s' c' = Some b /\ (length s' <= length s0)%nat /\
                      Forall (fun kv => (length kv.2 <= N)%nat) c').
        { intros b Hb. apply IH1 in Hb as (s1 & c1 & Hb & L1 & C1); [| exact Hs | exact Hc].
          destruct (_ <? _)%nat; [| discriminate].
          apply IHf in Hb as (s2 & c2 & Hb & L2 & C2); [| lia | exact C1].
          exists s2, c2. split; [exact Hb |]. split; [lia | exact C2]. }
        destruct g.
        + remember (rmatch r1 s0 c0 _) as again eqn:E in H. symmetry in E.
          destruct again as [b|].
          * inversion H; subst b. apply Hagain, E.
          * exists s0, c0. auto.
        + destruct (k s0 c0) as [b|] eqn:Ek.
          * inversion H; subst b. exists s0, c0. auto.
          * apply Hagain, H. }
    eapply Hloop; eauto.
  - apply IH1 in H as (s' & c' & H & L & C); [| exact Hs | exact Hc].
    eexists s', _. split; [exact H |]. split; [exact L |].
    constructor; [| exact C]. cbn [snd]. rewrite length_take. lia.
Qed.

Lemma search_from_groups_short r :
  forall s advance pre m,
    search_from r advance pre s = Some m ->
    forall N, (length s <= N)%nat ->
      Forall (fun g => match g with
                       | Some w => (length w <= N)%nat
                       | None => True
                       end) (m_groups m).
Proof.
  assert (Hhere : forall advance s s' c N,
             match_here r advance s = Some (s', c) -> (length s <= N)%nat ->
             Forall (fun g => match g with
                              | Some w => (length w <= N)%nat
                              | None => True
                              end)
                    (map (fun i => cap_lookup i c) (seq 1 (ngroups r)))).
  { intros advance s s' c N E HN. unfold match_here in E.
    apply (rmatch_caps_short N) in E as (s1 & c1 & Hk & _ & C); [| exact HN | constructor].
    destruct (_ && _); [discriminate |]. inversion Hk; subst s1 c1.
    apply List.Forall_map. apply Forall_forall. intros i _.
    destruct (cap_lookup i c) as [w|] eqn:Ew; [| exact I].
    apply cap_lookup_elem in Ew. rewrite Forall_forall in C. apply (C (i, w) Ew). }
  induction s as [| x s IH]; intros advance pre m H N HN; cbn [search_from] in H.
  - destruct (match_here r advance []) as [[s' c]|] eqn:E; [| discriminate].
    inversion H; subst m. cbn [m_groups]. eapply Hhere; eauto.
  - destruct (match_here r advance (x :: s)) as [[s' c]|] eqn:E.
    + inversion H; subst m. cbn [m_groups]. eapply Hhere; eauto.
    + eapply IH; [exact H |]. cbn [length] in HN. lia.
Qed.

(** A group of a match is no longer than the text searched. *)
Lemma group_short r s advance pre m n w :
  search_from r advance pre s = Some m ->
  group m (S n) = Ok (VStr w) -> (length w <= length s)%nat.
Proof.
  intros H G. pose proof (search_from_groups_short _ _ _ _ _ H (length s) (le_n _)) as F.
  unfold group in G. destruct (m_groups m !! n) as [[x|]|] eqn:E; inversion G; subst x.
  apply (Forall_lookup_1 _ _ _ _ F E).
Qed.

(** ** What [int] accepts *)

Lemma N_below_10 k : k < 10 -> In k [0; 1; 2; 3; 4; 5; 6; 7; 8; 9].
Proof. intros H. simpl. lia. Qed.

(** A decimal digit is no white space and no sign. *)
Lemma digit_facts c : is_digit c = true -> is_space c = false /\ c <> 45 /\ c <> 43.
Proof.
  unfold is_digit, decimal_value.
  destruct (List.find _ nd_zeros) as [z|] eqn:E; [| discriminate]. intros _.
  apply find_some in E as [Hin Hr]. apply andb_true_iff in Hr as [Hlo Hhi].
  apply N.leb_le in Hlo. apply N.ltb_lt in Hhi.
  assert (All : forallb (fun z =>
                  forallb (fun k => negb (is_space (z + k)) && negb (z + k =? 45)
                                    && negb (z + k =? 43))
                          [0; 1; 2; 3; 4; 5; 6; 7; 8; 9]) nd_zeros = true)
    by (vm_compute; reflexivity).
  rewrite forallb_forall in All. specialize (All z Hin).
  assert (Hk : c - z < 10) by lia.
  rewrite forallb_forall in All. specialize (All (c - z) (N_below_10 _ Hk)).
  replace (z + (c - z)) with c in All by lia.
  apply andb_true_iff in All as [All H43]. apply andb_true_iff in All as [Hsp H45].
  apply negb_true_iff in Hsp, H45, H43. apply N.eqb_neq in H45, H43. auto.
Qed.

Lemma digits_value_total w :
  Forall (fun c => is_digit c = true) w ->
  forall acc b, w <> [] \/ b = true -> exists n, digits_value acc b w = Some n.
Proof.
  induction 1 as [| c w Hc _ IH]; intros acc b Hb; cbn [digits_value].
  - destruct Hb as [Hb | ->]; [contradiction | eauto].
  - unfold is_digit in Hc. destruct (decimal_value c) as [d|]; [| discriminate].
    apply IH. auto.
Qed.

Lemma lstrip_id w :
  (forall c, head w = Some c -> is_space c = false) -> lstrip w = w.
Proof.
  destruct w as [| x w]; [reflexivity |]. intros H. cbn [lstrip].
  rewrite (H x eq_refl). reflexivity.
Qed.

Lemma strip_id w :
  (forall c, head w = Some c -> is_space c = false) ->
  (forall c, last w = Some c -> is_space c = false) ->
  strip w = w.
Proof.
  intros Hh Hl. unfold strip. rewrite (lstrip_id w Hh). rewrite lstrip_id.
  - apply rev_involutive.
  - intros c Hc. apply Hl. rewrite <- Hc.
    rewrite <- (rev_involutive w) at 1.
    destruct (rev w) as [| x l]; [reflexivity |]. cbn [rev head]. apply last_snoc.
Qed.

Lemma unsigned_body (d : N) (rest : pystr) :
  d <> 45 -> d <> 43 ->
  match d :: rest with
  | 45 :: t => (true, t)
  | 43 :: t => (false, t)
  | _ => (false, d :: rest)
  end = (false, d :: rest).
Proof.
  intros H45 H43. destruct d as [| p]; [reflexivity |].
  do 6 (destruct p as [p | p |]; try reflexivity); congruence.
Qed.

Lemma lstrip_int_id w :
  (forall c, head w = Some c -> is_int_space c = false) -> lstrip_int w = w.
Proof.
  destruct w as [| x w]; [reflexivity |]. intros H. cbn [lstrip_int].
  rewrite (H x eq_refl). reflexivity.
Qed.

Lemma strip_int_id w :
  (forall c, head w = Some c -> is_int_space c = false) ->
  (forall c, last w = Some c -> is_int_space c = false) ->
  strip_int w = w.
Proof.
  intros Hh Hl. unfold strip_int. rewrite (lstrip_int_id w Hh). rewrite lstrip_int_id.
  - apply rev_involutive.
  - intros c Hc. apply Hl. rewrite <- Hc.
    rewrite <- (rev_involutive w) at 1.
    destruct (rev w) as [| x l]; [reflexivity |]. cbn [rev head]. apply last_snoc.
Qed.

Lemma filter_digits w :
  Forall (fun c => is_digit c = true) w -> List.filter is_digit w = w.
Proof.
  induction 1 as [| c w Hc _ IH]; [reflexivity |].
  cbn [List.filter]. rewrite Hc, IH. reflexivity.
Qed.

(** [int] reads every non-empty run of decimal digits that is short
    enough. *)
Lemma py_int_digits w :
  w <> [] -> Forall (fun c => is_digit c = true) w -> short_enough w ->
  exists z, py_int (VStr w) = Ok z.
Proof.
  intros Hne Hall Hshort. unfold py_int.
  assert (Hmem : forall c, c ∈ w -> is_int_space c = false /\ c <> 45 /\ c <> 43).
  { intros c Hc. rewrite Forall_forall in Hall.
    destruct (digit_facts c (Hall c Hc)) as (Hsp & H45 & H43).
    unfold is_int_space. rewrite Hsp. auto. }
  rewrite strip_int_id.
  - destruct w as [| d rest]; [contradiction |].
    destruct (Hmem d ltac:(left)) as (_ & H45 & H43).
    rewrite (unsigned_body d rest H45 H43).
    rewrite (filter_digits _ Hall).
    destruct (N.ltb_spec int_max_str_digits (N.of_nat (length (d :: rest)))) as [Hlong |];
      [unfold short_enough in Hshort; lia |].
    destruct (digits_value_total _ Hall 0 false ltac:(left; discriminate)) as [n ->].
    eauto.
  - intros c Hc. apply Hmem. apply head_Some in Hc as [l ->]. left.
  - intros c Hc. apply Hmem. apply last_Some in Hc as [l ->].
    apply elem_of_app. right. left.
Qed.

Lemma matches_Star_Chr g p w :
  matches (Star g (Chr p)) w -> Forall (fun c => p c = true) w.
Proof.
  intros H. remember (Star g (Chr p)) as r eqn:Er.
  induction H as [| | | | | | g' r' w1 w2 M1 _ M2 IH |]; try discriminate.
  - constructor.
  - inversion Er; subst. apply matches_Chr_inv in M1 as (c & -> & Hc).
    constructor; [exact Hc | apply IH; reflexivity].
Qed.

Lemma matches_Plus_Chr g p w :
  matches (Plus g (Chr p)) w -> w <> [] /\ Forall (fun c => p c = true) w.
Proof.
  intros H. apply matches_Seq_inv in H as (w1 & w2 & -> & M1 & M2).
  apply matches_Chr_inv in M1 as (c & -> & Hc). split; [discriminate |].
  constructor; [exact Hc | eapply matches_Star_Chr, M2].
Qed.

(** [int] refuses a run of more than 4300 digits. *)
Lemma py_int_long_digits w :
  Forall (fun c => is_digit c = true) w ->
  int_max_str_digits < N.of_nat (length w) ->
  py_int (VStr w) = Raise ValueError.
Proof.
  intros Hall Hlong. unfold py_int.
  assert (Hmem : forall c, c ∈ w -> is_int_space c = false /\ c <> 45 /\ c <> 43).
  { intros c Hc. rewrite Forall_forall in Hall.
    destruct (digit_facts c (Hall c Hc)) as (Hsp & H45 & H43).
    unfold is_int_space. rewrite Hsp. auto. }
  rewrite strip_int_id.
  - destruct w as [| d rest]; [cbn in Hlong; unfold int_max_str_digits in Hlong; lia |].
    destruct (Hmem d ltac:(left)) as (_ & H45 & H43).
    rewrite (unsigned_body d rest H45 H43).
    rewrite (filter_digits _ Hall).
    destruct (N.ltb_spec int_max_str_digits (N.of_nat (length (d :: rest))));
      [reflexivity | lia].
  - intros c Hc. apply Hmem. apply head_Some in Hc as [l ->]. left.
  - intros c Hc. apply Hmem. apply last_Some in Hc as [l ->].
    apply elem_of_app. right. left.
Qed.

(** In a text that is short enough, a sure group whose one body is
    [\d+] holds what [int] accepts. *)
Lemma int_group_of_digits r s advance pre m n :
  short_enough s ->
  search_from r advance pre s = Some m ->
  S n ∈ sure_groups r ->
  (forall body, (S n, body) ∈ group_bodies r -> body = Plus true digit) ->
  int_group m (S n).
Proof.
  intros Hshort H Hn Hbody.
  destruct (group_of_sure _ _ _ _ _ _ H Hn) as (w & body & G & Hin & M).
  rewrite (Hbody _ Hin) in M. apply matches_Plus_Chr in M as [Hne Hall].
  pose proof (group_short _ _ _ _ _ _ _ H G) as Hlen.
  destruct (py_int_digits w Hne Hall) as [z Hz].
  { unfold short_enough in *. lia. }
  exists (VStr w), z. auto.
Qed.

(** ** When [parse_filename] returns *)

Lemma str_keys_not_remarks k : k ∈ str_keys -> k <> "备注".
Proof.
  unfold str_keys. rewrite !elem_of_cons, elem_of_nil.
  intros H. repeat destruct H as [H|H]; try contradiction; subst; discriminate.
Qed.

Lemma tech_fields_str_keys k : k ∈ tech_fields -> k ∈ str_keys.
Proof. unfold tech_fields, str_keys. rewrite !elem_of_cons, !elem_of_nil. tauto. Qed.

Lemma working_record_init : working_record info_init.
Proof.
  split.
  - unfold str_keys. intros k. rewrite !elem_of_cons, elem_of_nil.
    intros H. repeat destruct H as [H|H]; try contradiction; subst k;
      (exists VNone; split; [reflexivity | left; reflexivity]).
  - exists []. reflexivity.
Qed.

Lemma working_record_insert info k s :
  working_record info -> k ∈ str_keys -> working_record (<[k := VStr s]> info).
Proof.
  intros [Hk [l Hl]] Hin. split.
  - intros k' Hk'. destruct (decide (k = k')) as [<- | Hne].
    + exists (VStr s). rewrite lookup_insert_eq. split; [reflexivity | right; eauto].
    + rewrite lookup_insert_ne by exact Hne. apply Hk, Hk'.
  - exists l. rewrite lookup_insert_ne; [exact Hl | apply str_keys_not_remarks, Hin].
Qed.

Lemma working_record_append info l s :
  working_record info -> info !! "备注" = Some (VList l) ->
  working_record (<["备注" := VList (l ++ [VStr s])]> info).
Proof.
  intros [Hk [l0 Hl0]] Hl. split.
  - intros k Hin. rewrite lookup_insert_ne; [apply Hk, Hin |].
    intros <-. exact (str_keys_not_remarks _ Hin eq_refl).
  - exists (l0 ++ [s]). rewrite lookup_insert_eq. rewrite Hl0 in Hl.
    inversion Hl; subst l. rewrite fmap_app. reflexivity.
Qed.

Lemma working_record_getitem info k :
  working_record info -> k ∈ str_keys ->
  exists v, getitem info k = Ok v /\ str_or_none v.
Proof.
  intros [Hk _] Hin. destruct (Hk k Hin) as (v & Hv & Hs).
  exists v. split; [apply getitem_Ok, Hv | exact Hs].
Qed.

Lemma title_season_stage_total info w :
  working_record info ->
  exists info' w', title_season_stage info w = Ok (info', w') /\ working_record info'.
Proof.
  intros Hw. unfold title_season_stage, re_search.
  destruct (search_from title_season_re false [] w) as [m|] eqn:E; [| eauto].
  assert (Hs : sure_groups title_season_re = [1; 2]%nat) by reflexivity.
  destruct (group_of_sure _ _ _ _ _ 0 E) as (t & _ & G1 & _);
    [rewrite Hs; left |].
  destruct (group_of_sure _ _ _ _ _ 1 E) as (se & _ & G2 & _);
    [rewrite Hs; right; left |].
  rewrite G1, G2. cbn [mbind result_bind str_strip]. eexists _, _.
  split; [reflexivity |].
  apply working_record_insert; [apply working_record_insert; [exact Hw |] |];
    unfold str_keys; rewrite !elem_of_cons; tauto.
Qed.

Lemma strip_value_total g text :
  str_or_none g -> exists v, str_strip (py_or g (VStr text)) = Ok (VStr v).
Proof.
  intros [-> | [s ->]]; unfold py_or; cbn [truthy].
  - eexists. reflexivity.
  - destruct s; eexists; reflexivity.
Qed.

Lemma group_1_total m :
  m_groups m <> [] -> exists g, group m 1 = Ok g /\ str_or_none g.
Proof.
  unfold group. destruct (m_groups m) as [| [s|] rest]; [contradiction | |]; intros _.
  - exists (VStr s). split; [reflexivity | right; eauto].
  - exists VNone. split; [reflexivity | left; reflexivity].
Qed.

Lemma try_keys_total patterns keys content :
  (forall key field p,
      (key, field) ∈ keys -> patterns !! key = Some p -> pat_falsy p = false ->
      tech_rule_ok p) ->
  Forall tech_entry keys ->
  forall info,
    working_record info ->
    exists info' b,
      try_keys patterns keys content info = Ok (info', b) /\ working_record info'.
Proof.
  intros Hrules Hent. induction Hent as [| [key field] keys Hkf _ IH]; intros info Hw.
  - exists info, false. auto.
  - assert (IH' : exists info' b,
               try_keys patterns keys content info = Ok (info', b) /\ working_record info').
    { apply IH; [| exact Hw]. intros k f p Hin. apply (Hrules k f p). right. exact Hin. }
    cbn [try_keys]. destruct (patterns !! key) as [p|] eqn:Hp; [| exact IH'].
    destruct (pat_falsy p) eqn:Hf; [exact IH' |].
    pose proof (Hrules key field p ltac:(left) Hp Hf content) as Hok.
    destruct (pat_search p content) as [[m|]|e]; [| exact IH' | contradiction].
    cbn [mbind result_bind].
    destruct (group_1_total m Hok) as (g & -> & Hg). cbn [mbind result_bind].
    destruct (strip_value_total g (m_text m) Hg) as [v ->]. cbn [mbind result_bind].
    destruct Hkf as [Hsrc | [Hsrc Hfield]]; cbn [fst snd] in *.
    + subst key. cbn [String.eqb Ascii.eqb Bool.eqb]. unfold remarks_append.
      destruct Hw as [Hk [l Hl]]. unfold getitem. rewrite Hl. cbn [mbind result_bind].
      eexists _, _. split; [reflexivity |].
      apply working_record_append; [split; eauto | exact Hl].
    + apply String.eqb_neq in Hsrc. rewrite Hsrc.
      destruct (working_record_getitem info field Hw (tech_fields_str_keys _ Hfield))
        as (cur & -> & Hcur).
      cbn [mbind result_bind]. eexists _, _. split; [reflexivity |].
      destruct (is_None cur); [| exact Hw].
      apply working_record_insert; [exact Hw | apply tech_fields_str_keys, Hfield].
Qed.

Lemma tech_block_total patterns info temp block content :
  (forall key field p,
      (key, field) ∈ tech_keys -> patterns !! key = Some p -> pat_falsy p = false ->
      tech_rule_ok p) ->
  working_record info ->
  group block 1 = Ok (VStr content) ->
  exists info' w',
    tech_block patterns (info, temp) block = Ok (info', w') /\ working_record info'.
Proof.
  intros Hrules Hw G. unfold tech_block. rewrite G. cbn [mbind result_bind].
  destruct (try_keys_total patterns tech_keys content Hrules tech_keys_entries info Hw)
    as (info1 & b & -> & Hw1).
  cbn [mbind result_bind]. eauto.
Qed.

Lemma tech_stage_total patterns info w :
  (forall key field p,
      (key, field) ∈ tech_keys -> patterns !! key = Some p -> pat_falsy p = false ->
      tech_rule_ok p) ->
  working_record info ->
  exists info' w', tech_stage patterns info w = Ok (info', w') /\ working_record info'.
Proof.
  intros Hrules Hw. unfold tech_stage, re_finditer, scan_all.
  destruct (scan _ bracket_re false w) as [blocks tl] eqn:E. cbn [fst].
  assert (Hb : Forall (fun m => exists content, group m 1 = Ok (VStr content)) blocks).
  { eapply scan_Forall; [| exact E]. intros advance s m Hm.
    destruct (group_of_sure _ _ _ _ _ 0 Hm) as (c & _ & G & _); [left | eauto]. }
  clear E. generalize w at 1. revert info Hw.
  induction Hb as [| block blocks [content G] _ IH]; intros info Hw temp; cbn [for_each].
  - eauto.
  - destruct (tech_block_total patterns info temp block content Hrules Hw G)
      as (info1 & w1 & -> & Hw1).
    cbn [mbind result_bind]. apply IH, Hw1.
Qed.

Lemma replace_first_length old s : (length (replace_first old [] s) <= length s)%nat.
Proof.
  induction s as [| c t IH]; cbn [replace_first].
  - destruct (starts_with old []); [| reflexivity].
    cbn [app]. rewrite length_drop. lia.
  - destruct (starts_with old (c :: t)).
    + cbn [app]. rewrite length_drop. lia.
    + cbn [length]. lia.
Qed.

Lemma title_season_stage_length info w info' w' :
  title_season_stage info w = Ok (info', w') -> (length w' <= length w)%nat.
Proof.
  unfold title_season_stage. destruct (re_search title_season_re w) as [m|].
  - intros H. bind_inv H as g1 Hg1. bind_inv H as t Ht. bind_inv H as g2 Hg2.
    bind_inv H as se Hse. injection H as _ <-. apply replace_first_length.
  - intros [= _ <-]. reflexivity.
Qed.

Lemma tech_stage_length patterns info w info' w' :
  tech_stage patterns info w = Ok (info', w') -> (length w' <= length w)%nat.
Proof.
  unfold tech_stage. generalize (re_finditer bracket_re w). intros blocks.
  revert info w.
  induction blocks as [| block blocks IH]; intros info temp H; cbn [for_each] in H.
  - injection H as _ <-. reflexivity.
  - bind_inv H as st1 Hst1. destruct st1 as [info1 temp1].
    apply IH in H. etrans; [exact H |]. unfold tech_block in Hst1.
    bind_inv Hst1 as content Hcontent. destruct content; try discriminate.
    bind_inv Hst1 as r Hr. destruct r as [info2 matched]. injection Hst1 as _ <-.
    destruct matched; [apply replace_first_length | reflexivity].
Qed.

Lemma episode_stage_total patterns info w :
  (exists p, patterns !! "season_episode" = Some p /\ season_episode_rule_ok p) ->
  (exists p, patterns !! "episode" = Some p /\ episode_rule_ok p) ->
  short_enough w ->
  working_record info ->
  exists info' w', episode_stage patterns info w = Ok (info', w') /\ working_record info'.
Proof.
  intros (pse & Hpse & Hse) (pep & Hpep & Hep) Hshort Hw.
  specialize (Hse w Hshort). specialize (Hep w Hshort).
  unfold episode_stage, rule_or_empty.
  assert (Kep : "集数" ∈ str_keys) by (unfold str_keys; rewrite !elem_of_cons; tauto).
  assert (Kse : "季数" ∈ str_keys) by (unfold str_keys; rewrite !elem_of_cons; tauto).
  destruct (working_record_getitem info _ Hw Kep) as (ep & -> & _).
  cbn [mbind result_bind]. destruct (is_None ep); [| eauto].
  rewrite Hpse, Hpep. change (default empty_pattern (Some pse)) with pse.
  change (default empty_pattern (Some pep)) with pep.
  destruct (pat_search pse w) as [[m|]|e]; [| | contradiction]; cbn [mbind result_bind].
  - destruct Hse as [(g1 & z1 & G1 & Z1) (g2 & z2 & G2 & Z2)].
    destruct (working_record_getitem info _ Hw Kse) as (cur & -> & _).
    cbn [mbind result_bind].
    destruct (is_None cur);
      repeat (first [rewrite G1 | rewrite G2 | rewrite Z1 | rewrite Z2];
              cbn [mbind result_bind]);
      eexists _, _; (split; [reflexivity |]);
      repeat apply working_record_insert; assumption.
  - destruct (pat_search pep w) as [[m|]|e]; [| eauto | contradiction].
    cbn [mbind result_bind]. destruct Hep as (g1 & z1 & -> & Z1).
    cbn [mbind result_bind]. rewrite Z1. cbn [mbind result_bind].
    eexists _, _. split; [reflexivity |]. apply working_record_insert; assumption.
Qed.

Lemma title_stage_total info w :
  working_record info -> exists info', title_stage info w = Ok info' /\ working_record info'.
Proof.
  intros Hw. unfold title_stage.
  assert (Kt : "标题" ∈ str_keys) by (unfold str_keys; rewrite !elem_of_cons; tauto).
  destruct (working_record_getitem info _ Hw Kt) as (cur & -> & _).
  cbn [mbind result_bind]. destruct (is_None cur); [| eauto].
  eexists. split; [reflexivity |]. apply working_record_insert; assumption.
Qed.

Lemma str_items_strs (l : list pystr) : str_items (VStr <$> l) = Ok l.
Proof.
  induction l as [| s l IH]; [reflexivity |].
  cbn [fmap list_fmap str_items]. change (list_fmap _ _ VStr l) with (VStr <$> l).
  rewrite IH. reflexivity.
Qed.

Lemma defaults_stage_total info :
  working_record info -> exists info', defaults_stage info = Ok info'.
Proof.
  intros Hw. unfold defaults_stage.
  assert (Kse : "季数" ∈ str_keys) by (unfold str_keys; rewrite !elem_of_cons; tauto).
  destruct (working_record_getitem info _ Hw Kse) as (cur & -> & _).
  cbn [mbind result_bind].
  assert (Hw' : working_record
                  (if is_None cur then <["季数" := VStr (py "1")]> info else info)).
  { destruct (is_None cur); [apply working_record_insert |]; assumption. }
  destruct Hw' as [_ [l Hl]]. unfold getitem. rewrite Hl. cbn [mbind result_bind].
  rewrite str_items_strs. cbn [mbind result_bind]. eauto.
Qed.

Lemma parse_filename_total patterns stem :
  rules_ok patterns -> short_enough stem ->
  exists info, parse_filename patterns stem = Ok info.
Proof.
  intros (Htech & Hse & Hep) Hshort. unfold parse_filename.
  destruct (title_season_stage_total info_init stem working_record_init)
    as (info1 & w1 & E1 & Hw1).
  pose proof (title_season_stage_length _ _ _ _ E1) as L1.
  rewrite E1. cbn [mbind result_bind].
  destruct (tech_stage_total patterns info1 w1 Htech Hw1) as (info2 & w2 & E2 & Hw2).
  pose proof (tech_stage_length _ _ _ _ _ E2) as L2.
  rewrite E2. cbn [mbind result_bind].
  assert (Hshort2 : short_enough w2) by (unfold short_enough in *; lia).
  destruct (episode_stage_total patterns info2 w2 Hse Hep Hshort2 Hw2)
    as (info3 & w3 & -> & Hw3).
  cbn [mbind result_bind].
  destruct (title_stage_total info3 w3 Hw3) as (info4 & -> & Hw4).
  cbn [mbind result_bind]. apply defaults_stage_total, Hw4.
Qed.

(** With rules it can work with, [parse_filename] returns a record for
    every file name of at most 4300 characters, the most digits [int]
    reads: the episode rules are in the Pattern Set and, in such a
    name, their groups 1 (and 2) hold what [int] reads, and every
    technical rule of the set has a group 1. *)
Theorem parse_filename_returns (patterns : PatternSet) (stem : pystr) :
  rules_ok patterns -> short_enough stem ->
  exists info, parse_filename patterns stem = Ok info.
Proof. apply parse_filename_total. Qed.

(** A compiled rule with a group searches without error and has its
    group 1. *)
Lemma compiled_tech_rule_ok source r :
  (0 < ngroups r)%nat -> tech_rule_ok (compiled source r).
Proof.
  intros Hn content. unfold compiled. cbn [pat_search]. unfold re_search.
  destruct (search_from r false [] content) as [m|] eqn:E; [| exact I].
  apply search_from_captures in E as (added & -> & _).
  destruct (ngroups r); [lia | discriminate].
Qed.

Lemma season_episode_rule_ok_S_E : season_episode_rule_ok Rules.season_episode.
Proof.
  intros w Hw. unfold Rules.season_episode, compiled. cbn [pat_search]. unfold re_search.
  destruct (search_from Rules.season_episode_re false [] w) as [m|] eqn:E; [| exact I].
  assert (Hb : forall n body,
             (n, body) ∈ group_bodies Rules.season_episode_re -> body = Plus true digit).
  { intros n body Hin.
    change (group_bodies Rules.season_episode_re)
      with [(1%nat, Plus true digit); (2%nat, Plus true digit)] in Hin.
    rewrite !elem_of_cons, elem_of_nil in Hin.
    destruct Hin as [Hin | [Hin | []]]; inversion Hin; reflexivity. }
  split; (eapply int_group_of_digits; [exact Hw | exact E | | intros body; apply Hb]).
  - left.
  - right. left.
Qed.

Lemma episode_rule_ok_dash : episode_rule_ok Rules.episode.
Proof.
  intros w Hw. unfold Rules.episode, compiled. cbn [pat_search]. unfold re_search.
  destruct (search_from Rules.episode_re false [] w) as [m|] eqn:E; [| exact I].
  eapply int_group_of_digits; [exact Hw | exact E | left |].
  intros body Hin.
  change (group_bodies Rules.episode_re) with [(1%nat, Plus true digit)] in Hin.
  apply list_elem_of_singleton in Hin. inversion Hin. reflexivity.
Qed.

Lemma rules_ok_grouped : rules_ok Rules.grouped.
Proof.
  split; [| split].
  - intros key field p Hin Hp _. unfold tech_keys in Hin.
    rewrite !elem_of_cons, elem_of_nil in Hin.
    destruct Hin as [Hin | [Hin | [Hin | [Hin | [Hin | [Hin | []]]]]]];
      inversion Hin; subst key field; clear Hin.
    + assert (E : Rules.grouped !! "resolution"
                  = Some (compiled "(\d{3,4}p)" (Group 1 Rules.resolution_re)))
        by reflexivity.
      rewrite E in Hp. injection Hp as <-. apply compiled_tech_rule_ok. cbn. lia.
    + assert (E : Rules.grouped !! "source" = Some (compiled "(BD|WEB)" Rules.source_re))
        by reflexivity.
      rewrite E in Hp. injection Hp as <-. apply compiled_tech_rule_ok. cbn. lia.
    + assert (E : Rules.grouped !! "video_codec"
                  = Some (compiled "(x26[45])" (Group 1 Rules.video_codec_re)))
        by reflexivity.
      rewrite E in Hp. injection Hp as <-. apply compiled_tech_rule_ok. cbn. lia.
    + assert (E : Rules.grouped !! "audio_codec" = None) by reflexivity.
      rewrite E in Hp. discriminate.
    + assert (E : Rules.grouped !! "subtitle" = None) by reflexivity.
      rewrite E in Hp. discriminate.
    + assert (E : Rules.grouped !! "group" = None) by reflexivity.
      rewrite E in Hp. discriminate.
  - exists Rules.season_episode. split; [reflexivity | apply season_episode_rule_ok_S_E].
  - exists Rules.episode. split; [reflexivity | apply episode_rule_ok_dash].
Qed.

Lemma parse_filename_returns_witness :
  rules_ok Rules.grouped /\
  short_enough (py "[BD][x265]【1080p】 Show.S02E03") /\
  exists info, parse_filename Rules.grouped (py "[BD][x265]【1080p】 Show.S02E03") = Ok info.
Proof.
  assert (Hshort : short_enough (py "[BD][x265]【1080p】 Show.S02E03")).
  { unfold short_enough. apply N.leb_le. reflexivity. }
  split; [exact rules_ok_grouped |]. split; [exact Hshort |].
  exact (parse_filename_returns Rules.grouped _ rules_ok_grouped Hshort).
Defined.

(** ** The record [parse_filename] returns *)

Lemma info_init_other k : k ∉ str_keys -> k <> "备注" -> info_init !! k = None.
Proof.
  intros Hk Hr. destruct (info_init !! k) as [v|] eqn:E; [| reflexivity]. exfalso.
  unfold info_init in E. apply elem_of_list_to_map_2 in E.
  rewrite !elem_of_cons, elem_of_nil in E. unfold str_keys in Hk.
  rewrite !elem_of_cons, elem_of_nil in Hk.
  repeat destruct E as [E|E]; try contradiction; inversion E; subst; tauto.
Qed.

Lemma episode_stage_season patterns info w info' w' :
  episode_stage patterns info w = Ok (info', w') ->
  info' !! "季数" = info !! "季数" \/
  (info !! "季数" = Some VNone /\ exists n, info' !! "季数" = Some (VStr (str_of_int n))).
Proof.
  unfold episode_stage. intros H.
  bind_inv H as ep Hep. destruct (is_None ep); [| inversion H; auto].
  bind_inv H as se Hse. destruct se as [m|].
  - bind_inv H as cur Hcur. bind_inv H as info1 Hinfo1.
    bind_inv H as g2 Hg2. bind_inv H as n2 Hn2. inversion H; subst.
    rewrite lookup_insert_ne by discriminate. apply getitem_Ok in Hcur.
    destruct cur; cbn [is_None] in Hinfo1; try (inversion Hinfo1; subst; auto; fail).
    bind_inv Hinfo1 as g1 Hg1. bind_inv Hinfo1 as n Hn. inversion Hinfo1; subst.
    right. split; [exact Hcur |]. exists n. apply lookup_insert_eq.
  - bind_inv H as epm Hepm. destruct epm as [m|].
    + bind_inv H as g1 Hg1. bind_inv H as n Hn. inversion H; subst.
      rewrite lookup_insert_ne by discriminate. auto.
    + inversion H. auto.
Qed.

Lemma defaults_stage_season info info' :
  defaults_stage info = Ok info' ->
  (info !! "季数" = Some VNone /\ info' !! "季数" = Some (VStr (py "1")))
  \/ (info !! "季数" <> Some VNone /\ info' !! "季数" = info !! "季数").
Proof.
  unfold defaults_stage. intros H. bind_inv H as season Hseason.
  bind_inv H as remarks Hrem. destruct remarks; try discriminate.
  bind_inv H as parts Hparts. inversion H; subst.
  rewrite lookup_insert_ne by discriminate. apply getitem_Ok in Hseason.
  destruct season; cbn [is_None];
    try (right; split; [congruence | reflexivity]).
  left. split; [exact Hseason | apply lookup_insert_eq].
Qed.

Lemma title_stage_title info w info' :
  title_stage info w = Ok info' ->
  (info !! "标题" = Some VNone /\ exists t, info' !! "标题" = Some (VStr t))
  \/ (info !! "标题" <> Some VNone /\ info' !! "标题" = info !! "标题").
Proof.
  unfold title_stage. intros H. bind_inv H as cur Hcur. apply getitem_Ok in Hcur.
  destruct cur; cbn [is_None] in H; inversion H; subst;
    try (right; split; [congruence | reflexivity]).
  left. split; [exact Hcur |]. eexists. apply lookup_insert_eq.
Qed.

Lemma parse_record_strings patterns stem info :
  parse_filename patterns stem = Ok info ->
  (exists t, info !! "标题" = Some (VStr t)) /\ (exists s, info !! "季数" = Some (VStr s)).
Proof.
  intros Hparse.
  apply parse_filename_stages in Hparse
    as (info1 & w1 & info2 & w2 & info3 & w3 & info4 & S1 & S2 & S3 & S4 & S5).
  apply tech_blocks_extend in S2.
  pose proof (title_season_stage_cases _ _ _ _ S1) as C1.
  assert (T1 : info1 !! "标题" = Some VNone \/ exists t, info1 !! "标题" = Some (VStr t)).
  { destruct C1 as [[-> _] | (t & s & ->)]; [left; reflexivity |].
    right. exists t. rewrite lookup_insert_ne by discriminate. apply lookup_insert_eq. }
  assert (N1 : info1 !! "季数" = Some VNone \/ exists s, info1 !! "季数" = Some (VStr s)).
  { destruct C1 as [[-> _] | (t & s & ->)]; [left; reflexivity |].
    right. exists s. apply lookup_insert_eq. }
  assert (E3t : info3 !! "标题" = info1 !! "标题").
  { rewrite (episode_stage_frame _ _ _ _ _ _ S3) by discriminate.
    apply (tech_extends_other _ _ _ S2); [discriminate |].
    intros H; apply tech_fields_not in H; tauto. }
  assert (E2s : info2 !! "季数" = info1 !! "季数").
  { apply (tech_extends_other _ _ _ S2); [discriminate |].
    intros H; apply tech_fields_not in H; tauto. }
  assert (Ht : exists t, info !! "标题" = Some (VStr t)).
  { rewrite (defaults_stage_frame _ _ _ S5) by discriminate.
    destruct (title_stage_title _ _ _ S4) as [[_ Ht] | [Hne ->]]; [exact Ht |].
    rewrite E3t in Hne |- *.
    destruct T1 as [T1 | T1]; [contradiction | exact T1]. }
  assert (Hs : exists s, info !! "季数" = Some (VStr s)).
  { destruct (defaults_stage_season _ _ S5) as [[_ ->] | [Hne ->]]; [eauto |].
    rewrite (title_stage_frame _ _ _ "季数" S4) in Hne |- * by discriminate.
    destruct (episode_stage_season _ _ _ _ _ S3) as [E | (_ & n & ->)]; [| eauto].
    rewrite E, E2s in Hne |- *.
    destruct N1 as [N1 | N1]; [contradiction | exact N1]. }
  split; [exact Ht | exact Hs].
Qed.

(** The record of a parse that returns: title and season are strings;
    the episode and the five technical fields are strings or [None]; the
    remarks are a non-empty string or [None]; there is no other key. *)
Theorem parse_result_shape (patterns : PatternSet) (stem : pystr) (info : pydict) :
  parse_filename patterns stem = Ok info ->
  (exists t, info !! "标题" = Some (VStr t))
  /\ (exists s, info !! "季数" = Some (VStr s))
  /\ (forall k, k ∈ str_keys -> exists v, info !! k = Some v /\ str_or_none v)
  /\ (info !! "备注" = Some VNone \/ exists r, r <> [] /\ info !! "备注" = Some (VStr r))
  /\ (forall k, k ∉ str_keys -> k <> "备注" -> info !! k = None).
Proof.
  intros Hparse.
  apply parse_filename_stages in Hparse
    as (info1 & w1 & info2 & w2 & info3 & w3 & info4 & S1 & S2 & S3 & S4 & S5).
  apply tech_blocks_extend in S2.
  pose proof (title_season_stage_cases _ _ _ _ S1) as C1.
  assert (T1 : info1 !! "标题" = Some VNone \/ exists t, info1 !! "标题" = Some (VStr t)).
  { destruct C1 as [[-> _] | (t & s & ->)]; [left; reflexivity |].
    right. exists t. rewrite lookup_insert_ne by discriminate. apply lookup_insert_eq. }
  assert (N1 : info1 !! "季数" = Some VNone \/ exists s, info1 !! "季数" = Some (VStr s)).
  { destruct C1 as [[-> _] | (t & s & ->)]; [left; reflexivity |].
    right. exists s. apply lookup_insert_eq. }
  assert (E3t : info3 !! "标题" = info1 !! "标题").
  { rewrite (episode_stage_frame _ _ _ _ _ _ S3) by discriminate.
    apply (tech_extends_other _ _ _ S2); [discriminate |].
    intros H; apply tech_fields_not in H; tauto. }
  assert (E2s : info2 !! "季数" = info1 !! "季数").
  { apply (tech_extends_other _ _ _ S2); [discriminate |].
    intros H; apply tech_fields_not in H; tauto. }
  assert (Ht : exists t, info !! "标题" = Some (VStr t)).
  { rewrite (defaults_stage_frame _ _ _ S5) by discriminate.
    destruct (title_stage_title _ _ _ S4) as [[_ Ht] | [Hne ->]]; [exact Ht |].
    rewrite E3t in Hne |- *.
    destruct T1 as [T1 | T1]; [contradiction | exact T1]. }
  assert (Hs : exists s, info !! "季数" = Some (VStr s)).
  { destruct (defaults_stage_season _ _ S5) as [[_ ->] | [Hne ->]]; [eauto |].
    rewrite (title_stage_frame _ _ _ "季数" S4) in Hne |- * by discriminate.
    destruct (episode_stage_season _ _ _ _ _ S3) as [E | (_ & n & ->)]; [| eauto].
    rewrite E, E2s in Hne |- *.
    destruct N1 as [N1 | N1]; [contradiction | exact N1]. }
  split; [exact Ht |]. split; [exact Hs |]. split; [| split].
  - intros k Hk. destruct (decide (k = "标题")) as [-> | Nt].
    { destruct Ht as [t ->]. eexists. split; [reflexivity | right; eauto]. }
    destruct (decide (k = "季数")) as [-> | Ns].
    { destruct Hs as [s ->]. eexists. split; [reflexivity | right; eauto]. }
    pose proof (str_keys_not_remarks k Hk) as Nr.
    rewrite (defaults_stage_frame _ _ _ S5), (title_stage_frame _ _ _ _ S4) by assumption.
    destruct (decide (k = "集数")) as [-> | Ne].
    { assert (H2 : info2 !! "集数" = Some VNone).
      { rewrite (tech_extends_other _ _ _ S2);
          [| discriminate | apply not_tech_field_episode].
        rewrite (title_season_stage_frame _ _ _ _ _ S1) by discriminate. reflexivity. }
      destruct (episode_stage_episode _ _ _ _ _ S3 H2) as [-> | (n & _ & ->)];
        eexists; (split; [reflexivity |]); [left; reflexivity | right; eauto]. }
    rewrite (episode_stage_frame _ _ _ _ _ _ S3) by assumption.
    destruct S2 as [S2 _]. destruct (S2 k Nr) as [-> | (_ & _ & s & ->)].
    + rewrite (title_season_stage_frame _ _ _ _ _ S1) by assumption.
      exists VNone. split; [| left; reflexivity].
      unfold str_keys in Hk. rewrite !elem_of_cons, elem_of_nil in Hk.
      repeat destruct Hk as [Hk | Hk]; try contradiction; subst k; reflexivity.
    + eexists. split; [reflexivity | right; eauto].
  - assert (R2 : exists l, info2 !! "备注" = Some (VList l)).
    { destruct S2 as [_ R]. destruct (R []) as [l' Hl'].
      - rewrite (title_season_stage_frame _ _ _ _ _ S1) by discriminate. reflexivity.
      - eauto. }
    destruct R2 as [l Hl].
    rewrite <- (episode_stage_frame _ _ _ _ _ "备注" S3) in Hl by discriminate.
    rewrite <- (title_stage_frame _ _ _ "备注" S4) in Hl by discriminate.
    destruct (defaults_stage_remarks _ _ _ S5 Hl) as (parts & _ & ->).
    unfold py_or. destruct (join (py ", ") parts) as [| c r] eqn:E; cbn [truthy].
    + left. reflexivity.
    + right. exists (c :: r). split; [discriminate | reflexivity].
  - intros k Hk Nr.
    assert (Nt : k <> "标题") by (intros ->; apply Hk; unfold str_keys;
                                  rewrite !elem_of_cons; tauto).
    assert (Ns : k <> "季数") by (intros ->; apply Hk; unfold str_keys;
                                  rewrite !elem_of_cons; tauto).
    assert (Ne : k <> "集数") by (intros ->; apply Hk; unfold str_keys;
                                  rewrite !elem_of_cons; tauto).
    rewrite (defaults_stage_frame _ _ _ S5), (title_stage_frame _ _ _ _ S4),
      (episode_stage_frame _ _ _ _ _ _ S3) by assumption.
    rewrite (tech_extends_other _ _ _ S2);
      [| exact Nr | intros H; apply Hk, tech_fields_str_keys, H].
    rewrite (title_season_stage_frame _ _ _ _ _ S1) by assumption.
    apply info_init_other; assumption.
Qed.

Lemma parse_result_shape_witness :
  let stem := py "[BD][x265] Show.S02E03" in
  let info : pydict :=
    list_to_map
      [ ("字幕组", VNone); ("标题", VStr (py "Show")); ("季数", VStr (py "2"));
        ("集数", VStr (py "03")); ("分辨率", VNone); ("视频编码", VStr (py "x265"));
        ("音频编码", VNone); ("字幕", VNone); ("备注", VStr (py "BD")) ] in
  parse_filename Rules.grouped stem = Ok info
  /\ (exists t, info !! "标题" = Some (VStr t))
  /\ (exists s, info !! "季数" = Some (VStr s))
  /\ (forall k, k ∈ str_keys -> exists v, info !! k = Some v /\ str_or_none v)
  /\ (info !! "备注" = Some VNone \/ exists r, r <> [] /\ info !! "备注" = Some (VStr r))
  /\ (forall k, k ∉ str_keys -> k <> "备注" -> info !! k = None).
Proof.
  intros stem info.
  assert (Hp : parse_filename Rules.grouped stem = Ok info) by reflexivity.
  split; [exact Hp |].
  exact (parse_result_shape Rules.grouped stem info Hp).
Defined.

(** ** The client: what a call sends, returns and lets escape *)

Lemma quiet_Ok {A : Type} (a : A) : quiet (Ok a).
Proof. intros e. discriminate. Qed.

Lemma quiet_bind {A B : Type} (m : result A) (f : A -> result B) :
  quiet m -> (forall a, quiet (f a)) -> quiet (m ≫= f).
Proof.
  intros Hm Hf e. destruct m as [a|e']; cbn [mbind result_bind].
  - apply Hf.
  - intros [= <-]. apply Hm. reflexivity.
Qed.

Lemma quiet_py_get d k dflt : quiet (py_get d k dflt).
Proof. intros e. destruct d; simpl; intros [= <-]; reflexivity. Qed.

Lemma quiet_py_getitem d k : quiet (py_getitem d k).
Proof.
  intros e. destruct d; simpl; try (intros [= <-]; reflexivity).
  destruct (List.find _ _); intros [= <-]; reflexivity.
Qed.

Lemma quiet_py_first v : quiet (py_first v).
Proof.
  intros e. destruct v as [| b | n | [| c s] | [| x l] | d]; simpl;
    intros [= <-]; reflexivity.
Qed.

Lemma quiet_py_take4 v : quiet (py_take4 v).
Proof. intros e. destruct v; simpl; intros [= <-]; reflexivity. Qed.

Lemma quiet_py_iter v : quiet (py_iter v).
Proof. intros e. destruct v; simpl; intros [= <-]; reflexivity. Qed.

Lemma quiet_if {A : Type} (b : bool) (x y : result A) :
  quiet x -> quiet y -> quiet (if b then x else y).
Proof. destruct b; auto. Qed.

Lemma quiet_episode_entry ep : quiet (episode_entry ep).
Proof.
  unfold episode_entry.
  apply quiet_bind; [apply quiet_py_get |]. intros ty.
  apply quiet_if; [| apply quiet_Ok].
  repeat (apply quiet_bind; [apply quiet_py_get | intros ?]). apply quiet_Ok.
Qed.

Lemma quiet_episode_entries eps : quiet (episode_entries eps).
Proof.
  induction eps as [| ep eps IH]; [apply quiet_Ok |]. cbn [episode_entries].
  apply quiet_bind; [apply quiet_episode_entry |]. intros e.
  apply quiet_bind; [exact IH |]. intros es. apply quiet_Ok.
Qed.

Lemma quiet_scraped_record bangumi_id details eps :
  quiet (scraped_record bangumi_id details eps).
Proof.
  unfold scraped_record.
  repeat first
    [ apply quiet_Ok | apply quiet_py_get | apply quiet_py_take4
    | apply quiet_if
    | apply quiet_bind; [| intros ?] ].
Qed.

Lemma episode_entry_shape ep l : episode_entry ep = Ok l -> Forall episode_shape l.
Proof.
  unfold episode_entry. intros H. bind_inv H as ty Hty.
  destruct (py_is_zero ty); [| inversion H; constructor].
  bind_inv H as sort Hsort. bind_inv H as name_cn Hcn. bind_inv H as name Hname.
  bind_inv H as airdate Hair. bind_inv H as desc Hdesc. inversion H; subst.
  constructor; [| constructor]. unfold episode_shape. eauto 10.
Qed.

Lemma episode_entries_shape eps :
  forall l, episode_entries eps = Ok l -> Forall episode_shape l.
Proof.
  induction eps as [| ep eps IH]; intros l H; cbn [episode_entries] in H.
  - inversion H. constructor.
  - bind_inv H as e He. bind_inv H as es Hes. inversion H; subst.
    apply Forall_app. split; [eapply episode_entry_shape; eauto | auto].
Qed.

Lemma scraped_record_shape bangumi_id details eps v :
  scraped_record bangumi_id details eps = Ok v ->
  Forall episode_shape eps -> scraped_shape bangumi_id v.
Proof.
  unfold scraped_record. intros H Heps.
  bind_inv H as name_cn Hcn. bind_inv H as name Hname. bind_inv H as jp Hjp.
  bind_inv H as date Hdate. bind_inv H as year Hyear. bind_inv H as cnt Hcnt.
  bind_inv H as total Htotal. bind_inv H as summary Hsum. bind_inv H as images Himg.
  bind_inv H as image Himage. inversion H; subst.
  unfold scraped_shape. eauto 12.
Qed.

(** One request: it is appended to the log, and what it raises is one of
    the client's own exceptions. *)
Lemma make_request_run http req st :
  exists r, _make_request http req st = (r, sent st [req]) /\
            forall e, r = Raise e -> is_APIError e = true.
Proof.
  unfold _make_request. destruct (http _ _) as [code body|].
  - destruct (code =? 404)%Z.
    { eexists; split; [reflexivity | intros e [= <-]; reflexivity]. }
    destruct (_ && _).
    { eexists; split; [reflexivity | intros e [= <-]; reflexivity]. }
    destruct body; eexists; (split; [reflexivity |]); intros e; [discriminate |].
    intros [= <-]; reflexivity.
  - eexists; split; [reflexivity | intros e [= <-]; reflexivity].
Qed.

Lemma getitem_id_truthy v id : py_getitem v "id" = Ok id -> truthy v = true.
Proof.
  destruct v as [| b | n | s | l | [| kv d]]; simpl; try discriminate. reflexivity.
Qed.

(** [search_subject]: one request; the result is [None] or a non-empty
    dictionary with an [id]; none of the three exceptions of line 64
    leaves it, and one of the client's own leaves it only as raised by
    the request. *)
Lemma search_subject_run http term st :
  exists r, search_subject http term st = (r, sent st [SearchSubject term]) /\
    match r with
    | Ok v => v = VNone \/ exists id, py_getitem v "id" = Ok id
    | Raise e =>
        e <> NotFoundError /\ e <> IndexError /\ e <> KeyError /\
        (is_APIError e = true ->
         (_make_request http (SearchSubject term) st).1 = Raise e)
    end.
Proof.
  unfold search_subject, try_except. unfold mbind at 1, M_bind at 1.
  destruct (make_request_run http (SearchSubject term) st) as (r & E & Hr).
  rewrite E. destruct r as [data|e]; cbn [fst].
  2:{ destruct e; eexists; (split; [reflexivity |]); cbn beta iota;
        auto; repeat split; congruence. }
  assert (Q : forall (x : result value) (e : exn),
             quiet x -> x = Raise e ->
             exists r, (if match e with
                            | NotFoundError | IndexError | KeyError => true
                            | _ => false
                            end
                        then (Ok VNone, sent st [SearchSubject term])
                        else (Raise e, sent st [SearchSubject term]))
                       = (r, sent st [SearchSubject term]) /\
               match r with
               | Ok v => v = VNone \/ exists id, py_getitem v "id" = Ok id
               | Raise e =>
                   e <> NotFoundError /\ e <> IndexError /\ e <> KeyError /\
                   (is_APIError e = true -> Ok data = Raise e)
               end).
  { intros x e Hq Hx. specialize (Hq e Hx).
    destruct e; try discriminate Hq; eexists; (split; [reflexivity |]);
      cbn beta iota; auto; repeat split; congruence. }
  rewrite lift_bind.
  destruct (if truthy data then py_get data "list" VNone else Ok data)
    as [lst|e] eqn:Hl.
  2:{ apply (Q _ e (quiet_if _ _ _ (quiet_py_get _ _ _) (quiet_Ok _)) Hl). }
  destruct (truthy data && truthy lst);
    [| eexists; split; [reflexivity | left; reflexivity]].
  rewrite lift_bind. destruct (py_first lst) as [fr|e] eqn:Hf;
    [| apply (Q _ e (quiet_py_first _) Hf)].
  rewrite lift_bind. destruct (py_get fr "name_cn" VNone) as [cn|e] eqn:Hcn;
    [| apply (Q _ e (quiet_py_get _ _ _) Hcn)].
  rewrite lift_bind.
  destruct (if truthy cn then Ok cn else py_get fr "name" VNone) as [nm|e] eqn:Hn;
    [| apply (Q _ e (quiet_if _ _ _ (quiet_Ok _) (quiet_py_get _ _ _)) Hn)].
  rewrite lift_bind. destruct (py_getitem fr "id") as [id|e] eqn:Hid;
    [| apply (Q _ e (quiet_py_getitem _ _) Hid)].
  eexists; split; [reflexivity |]. right. eauto.
Qed.

(** [get_details_for_scraping], case by case: the requests it sends after
    the search, what it returns, and what leaves it. The [id] of the two
    detail requests is the one of the search result. *)
Lemma scraping_run http q st :
  exists r reqs,
    get_details_for_scraping http q st = (r, sent st (SearchSubject q :: reqs)) /\
    (reqs = [] \/
     exists found id,
       (search_subject http q st).1 = Ok found /\ py_getitem found "id" = Ok id /\
       (reqs = [GetSubject id] \/ reqs = [GetSubject id; GetEpisodes id])) /\
    match r with
    | Ok v =>
        v = VNone \/
        exists id, reqs = [GetSubject id; GetEpisodes id] /\ scraped_shape id v
    | Raise e =>
        if is_APIError e
        then reqs = [] /\ e <> NotFoundError /\
             (_make_request http (SearchSubject q) st).1 = Raise e
        else reqs = [] \/ exists id, reqs = [GetSubject id; GetEpisodes id]
    end.
Proof.
  unfold get_details_for_scraping. unfold mbind at 1, M_bind at 1.
  destruct (search_subject_run http q st) as (r & E & Hr). rewrite E.
  destruct r as [found|e].
  2:{ exists (Raise e), []. split; [reflexivity |]. split; [left; reflexivity |].
      destruct Hr as (N1 & _ & _ & Hreq).
      destruct (is_APIError e); [| left; reflexivity]. auto. }
  destruct Hr as [-> | [id Hid]].
  { exists (Ok VNone), []. split; [reflexivity |]. split; left; reflexivity. }
  rewrite (getitem_id_truthy _ _ Hid). unfold lacks_id at 1. rewrite Hid.
  cbn [negb orb]. rewrite lift_bind.
  set (st1 := sent st [SearchSubject q]).
  assert (F1 : forall l, sent st1 l = sent st (SearchSubject q :: l)).
  { intros l. unfold st1. apply sent_sent. }
  assert (Hfound : forall reqs,
             reqs = [GetSubject id] \/ reqs = [GetSubject id; GetEpisodes id] ->
             reqs = [] \/
             exists found0 id0,
               (Ok found, st1).1 = Ok found0 /\ py_getitem found0 "id" = Ok id0 /\
               (reqs = [GetSubject id0] \/ reqs = [GetSubject id0; GetEpisodes id0])).
  { intros reqs H. right. exists found, id. auto. }
  unfold try_except, get_subject_details, get_episodes.
  unfold mbind, M_bind.
  destruct (make_request_run http (GetSubject id) st1) as (r1 & E1 & H1).
  rewrite E1. destruct r1 as [details|e].
  2:{ rewrite (H1 e eq_refl). exists (Ok VNone), [GetSubject id].
      split; [unfold mret, M_ret; rewrite F1; reflexivity |].
      split; [apply Hfound |]; auto. }
  set (st2 := sent st1 [GetSubject id]).
  assert (F2 : sent st2 [GetEpisodes id] = sent st [SearchSubject q; GetSubject id; GetEpisodes id]).
  { unfold st2. rewrite sent_sent. apply F1. }
  destruct (make_request_run http (GetEpisodes id) st2) as (r2 & E2 & H2).
  rewrite E2. destruct r2 as [data|e].
  2:{ rewrite (H2 e eq_refl). exists (Ok VNone), [GetSubject id; GetEpisodes id].
      split; [unfold mret, M_ret; rewrite F2; reflexivity |].
      split; [apply Hfound |]; auto. }
  rewrite F2. unfold lift.
  assert (Q : forall (e : exn),
             is_APIError e = false ->
             exists r reqs,
               (if is_APIError e
                then @mret M M_ret value VNone (sent st [SearchSubject q; GetSubject id; GetEpisodes id])
                else (Raise e, sent st [SearchSubject q; GetSubject id; GetEpisodes id]))
               = (r, sent st (SearchSubject q :: reqs)) /\
               (reqs = [] \/
                exists found0 id0,
                  (Ok found, st1).1 = Ok found0 /\ py_getitem found0 "id" = Ok id0 /\
                  (reqs = [GetSubject id0] \/ reqs = [GetSubject id0; GetEpisodes id0])) /\
               match r with
               | Ok v =>
                   v = VNone \/
                   exists id, reqs = [GetSubject id; GetEpisodes id] /\ scraped_shape id v
               | Raise e =>
                   if is_APIError e
                   then reqs = [] /\ e <> NotFoundError /\
                        (_make_request http (SearchSubject q) st).1 = Raise e
                   else reqs = [] \/ exists id, reqs = [GetSubject id; GetEpisodes id]
               end).
  { intros e He. rewrite He. exists (Raise e), [GetSubject id; GetEpisodes id].
    split; [reflexivity |]. split; [apply Hfound; auto |]. rewrite He. eauto. }
  destruct (py_get data "data" (VList [])) as [all_episodes|e] eqn:Hall;
    [| apply (Q e (quiet_py_get _ _ _ _ Hall))].
  destruct (py_iter all_episodes) as [eps|e] eqn:Hit;
    [| apply (Q e (quiet_py_iter _ _ Hit))].
  destruct (episode_entries eps) as [episodes_list|e] eqn:Hes;
    [| apply (Q e (quiet_episode_entries _ _ Hes))].
  destruct (scraped_record id details episodes_list) as [v|e] eqn:Hrec;
    [| apply (Q e (quiet_scraped_record _ _ _ _ Hrec))].
  exists (Ok v), [GetSubject id; GetEpisodes id].
  split; [reflexivity |]. split; [apply Hfound; auto |]. right. exists id.
  split; [reflexivity |].
  eapply scraped_record_shape; [exact Hrec |]. eapply episode_entries_shape; exact Hes.
Qed.

(** [search_subject] (bangumi_api.py, lines 52-66) sends its one request
    and nothing else. What it returns is [None] or a non-empty dictionary
    that has an [id], so that the second test of line 83 never decides.
    [NotFoundError], [IndexError] and [KeyError] never leave it, and
    [APIError] or [NetworkError] leave it only as the request raised
    them. *)
Theorem search_subject_outcomes (http : world) (term : pystr) (st : state) :
  (search_subject http term st).2 = sent st [SearchSubject term] /\
  match (search_subject http term st).1 with
  | Ok v => v = VNone \/ (truthy v = true /\ lacks_id v = false)
  | Raise e =>
      e <> NotFoundError /\ e <> IndexError /\ e <> KeyError /\
      (is_APIError e = true ->
       (_make_request http (SearchSubject term) st).1 = Raise e)
  end.
Proof.
  destruct (search_subject_run http term st) as (r & E & Hr). rewrite E.
  split; [reflexivity |]. cbn [fst]. destruct r as [v|e]; [| exact Hr].
  destruct Hr as [-> | [id Hid]]; [left; reflexivity | right].
  split; [exact (getitem_id_truthy _ _ Hid) |]. unfold lacks_id. rewrite Hid. reflexivity.
Qed.

(** [get_details_for_scraping] (lines 81-116) opens with the search for
    its term. After it come no request, or the subject request alone, or
    the subject request and then the episodes request; both carry the
    [id] of the search result. *)
Theorem detail_requests_follow_search (http : world) (q : pystr) (st : state) :
  exists reqs,
    (get_details_for_scraping http q st).2 = sent st (SearchSubject q :: reqs) /\
    (reqs = [] \/
     exists found id,
       (search_subject http q st).1 = Ok found /\ py_getitem found "id" = Ok id /\
       (reqs = [GetSubject id] \/ reqs = [GetSubject id; GetEpisodes id])).
Proof.
  destruct (scraping_run http q st) as (r & reqs & E & Hreqs & _).
  exists reqs. rewrite E. split; [reflexivity | exact Hreqs].
Qed.

(** A value other than [None] that [get_details_for_scraping] returns is
    the dictionary of lines 104-113: its eight keys in that order, the
    episodes a list of dictionaries of the five keys of lines 93-99; all
    three requests were sent for it. *)
Theorem scraped_record_is_complete (http : world) (q : pystr) (st : state) (v : value) :
  (get_details_for_scraping http q st).1 = Ok v ->
  v <> VNone ->
  exists id,
    scraped_shape id v /\
    (get_details_for_scraping http q st).2
    = sent st [SearchSubject q; GetSubject id; GetEpisodes id].
Proof.
  destruct (scraping_run http q st) as (r & reqs & E & _ & Hr). rewrite E.
  cbn [fst snd]. intros -> Hv. destruct Hr as [-> | (id & -> & Hshape)]; [contradiction |].
  exists id. split; [exact Hshape | reflexivity].
Qed.

Lemma scraped_record_is_complete_witness :
  let found : world := fun _ req =>
    match req with
    | SearchSubject _ =>
        Response 200 (Some (VDict [(py "list", VList [VDict [(py "id", VInt 7)]])]))
    | GetSubject _ =>
        Response 200 (Some (VDict [(py "name", VStr (py "Show")); (py "eps", VInt 12)]))
    | GetEpisodes _ =>
        Response 200
          (Some (VDict [(py "data",
                         VList [VDict [(py "type", VInt 0); (py "sort", VInt 1)];
                                VDict [(py "type", VInt 1); (py "sort", VInt 2)]])]))
    end in
  let v :=
    VDict [ (py "bangumi_id", VInt 7); (py "name_cn", VStr (py "Show"));
            (py "name_jp", VStr (py "Show")); (py "year", VStr (py "未知"));
            (py "total_episodes", VInt 12);
            (py "episodes",
             VList [VDict [ (py "sort", VInt 1); (py "name_cn", VNone); (py "name", VNone);
                            (py "airdate", VNone); (py "desc", VStr []) ]]);
            (py "summary", VStr (py "未知")); (py "image", VStr []) ] in
  (get_details_for_scraping found (py "Show") initial_state).1 = Ok v /\
  exists id,
    scraped_shape id v /\
    (get_details_for_scraping found (py "Show") initial_state).2
    = sent initial_state [SearchSubject (py "Show"); GetSubject id; GetEpisodes id].
Proof.
  intros found v.
  assert (E : (get_details_for_scraping found (py "Show") initial_state).1 = Ok v)
    by reflexivity.
  split; [exact E |].
  apply (scraped_record_is_complete found (py "Show") initial_state v E). discriminate.
Defined.

(** One of the client's own exceptions leaves [get_details_for_scraping]
    only from the search request: it is [APIError] or [NetworkError] as
    that request raised it, and no other request was sent. A failure of
    the subject or of the episodes request never leaves it. *)
Theorem only_search_errors_escape (http : world) (q : pystr) (st : state) (e : exn) :
  (get_details_for_scraping http q st).1 = Raise e ->
  is_APIError e = true ->
  e <> NotFoundError /\
  (_make_request http (SearchSubject q) st).1 = Raise e /\
  (get_details_for_scraping http q st).2 = sent st [SearchSubject q].
Proof.
  destruct (scraping_run http q st) as (r & reqs & E & _ & Hr). rewrite E.
  cbn [fst snd]. intros -> He. rewrite He in Hr. destruct Hr as (-> & Hn & Hreq).
  auto.
Qed.

Lemma only_search_errors_escape_witness :
  let down : world := fun _ _ => Response 503 None in
  (get_details_for_scraping down (py "Show") initial_state).1 = Raise APIError /\
  (_make_request down (SearchSubject (py "Show")) initial_state).1 = Raise APIError /\
  (get_details_for_scraping down (py "Show") initial_state).2
  = sent initial_state [SearchSubject (py "Show")].
Proof.
  intros down.
  assert (E : (get_details_for_scraping down (py "Show") initial_state).1 = Raise APIError)
    by reflexivity.
  split; [exact E |].
  exact (proj2 (only_search_errors_escape down (py "Show") initial_state APIError
                  E eq_refl)).
Defined.

(** ** The Lookup Cache, call by call *)

(** [_get_bangumi_details] (main.py, lines 140-152) never drops or
    changes an entry of the cache and never links. A hit returns the
    entry and leaves the state as it is; a call that returns has its
    value in the cache under its query; a call that raises leaves the
    cache as it was, so that the query stays unanswered. *)
Theorem lookup_cache_update
        (http : world) (title : pystr) (season : option pystr) (st : state) :
  let q := api_query_of title season in
  let out := _get_bangumi_details http title season st in
  api_cache st ⊆ api_cache out.2
  /\ linked out.2 = linked st
  /\ (forall cached, api_cache st !! q = Some cached -> out = (Ok cached, st))
  /\ (forall details, out.1 = Ok details -> api_cache out.2 !! q = Some details)
  /\ (forall e, out.1 = Raise e -> api_cache out.2 = api_cache st /\ api_cache st !! q = None).
Proof.
  intros q out. destruct out as [r st'] eqn:E. subst out.
  pose proof (get_bangumi_details_step _ _ _ _ _ _ E) as [Hl H]. fold q in H.
  cbn [fst snd]. destruct (api_cache st !! q) as [cached|] eqn:Hc.
  - destruct H as [-> ->]. split; [reflexivity |]. split; [reflexivity |].
    split; [intros c [= <-]; reflexivity |].
    split; [intros d [= <-]; exact Hc | discriminate].
  - destruct H as [_ Hcache]. rewrite Hcache.
    split; [destruct r; [apply insert_subseteq; exact Hc | reflexivity] |].
    split; [exact Hl |]. split; [discriminate |].
    split; [intros d ->; apply lookup_insert_eq |].
    intros e ->. split; reflexivity.
Qed.

(** ** The Metadata Resolver: what it writes *)

Lemma cn_num_lookup_range k n : cn_num_lookup k = Some n -> (1 <= n <= 10)%Z.
Proof.
  unfold cn_num_lookup. destruct (List.find _ cn_num_map) as [kv|] eqn:E; [| discriminate].
  intros [= <-]. apply List.find_some in E as [Hin _].
  unfold cn_num_map in Hin. cbn [In] in Hin.
  repeat destruct Hin as [Hin | Hin]; try contradiction; subst kv; cbn [snd]; lia.
Qed.

Lemma dict_get_str (d : pydict) k s : dict_get d k = VStr s -> d !! k = Some (VStr s).
Proof. unfold dict_get. destruct (d !! k); simpl; [intros -> | discriminate]. reflexivity. Qed.

Lemma season_correction_result info t :
  season_correction info t = info \/
  (info !! "季数" = Some (VStr (py "1")) /\
   exists n, (1 <= n <= 10)%Z /\
             season_correction info t = <["季数" := VStr (str_of_int n)]> info).
Proof.
  unfold season_correction.
  destruct (is_str (dict_get info "季数") (py "1")) eqn:E; [| left; reflexivity].
  apply is_str_true, dict_get_str in E.
  destruct (re_search season_marker_re t) as [m|]; [| left; reflexivity].
  destruct (group m 1) as [[| b | z | cn | l | d]|e]; try (left; reflexivity).
  destruct (cn_num_lookup cn) as [n|] eqn:En; [| left; reflexivity].
  right. split; [exact E |]. exists n. split; [eapply cn_num_lookup_range; eauto | reflexivity].
Qed.

Lemma not_resolver_key k :
  k ∉ resolver_keys -> k <> "标题" /\ k <> "季数" /\ k <> "bangumi_eps".
Proof.
  unfold resolver_keys. rewrite !elem_of_cons, elem_of_nil. intros H.
  repeat split; intros ->; apply H; tauto.
Qed.

Lemma apply_details_result info d info' :
  apply_details info d = Ok info' ->
  (forall k, k ∉ resolver_keys -> info' !! k = info !! k)
  /\ (info' !! "季数" = info !! "季数" \/
      (info !! "季数" = Some (VStr (py "1")) /\
       exists n, (1 <= n <= 10)%Z /\ info' !! "季数" = Some (VStr (str_of_int n))))
  /\ (exists api_title,
         info' !! "标题" = Some (VStr (strip (re_sub season_strip_re [] api_title))))
  /\ is_Some (info' !! "bangumi_eps").
Proof.
  unfold apply_details. intros H.
  bind_inv H as local Hlocal. bind_inv H as t0 Ht0. bind_inv H as t Ht.
  bind_inv H as eps Heps. inversion H; subst info'; clear H.
  split; [| split; [| split]].
  - intros k Hk. apply not_resolver_key in Hk as (N1 & N2 & N3).
    rewrite !lookup_insert_ne by congruence.
    destruct (season_correction_result info t) as [-> | (_ & n & _ & ->)]; [reflexivity |].
    rewrite lookup_insert_ne by congruence. reflexivity.
  - rewrite !lookup_insert_ne by discriminate.
    destruct (season_correction_result info t) as [-> | (E & n & Hn & ->)]; [left; reflexivity |].
    right. split; [exact E |]. exists n. split; [exact Hn | apply lookup_insert_eq].
  - exists t. rewrite lookup_insert_ne by discriminate. apply lookup_insert_eq.
  - rewrite lookup_insert_eq. eauto.
Qed.

Lemma resolve_cases http info st info' st' :
  resolve http info st = (Ok info', st') ->
  info' = info \/ exists details, apply_details info details = Ok info'.
Proof.
  unfold resolve. destruct (_ && _); [| intros [= <- _]; left; reflexivity].
  rewrite lift_bind. destruct (as_str _) as [title|e]; [| discriminate].
  rewrite lift_bind. destruct (as_optional_str _) as [season|e]; [| discriminate].
  unfold mbind, M_bind.
  destruct (_get_bangumi_details http title season st) as [[details|e] st1];
    [| discriminate].
  destruct (truthy details); unfold lift, mret, M_ret.
  - intros [= E _]. right. eauto.
  - intros [= <- _]. left. reflexivity.
Qed.

Lemma resolve_frame http info st info' st' k :
  resolve http info st = (Ok info', st') ->
  k ∉ resolver_keys -> info' !! k = info !! k.
Proof.
  intros H Hk. apply resolve_cases in H as [-> | [details H]]; [reflexivity |].
  apply apply_details_result in H as [H _]. auto.
Qed.

Lemma resolve_linked http info st r st' :
  resolve http info st = (r, st') -> linked st' = linked st.
Proof.
  unfold resolve. destruct (_ && _); [| intros [= _ <-]; reflexivity].
  rewrite lift_bind. destruct (as_str _) as [title|e]; [| intros [= _ <-]; reflexivity].
  rewrite lift_bind.
  destruct (as_optional_str _) as [season|e]; [| intros [= _ <-]; reflexivity].
  unfold mbind, M_bind.
  destruct (_get_bangumi_details http title season st) as [[details|e] st1] eqn:E;
    apply get_bangumi_details_step in E as [Hl _].
  - destruct (truthy details); unfold lift, mret, M_ret; intros [= _ <-]; exact Hl.
  - intros [= _ <-]. exact Hl.
Qed.

(** Lines 216-236 write nothing but 标题, 季数 and [bangumi_eps]. The
    season is kept, or it was the text 1 and becomes the text of a number
    from 1 to 10. Either the record is returned as it came, or its title
    is a stripped text and [bangumi_eps] is set. *)
Theorem resolve_writes_three_keys
        (http : world) (info : pydict) (st : state) (info' : pydict) (st' : state) :
  resolve http info st = (Ok info', st') ->
  (forall k, k ∉ resolver_keys -> info' !! k = info !! k)
  /\ (info' !! "季数" = info !! "季数" \/
      (info !! "季数" = Some (VStr (py "1")) /\
       exists n, (1 <= n <= 10)%Z /\ info' !! "季数" = Some (VStr (str_of_int n))))
  /\ (info' = info \/
      exists title,
        info' !! "标题" = Some (VStr title)
        /\ (forall c, head title = Some c -> is_space c = false)
        /\ (forall c, last title = Some c -> is_space c = false)
        /\ is_Some (info' !! "bangumi_eps")).
Proof.
  intros H. apply resolve_cases in H as [-> | [details H]].
  { split; [reflexivity |]. split; left; reflexivity. }
  apply apply_details_result in H as (Hframe & Hseason & (t & Ht) & Heps).
  split; [exact Hframe |]. split; [exact Hseason |]. right.
  exists (strip (re_sub season_strip_re [] t)).
  destruct (strip_ends (re_sub season_strip_re [] t)) as [Hh Hl]. auto.
Qed.

Lemma resolve_writes_three_keys_witness :
  let found : world := fun _ req =>
    match req with
    | SearchSubject _ =>
        Response 200 (Some (VDict [(py "list", VList [VDict [(py "id", VInt 7)]])]))
    | GetSubject _ =>
        Response 200 (Some (VDict [(py "name_cn", VStr (py "某番 第二季")); (py "eps", VInt 12)]))
    | GetEpisodes _ => Response 200 (Some (VDict [(py "data", VList [])]))
    end in
  let info : pydict :=
    list_to_map [("标题", VStr (py "Mou Ban")); ("季数", VStr (py "1"));
                 ("集数", VStr (py "05"))] in
  let info' : pydict :=
    list_to_map [("标题", VStr (py "某番")); ("季数", VStr (py "2"));
                 ("集数", VStr (py "05")); ("bangumi_eps", VInt 12)] in
  (resolve found info initial_state).1 = Ok info'
  /\ (forall k, k ∉ resolver_keys -> info' !! k = info !! k)
  /\ (info' !! "季数" = info !! "季数" \/
      (info !! "季数" = Some (VStr (py "1")) /\
       exists n, (1 <= n <= 10)%Z /\ info' !! "季数" = Some (VStr (str_of_int n))))
  /\ (info' = info \/
      exists title,
        info' !! "标题" = Some (VStr title)
        /\ (forall c, head title = Some c -> is_space c = false)
        /\ (forall c, last title = Some c -> is_space c = false)
        /\ is_Some (info' !! "bangumi_eps")).
Proof.
  intros found info info'.
  assert (E1 : (resolve found info initial_state).1 = Ok info') by reflexivity.
  split; [exact E1 |].
  apply (resolve_writes_three_keys found info initial_state info'
           (resolve found info initial_state).2).
  rewrite <- E1. apply surjective_pairing.
Defined.

(** ** [process_directory]: what reaches the linking step *)

Lemma process_directory_links patterns http stems :
  forall st r st',
    process_directory patterns http stems st = (r, st') ->
    exists recs,
      linked st' = linked st ++ recs /\
      Forall2 (fun stem rec =>
                 exists info, parse_filename patterns stem = Ok info /\
                              forall k, k ∉ resolver_keys -> rec !! k = info !! k)
              (take (length recs) stems) recs /\
      match r with
      | Ok _ => length recs = length stems
      | Raise _ => (length recs < length stems)%nat
      end.
Proof.
  induction stems as [| stem stems IH]; intros st r st' H; cbn [process_directory] in H.
  { unfold mret, M_ret in H. inversion H; subst.
    exists []. cbn. rewrite app_nil_r. repeat split; constructor. }
  unfold process_file in H. unfold mbind at 1, M_bind at 1 in H.
  rewrite lift_bind in H.
  destruct (parse_filename patterns stem) as [info|e] eqn:Hparse.
  2:{ inversion H; subst. exists []. cbn. rewrite app_nil_r.
      repeat split; [constructor | lia]. }
  unfold mbind, M_bind in H.
  destruct (resolve http info st) as [[info'|e] st1] eqn:E.
  2:{ inversion H; subst. exists []. cbn.
      rewrite app_nil_r, (resolve_linked _ _ _ _ _ E).
      repeat split; [constructor | lia]. }
  unfold create_hard_link in H.
  apply IH in H as (recs & Hl & Hall & Hr). cbn [linked] in Hl.
  exists (info' :: recs). split; [| split].
  - rewrite Hl, (resolve_linked _ _ _ _ _ E), <- app_assoc. reflexivity.
  - cbn [length take]. constructor; [| exact Hall].
    exists info. split; [exact Hparse |]. intros k Hk.
    exact (resolve_frame _ _ _ _ _ k E Hk).
  - cbn [length]. destruct r; lia.
Qed.

(** Over a run of [process_directory] (lines 210-239) the files reach the
    linking step one by one in the order of the scan; the record of each
    is its parsed record outside 标题, 季数 and [bangumi_eps]. A run
    that returns has linked every file; a run that an exception ends has
    linked only the files before the one that raised. *)
Theorem files_are_linked_in_order
        (patterns : PatternSet) (http : world) (stems : list pystr) (st : state) :
  exists recs,
    linked (process_directory patterns http stems st).2 = linked st ++ recs /\
    Forall2 (fun stem rec =>
               exists info, parse_filename patterns stem = Ok info /\
                            forall k, k ∉ resolver_keys -> rec !! k = info !! k)
            (take (length recs) stems) recs /\
    match (process_directory patterns http stems st).1 with
    | Ok _ => length recs = length stems
    | Raise _ => (length recs < length stems)%nat
    end.
Proof.
  destruct (process_directory patterns http stems st) as [r st'] eqn:E.
  exact (process_directory_links _ _ _ _ _ _ E).
Qed.

(** ** What reaches the record from each step of [parse_filename] *)

Lemma title_season_groups s m :
  re_search title_season_re s = Some m ->
  exists title season,
    group m 1 = Ok (VStr title) /\ group m 2 = Ok (VStr season) /\
    season <> [] /\ Forall (fun c => is_digit c = true) season.
Proof.
  unfold re_search. intros E.
  assert (Hs : sure_groups title_season_re = [1; 2]%nat) by reflexivity.
  destruct (group_of_sure _ _ _ _ _ 0 E) as (t & _ & G1 & _);
    [rewrite Hs; left |].
  destruct (group_of_sure _ _ _ _ _ 1 E) as (se & body & G2 & Hin & Hm);
    [rewrite Hs; right; left |].
  exists t, se. split; [exact G1 |]. split; [exact G2 |].
  change (group_bodies title_season_re)
    with [(1%nat, Star false (Chr (fun c => negb (c =? ch "]"))));
          (2%nat, Plus true (Chr is_digit))] in Hin.
  rewrite !elem_of_cons, elem_of_nil in Hin.
  destruct Hin as [Hin | [Hin | []]]; inversion Hin; subst body.
  apply matches_Plus_Chr in Hm. exact Hm.
Qed.

Lemma strip_digits w : Forall (fun c => is_digit c = true) w -> strip w = w.
Proof.
  intros H. apply strip_id; intros c Hc.
  - destruct w as [| d w]; [discriminate |]. injection Hc as ->.
    apply Forall_cons in H as [H _]. apply digit_facts in H. tauto.
  - apply last_Some in Hc as [l' ->]. apply Forall_app in H as [_ H].
    apply Forall_cons in H as [H _]. apply digit_facts in H. tauto.
Qed.

(** A title and a season read from the bracket of step 1 (lines 84-87)
    are final: the title is group 1 stripped and the season is the
    digits of group 2 as they are written, leading zeros included,
    whatever the rules of the Pattern Set find later in the name. *)
Theorem bracket_title_and_season_are_final
        (patterns : PatternSet) (stem : pystr) (m : re_match) (info : pydict) :
  re_search title_season_re stem = Some m ->
  parse_filename patterns stem = Ok info ->
  exists title season,
    group m 1 = Ok (VStr title) /\ group m 2 = Ok (VStr season)
    /\ info !! "标题" = Some (VStr (strip title))
    /\ info !! "季数" = Some (VStr season)
    /\ season <> [] /\ Forall (fun c => is_digit c = true) season.
Proof.
  intros Hm Hparse.
  destruct (title_season_groups _ _ Hm) as (title & season & G1 & G2 & Hne & Hd).
  exists title, season. split; [exact G1 |]. split; [exact G2 |].
  apply parse_filename_stages in Hparse
    as (info1 & w1 & info2 & w2 & info3 & w3 & info4 & S1 & S2 & S3 & S4 & S5).
  apply tech_blocks_extend in S2.
  unfold title_season_stage in S1. rewrite Hm, G1, G2 in S1.
  cbn [mbind result_bind str_strip] in S1. rewrite (strip_digits _ Hd) in S1.
  injection S1 as <- _.
  assert (T2 : info2 !! "标题" = Some (VStr (strip title))).
  { rewrite (tech_extends_other _ _ _ S2);
      [| discriminate | intros H; apply tech_fields_not in H; tauto].
    rewrite lookup_insert_ne by discriminate. apply lookup_insert_eq. }
  assert (N2 : info2 !! "季数" = Some (VStr season)).
  { rewrite (tech_extends_other _ _ _ S2);
      [| discriminate | intros H; apply tech_fields_not in H; tauto].
    apply lookup_insert_eq. }
  split; [| split; [| auto]].
  - rewrite (defaults_stage_frame _ _ _ S5) by discriminate.
    destruct (title_stage_title _ _ _ S4) as [[Hn _] | [_ ->]];
      rewrite (episode_stage_frame _ _ _ _ _ _ S3) in * by discriminate;
      [congruence | exact T2].
  - destruct (defaults_stage_season _ _ S5) as [[Hn _] | [_ ->]];
      rewrite (title_stage_frame _ _ _ "季数" S4) in * by discriminate;
      (destruct (episode_stage_season _ _ _ _ _ S3) as [E | [E _]];
       [rewrite E in * | congruence]); [congruence | exact N2].
Qed.

Lemma bracket_title_and_season_are_final_witness :
  let stem := py "[Show Season 02] S03E04 [1080p]" in
  let m := {| m_pre := []; m_text := py "[Show Season 02]";
              m_groups := [Some (py "Show"); Some (py "02")];
              m_post := py " S03E04 [1080p]" |} in
  let info : pydict :=
    list_to_map
      [ ("字幕组", VNone); ("标题", VStr (py "Show")); ("季数", VStr (py "02"));
        ("集数", VStr (py "04")); ("分辨率", VStr (py "1080p")); ("视频编码", VNone);
        ("音频编码", VNone); ("字幕", VNone); ("备注", VNone) ] in
  re_search title_season_re stem = Some m
  /\ parse_filename Rules.grouped stem = Ok info
  /\ exists title season,
       group m 1 = Ok (VStr title) /\ group m 2 = Ok (VStr season)
       /\ info !! "标题" = Some (VStr (strip title))
       /\ info !! "季数" = Some (VStr season)
       /\ season <> [] /\ Forall (fun c => is_digit c = true) season.
Proof.
  intros stem m info.
  assert (Hm : re_search title_season_re stem = Some m) by reflexivity.
  assert (Hp : parse_filename Rules.grouped stem = Ok info) by reflexivity.
  split; [exact Hm |]. split; [exact Hp |].
  exact (bracket_title_and_season_are_final Rules.grouped stem m info Hm Hp).
Defined.

(** With no [episode] rule in the Pattern Set, [parse_filename] returns
    only when the [season_episode] rule finds a match in the working
    string, that is in the name after step 1 has cut its bracket and step
    2 the segments its rules took: every record it returns has the
    episode number read there. For any other name the default [''] of
    line 123 matches and has no group 1 to read. *)
Theorem missing_episode_rule_needs_season_episode
        (patterns : PatternSet) (stem : pystr) (info : pydict) :
  patterns !! "episode" = None ->
  parse_filename patterns stem = Ok info ->
  exists info1 w1 info2 work_str m raw n,
    title_season_stage info_init stem = Ok (info1, w1)
    /\ tech_stage patterns info1 w1 = Ok (info2, work_str)
    /\ pat_search (rule_or_empty patterns "season_episode") work_str = Ok (Some m)
    /\ group m 2 = Ok raw /\ py_int raw = Ok n
    /\ info !! "集数" = Some (VStr (format_02d n)).
Proof.
  intros Hrule Hparse.
  apply parse_filename_stages in Hparse
    as (info1 & w1 & info2 & w2 & info3 & w3 & info4 & S1 & S2 & S3 & S4 & S5).
  pose proof (episode_None_before_step3 _ _ _ _ _ _ S1 S2) as Hep.
  rewrite (defaults_stage_frame _ _ _ S5), (title_stage_frame _ _ _ _ S4)
    by discriminate.
  destruct (pat_search (rule_or_empty patterns "season_episode") w2)
    as [[m|]|e] eqn:Hse.
  - unfold episode_stage in S3. pose proof Hep as Hep'. apply getitem_Ok in Hep'.
    rewrite Hep', Hse in S3. cbn [mbind result_bind is_None] in S3.
    bind_inv S3 as cur Hcur. bind_inv S3 as info' Hinfo'.
    bind_inv S3 as g2 Hg2. bind_inv S3 as n2 Hn2. injection S3 as <- _.
    exists info1, w1, info2, w2, m, g2, n2. rewrite lookup_insert_eq. auto 10.
  - rewrite (episode_stage_missing_episode_rule _ _ _ Hrule Hep Hse) in S3.
    discriminate.
  - unfold episode_stage in S3. apply getitem_Ok in Hep.
    rewrite Hep, Hse in S3. discriminate.
Qed.

Lemma missing_episode_rule_needs_season_episode_witness :
  let patterns : PatternSet :=
    list_to_map
      [ ("resolution", compiled "(\d{3,4}p)" (Group 1 Rules.resolution_re));
        ("season_episode", Rules.season_episode) ] in
  let stem := py "Show S01[1080p]E02" in
  let info : pydict :=
    list_to_map
      [ ("字幕组", VNone); ("标题", VStr (py "Show")); ("季数", VStr (py "1"));
        ("集数", VStr (py "02")); ("分辨率", VStr (py "1080p")); ("视频编码", VNone);
        ("音频编码", VNone); ("字幕", VNone); ("备注", VNone) ] in
  patterns !! "episode" = None
  /\ parse_filename patterns (py "Show - 05") = Raise IndexError
  /\ pat_search (rule_or_empty patterns "season_episode") stem = Ok None
  /\ parse_filename patterns stem = Ok info
  /\ exists info1 w1 info2 work_str m raw n,
       title_season_stage info_init stem = Ok (info1, w1)
       /\ tech_stage patterns info1 w1 = Ok (info2, work_str)
       /\ pat_search (rule_or_empty patterns "season_episode") work_str = Ok (Some m)
       /\ group m 2 = Ok raw /\ py_int raw = Ok n
       /\ info !! "集数" = Some (VStr (format_02d n)).
Proof.
  intros patterns stem info.
  assert (Hrule : patterns !! "episode" = None) by reflexivity.
  assert (Hp : parse_filename patterns stem = Ok info) by reflexivity.
  split; [exact Hrule |]. split; [reflexivity |]. split; [reflexivity |].
  split; [exact Hp |].
  exact (missing_episode_rule_needs_season_episode patterns stem info Hrule Hp).
Defined.

Lemma try_keys_keeps patterns field content :
  field <> "备注" ->
  forall keys,
    (forall key p,
        (key, field) ∈ keys -> key <> "source" -> patterns !! key = Some p ->
        pat_falsy p = true) ->
    forall info info' b,
      try_keys patterns keys content info = Ok (info', b) ->
      info' !! field = info !! field.
Proof.
  intros Hfield keys.
  induction keys as [| [key0 field0] keys IH]; intros Hk info info' b H;
    cbn [try_keys] in H.
  { inversion H. reflexivity. }
  assert (Hrest : try_keys patterns keys content info = Ok (info', b) ->
                  info' !! field = info !! field).
  { apply IH. intros key p Hin. apply Hk. right. exact Hin. }
  destruct (patterns !! key0) as [p|] eqn:Hp; [| auto].
  destruct (pat_falsy p) eqn:Hf; [auto |].
  bind_inv H as found Hfound. destruct found as [m|]; [| auto].
  bind_inv H as g1 Hg1. bind_inv H as val Hval. bind_inv H as info1 Hinfo1.
  inversion H; subst info1 b; clear H.
  destruct (String.eqb key0 "source") eqn:Hsrc.
  - unfold remarks_append in Hinfo1. bind_inv Hinfo1 as cur Hcur.
    destruct cur; try discriminate. inversion Hinfo1; subst info'.
    apply lookup_insert_ne. congruence.
  - bind_inv Hinfo1 as cur Hcur. inversion Hinfo1; subst info'.
    destruct (is_None cur); [| reflexivity].
    apply lookup_insert_ne. intros ->. apply String.eqb_neq in Hsrc.
    rewrite (Hk key0 p) in Hf; [discriminate | left | exact Hsrc | exact Hp].
Qed.

Lemma tech_blocks_keep patterns field :
  field <> "备注" ->
  (forall key p,
      (key, field) ∈ tech_keys -> key <> "source" -> patterns !! key = Some p ->
      pat_falsy p = true) ->
  forall blocks info w info' w',
    for_each (tech_block patterns) (info, w) blocks = Ok (info', w') ->
    info' !! field = info !! field.
Proof.
  intros Hfield Hk blocks.
  induction blocks as [| block blocks IH]; intros info w info' w' H;
    cbn [for_each] in H.
  { inversion H. reflexivity. }
  bind_inv H as st1 Hst1. destruct st1 as [info1 w1].
  rewrite (IH _ _ _ _ H). unfold tech_block in Hst1.
  bind_inv Hst1 as content Hcontent. destruct content; try discriminate.
  bind_inv Hst1 as r Hr. destruct r as [info2 matched]. inversion Hst1; subst.
  eapply try_keys_keeps; eauto.
Qed.

Lemma tech_keys_field_key key field key0 :
  (key, field) ∈ tech_keys -> key <> "source" -> (key0, field) ∈ tech_keys ->
  key0 = key /\ field ∈ tech_fields.
Proof.
  unfold tech_keys, tech_fields. rewrite !elem_of_cons, !elem_of_nil.
  intros H Hs H0.
  repeat destruct H as [H | H]; try contradiction; inversion H; subst;
    try (exfalso; apply Hs; reflexivity);
    (repeat destruct H0 as [H0 | H0]; try contradiction; inversion H0; subst);
    (split; [reflexivity | tauto]).
Qed.

(** A technical field is written by its own rule alone (lines 98-107):
    while the Pattern Set has no rule, or an empty rule, under the key of
    a field, the field of every record is [None], whatever the other
    rules find in the segments. *)
Theorem field_needs_its_rule
        (patterns : PatternSet) (stem : pystr) (info : pydict) (key field : string) :
  (key, field) ∈ tech_keys -> key <> "source" ->
  (forall p, patterns !! key = Some p -> pat_falsy p = true) ->
  parse_filename patterns stem = Ok info ->
  info !! field = Some VNone.
Proof.
  intros Hin Hsrc Hrule Hparse.
  destruct (tech_keys_field_key key field key Hin Hsrc Hin) as [_ Hf].
  apply tech_fields_not in Hf as (N1 & N2 & N3 & N4).
  apply parse_filename_stages in Hparse
    as (info1 & w1 & info2 & w2 & info3 & w3 & info4 & S1 & S2 & S3 & S4 & S5).
  rewrite (defaults_stage_frame _ _ _ S5), (title_stage_frame _ _ _ _ S4),
    (episode_stage_frame _ _ _ _ _ _ S3) by assumption.
  unfold tech_stage in S2.
  assert (Hk : forall key0 p,
             (key0, field) ∈ tech_keys -> key0 <> "source" ->
             patterns !! key0 = Some p -> pat_falsy p = true).
  { intros key0 p H0 _ Hp.
    destruct (tech_keys_field_key key field key0 Hin Hsrc H0) as [-> _]. eauto. }
  rewrite (tech_blocks_keep patterns field N4 Hk _ _ _ _ _ S2).
  rewrite (title_season_stage_frame _ _ _ _ _ S1) by assumption.
  unfold tech_keys in Hin. rewrite !elem_of_cons, elem_of_nil in Hin.
  repeat destruct Hin as [Hin | Hin]; try contradiction; inversion Hin;
    try contradiction; reflexivity.
Qed.

Lemma field_needs_its_rule_witness :
  let stem := py "[SubsPlease][1080p] Show - 05" in
  let info : pydict :=
    list_to_map
      [ ("字幕组", VNone); ("标题", VStr (py "Show")); ("季数", VStr (py "1"));
        ("集数", VStr (py "05")); ("分辨率", VStr (py "1080p")); ("视频编码", VNone);
        ("音频编码", VNone); ("字幕", VNone); ("备注", VNone) ] in
  ("group", "字幕组") ∈ tech_keys
  /\ Rules.grouped !! "group" = None
  /\ parse_filename Rules.grouped stem = Ok info
  /\ info !! "字幕组" = Some VNone.
Proof.
  intros stem info.
  assert (Hin : ("group", "字幕组") ∈ tech_keys).
  { unfold tech_keys. rewrite !elem_of_cons. tauto. }
  assert (Hnone : Rules.grouped !! "group" = None) by reflexivity.
  assert (Hp : parse_filename Rules.grouped stem = Ok info) by reflexivity.
  split; [exact Hin |]. split; [exact Hnone |]. split; [exact Hp |].
  apply (field_needs_its_rule Rules.grouped stem info "group" "字幕组" Hin);
    [discriminate | | exact Hp].
  intros p Hp'. rewrite Hnone in Hp'. discriminate.
Defined.

(** ** The answers the cache holds *)

Lemma get_bangumi_details_shaped http title season st r st' :
  cache_shaped st ->
  _get_bangumi_details http title season st = (r, st') ->
  cache_shaped st' /\
  forall v, r = Ok v -> v = VNone \/ exists id, scraped_shape id v.
Proof.
  intros Hinv. unfold _get_bangumi_details.
  destruct (api_cache st !! api_query_of title season) as [cached|] eqn:Hc.
  { intros [= <- <-]. split; [exact Hinv |]. intros v [= <-]. eapply Hinv; eauto. }
  destruct (scraping_run http (api_query_of title season) st)
    as (r0 & reqs & E & _ & Hr).
  rewrite E. destruct r0 as [details|e]; intros [= <- <-].
  - assert (Hd : details = VNone \/ exists id, scraped_shape id details).
    { destruct Hr as [-> | (id & _ & Hs)]; [left; reflexivity | right; eauto]. }
    split; [| intros v [= <-]; exact Hd].
    intros q v. cbn [api_cache sent].
    destruct (decide (api_query_of title season = q)) as [<- | Hne].
    + rewrite lookup_insert_eq. intros [= <-]. exact Hd.
    + rewrite lookup_insert_ne by exact Hne. apply Hinv.
  - split; [exact Hinv | discriminate].
Qed.

Lemma cache_shaped_initial : cache_shaped initial_state.
Proof. intros q v H. cbn in H. rewrite lookup_empty in H. discriminate. Qed.

(** While the cache holds only answers of the client, the two defaults
    of lines 221 and 236 are never used. Lines 216-236 end in one of three
    ways: the title is unusable and nothing happens; the lookup for the
    title and season of the record answers [None] and the record is left
    as it is; or the lookup answers a dictionary of the client, which is
    then the entry of the cache under the query, and the record takes its
    title from the [name_cn] of that answer and its [bangumi_eps] from the
    [total_episodes] of that answer, both of them present. The cache
    stays so. *)
Theorem answer_keys_are_always_found
        (http : world) (info : pydict) (st : state) (info' : pydict) (st' : state) :
  cache_shaped st ->
  resolve http info st = (Ok info', st') ->
  cache_shaped st' /\
  ((truthy (dict_get info "标题")
    && negb (is_str (dict_get info "标题") unknown_title) = false
    /\ info' = info /\ st' = st)
   \/ (exists title season,
         info !! "标题" = Some (VStr title)
         /\ as_optional_str (dict_get info "季数") = Ok season
         /\ _get_bangumi_details http title season st = (Ok VNone, st')
         /\ info' = info)
   \/ (exists title season id details name total,
         info !! "标题" = Some (VStr title)
         /\ as_optional_str (dict_get info "季数") = Ok season
         /\ _get_bangumi_details http title season st = (Ok details, st')
         /\ api_cache st' !! api_query_of title season = Some details
         /\ scraped_shape id details
         /\ py_getitem details "name_cn" = Ok (VStr name)
         /\ py_getitem details "total_episodes" = Ok total
         /\ info' !! "标题" = Some (VStr (strip (re_sub season_strip_re [] name)))
         /\ info' !! "bangumi_eps" = Some total)).
Proof.
  intros Hinv. unfold resolve.
  destruct (truthy (dict_get info "标题")
            && negb (is_str (dict_get info "标题") unknown_title)) eqn:Hguard;
    [| intros [= <- <-]; split; [exact Hinv | left; auto]].
  rewrite lift_bind. destruct (as_str _) as [title|e] eqn:Htitle; [| discriminate].
  assert (Ht : info !! "标题" = Some (VStr title)).
  { apply dict_get_str. destruct (dict_get info "标题"); try discriminate.
    injection Htitle as ->. reflexivity. }
  rewrite lift_bind.
  destruct (as_optional_str _) as [season|e] eqn:Hseason; [| discriminate].
  unfold mbind, M_bind.
  destruct (_get_bangumi_details http title season st) as [[details|e] st1] eqn:E;
    [| discriminate].
  destruct (get_bangumi_details_shaped _ _ _ _ _ _ Hinv E) as [Hinv1 Hd].
  assert (Hcache : api_cache st1 !! api_query_of title season = Some details).
  { pose proof (get_bangumi_details_step _ _ _ _ _ _ E) as [_ H].
    destruct (api_cache st !! api_query_of title season) as [cached|] eqn:Hq.
    - destruct H as [[= <-] ->]. exact Hq.
    - destruct H as [_ ->]. apply lookup_insert_eq. }
  destruct (Hd details eq_refl) as [-> | [id Hs]].
  { cbn [truthy]. unfold mret, M_ret. intros [= <- <-].
    split; [exact Hinv1 |]. right. left. exists title, season. auto. }
  destruct Hs as (name & jp & year & total & eps & summary & image & -> & Heps).
  cbn [truthy]. unfold lift. intros [= H <-]. split; [exact Hinv1 |]. right. right.
  unfold apply_details in H. bind_inv H as local Hlocal.
  change (py_get (VDict _) "name_cn" local) with (Ok name) in H.
  cbn [mbind result_bind] in H. bind_inv H as t Ht'.
  destruct name; try discriminate. injection Ht' as ->.
  change (py_get (VDict _) "total_episodes" (VStr (py "??"))) with (Ok total) in H.
  cbn [mbind result_bind] in H. injection H as <-.
  eexists title, season, id, _, t, total.
  split; [exact Ht |]. split; [reflexivity |]. split; [exact E |].
  split; [exact Hcache |]. split; [unfold scraped_shape; eauto 12 |].
  split; [reflexivity |]. split; [reflexivity |].
  split; [rewrite lookup_insert_ne by discriminate |]; apply lookup_insert_eq.
Qed.

Lemma answer_keys_are_always_found_witness :
  let found : world := fun _ req =>
    match req with
    | SearchSubject _ =>
        Response 200 (Some (VDict [(py "list", VList [VDict [(py "id", VInt 7)]])]))
    | GetSubject _ =>
        Response 200 (Some (VDict [(py "name", VStr (py "某番 第二季"))]))
    | GetEpisodes _ => Response 200 (Some (VDict [(py "data", VList [])]))
    end in
  let info : pydict :=
    list_to_map [("标题", VStr (py "Mou Ban")); ("季数", VStr (py "1"))] in
  let info' : pydict :=
    list_to_map [("标题", VStr (py "某番")); ("季数", VStr (py "2"));
                 ("bangumi_eps", VInt 0)] in
  let st' := (resolve found info initial_state).2 in
  cache_shaped initial_state
  /\ (resolve found info initial_state).1 = Ok info'
  /\ cache_shaped st'
  /\ ((truthy (dict_get info "标题")
       && negb (is_str (dict_get info "标题") unknown_title) = false
       /\ info' = info /\ st' = initial_state)
      \/ (exists title season,
            info !! "标题" = Some (VStr title)
            /\ as_optional_str (dict_get info "季数") = Ok season
            /\ _get_bangumi_details found title season initial_state = (Ok VNone, st')
            /\ info' = info)
      \/ (exists title season id details name total,
            info !! "标题" = Some (VStr title)
            /\ as_optional_str (dict_get info "季数") = Ok season
            /\ _get_bangumi_details found title season initial_state = (Ok details, st')
            /\ api_cache st' !! api_query_of title season = Some details
            /\ scraped_shape id details
            /\ py_getitem details "name_cn" = Ok (VStr name)
            /\ py_getitem details "total_episodes" = Ok total
            /\ info' !! "标题" = Some (VStr (strip (re_sub season_strip_re [] name)))
            /\ info' !! "bangumi_eps" = Some total)).
Proof.
  intros found info info' st'.
  assert (E1 : (resolve found info initial_state).1 = Ok info') by reflexivity.
  split; [exact cache_shaped_initial |]. split; [exact E1 |].
  apply (answer_keys_are_always_found found info initial_state info' st'
           cache_shaped_initial).
  subst st'. rewrite <- E1. apply surjective_pairing.
Defined.

(** ** [clean_filename]: runs of white space *)

(** A greedy run of white space before a continuation that cannot fail
    takes all the white space there is. *)
Lemma star_space_all {A : Type} (k : pystr -> caps -> option A) :
  (forall s c, k s c <> None) ->
  forall s c, rmatch (Star true (Chr is_space)) s c k = k (lstrip s) c.
Proof.
  intros Hk s c. cbn [rmatch].
  match goal with
  | |- ?loop (length s) s c = _ => set (L := loop)
  end.
  assert (L0 : forall s c, L O s c = k s c) by reflexivity.
  assert (LS : forall fuel s c,
             L (S fuel) s c =
             match match s with
                   | x :: s' =>
                       if is_space x
                       then if (length s' <? length s)%nat then L fuel s' c else None
                       else None
                   | [] => None
                   end with
             | Some a => Some a
             | None => k s c
             end) by reflexivity.
  clearbody L.
  assert (H : forall fuel s c, (length s <= fuel)%nat -> L fuel s c = k (lstrip s) c).
  { induction fuel as [| fuel IH]; intros s0 c0 Hlen.
    - destruct s0; [| simpl in Hlen; lia]. rewrite L0. reflexivity.
    - rewrite LS. destruct s0 as [| x s']; [reflexivity |].
      cbn [lstrip]. destruct (is_space x); [| reflexivity].
      assert ((length s' <? length (x :: s'))%nat = true) as ->
        by (apply Nat.ltb_lt; simpl; lia).
      rewrite IH by (simpl in Hlen; lia).
      destruct (k (lstrip s') c0) eqn:E; [reflexivity |]. exfalso. eapply Hk; eauto. }
  apply H. lia.
Qed.

Lemma match_here_spaces s :
  match_here spaces_re false s =
  match spaces_here s with
  | Some rest => Some (rest, [])
  | None => None
  end.
Proof.
  unfold match_here, spaces_re. cbn [cat].
  change (rmatch (Seq ?r1 ?r2) ?s0 ?c ?k)
    with (rmatch r1 s0 c (fun s' c' => rmatch r2 s' c' k)).
  destruct s as [| a [| b rest]]; cbn [rmatch spaces_here].
  - reflexivity.
  - destruct (is_space a); reflexivity.
  - change (rmatch (Seq ?r1 ?r2) ?s0 ?c ?k)
      with (rmatch r1 s0 c (fun s' c' => rmatch r2 s' c' k)).
    cbn [rmatch].
    destruct (is_space a); [| reflexivity]. destruct (is_space b); [| reflexivity].
    cbn [andb]. apply (star_space_all (fun s' c => Some (s', c))). discriminate.
Qed.

Lemma spaces_here_None a t :
  spaces_here (a :: t) = None -> is_space a && begins_space t = false.
Proof.
  destruct t as [| b rest]; cbn [spaces_here begins_space].
  - intros _. apply andb_false_r.
  - destruct (is_space a && is_space b); [discriminate | reflexivity].
Qed.

Lemma begins_space_app s t : s <> [] -> begins_space (s ++ t) = begins_space s.
Proof. destruct s; [contradiction | reflexivity]. Qed.

(** Where [re.search] finds [spaces_re]: at the first two neighbours that
    are both white space; the match runs to the end of the white space. *)
Lemma search_spaces s :
  forall pre,
    match search_from spaces_re false pre s with
    | Some m =>
        exists skipped a b rest,
          s = skipped ++ a :: b :: rest /\ is_space a = true /\ is_space b = true /\
          m_pre m = rev pre ++ skipped /\ m_post m = lstrip rest /\
          double_space (skipped ++ [a]) = false
    | None => double_space s = false
    end.
Proof.
  induction s as [| x t IH]; intros pre; cbn [search_from];
    rewrite match_here_spaces.
  { reflexivity. }
  destruct (spaces_here (x :: t)) as [post|] eqn:E.
  - destruct t as [| b rest]; [discriminate |]. cbn [spaces_here] in E.
    destruct (is_space x) eqn:Hx; [| discriminate].
    destruct (is_space b) eqn:Hb; [| discriminate]. injection E as <-.
    exists [], x, b, rest. cbn [app m_pre m_post double_space begins_space].
    rewrite app_nil_r, andb_false_r. auto 10.
  - apply spaces_here_None in E. specialize (IH (x :: pre)).
    destruct (search_from spaces_re false (x :: pre) t) as [m|].
    + destruct IH as (skipped & a & b & rest & -> & Ha & Hb & Hpre & Hpost & Hd).
      exists (x :: skipped), a, b, rest. cbn [rev] in Hpre. rewrite <- app_assoc in Hpre.
      repeat split; try assumption. cbn [app double_space]. rewrite Hd, orb_false_r.
      destruct skipped as [| y sk]; cbn [app begins_space] in *; [| exact E].
      rewrite Ha in E. rewrite Ha. exact E.
    + cbn [double_space]. rewrite IH, E. reflexivity.
Qed.

Lemma never_empty_spaces : never_empty spaces_re.
Proof.
  intros w H. unfold spaces_re in H. cbn [cat] in H.
  apply matches_Seq_inv in H as (w1 & w2 & -> & M1 & _).
  apply matches_Chr_inv in M1 as (c & -> & _). discriminate.
Qed.

Lemma double_space_bridge skipped a out :
  double_space (skipped ++ [a]) = false -> is_space a = true ->
  double_space out = false -> begins_space out = false ->
  double_space (skipped ++ 32 :: out) = false.
Proof.
  intros Hd Ha Ho Hb. induction skipped as [| x sk IH]; cbn [app double_space] in *.
  - rewrite Ho, Hb. reflexivity.
  - apply orb_false_elim in Hd as [Hx Hd]. rewrite (IH Hd), orb_false_r.
    destruct sk as [| y sk]; cbn [app begins_space] in *; [| exact Hx].
    rewrite Ha in Hx. rewrite andb_true_r in *. exact Hx.
Qed.

Lemma lstrip_begins s : begins_space (lstrip s) = false.
Proof.
  destruct (lstrip s) as [| c t] eqn:E; [reflexivity |].
  apply (lstrip_head s c). rewrite E. reflexivity.
Qed.

Lemma lstrip_length s : (length (lstrip s) <= length s)%nat.
Proof.
  destruct (lstrip_suffix s) as [pre E]. rewrite E at 2. rewrite length_app. lia.
Qed.

(** What [re.sub] makes of the runs: no two neighbours of the result are
    both white space, and it begins with white space only if the text
    did. *)
Lemma scan_spaces :
  forall fuel s ms tl,
    (length s < fuel)%nat ->
    scan fuel spaces_re false s = (ms, tl) ->
    double_space (concat (map (fun m => m_pre m ++ [32]) ms) ++ tl) = false /\
    (begins_space s = false ->
     begins_space (concat (map (fun m => m_pre m ++ [32]) ms) ++ tl) = false).
Proof.
  induction fuel as [| fuel IH]; intros s ms tl Hlen H; [lia |].
  cbn [scan] in H. pose proof (search_spaces s []) as G.
  destruct (search_from spaces_re false [] s) as [m|] eqn:E.
  2:{ inversion H; subst. cbn [map concat app]. auto. }
  destruct G as (skipped & a & b & rest & Hs & Ha & Hb & Hpre & Hpost & Hd).
  cbn [rev app] in Hpre.
  apply search_from_sound in E as (_ & _ & _ & M).
  apply never_empty_spaces in M.
  destruct (m_text m) as [| y text]; [contradiction |].
  destruct (scan fuel spaces_re false (m_post m)) as [ms' tl'] eqn:E'.
  inversion H; subst ms tl. clear H.
  apply IH in E' as [Ho Hbo].
  2:{ rewrite Hpost. pose proof (lstrip_length rest).
      apply (f_equal length) in Hs. rewrite length_app in Hs. simpl in Hs. lia. }
  rewrite Hpost in Hbo. specialize (Hbo (lstrip_begins rest)).
  cbn [map concat]. rewrite Hpre, <- !app_assoc. cbn [app]. split.
  - apply (double_space_bridge skipped a); assumption.
  - intros Hbs. subst s. destruct skipped as [| x sk]; cbn [app begins_space] in *.
    + congruence.
    + exact Hbs.
Qed.

Lemma re_sub_spaces s : double_space (re_sub spaces_re (py " ") s) = false.
Proof.
  unfold re_sub, scan_all.
  destruct (scan (2 * length s + 2) spaces_re false s) as [ms tl] eqn:E.
  apply scan_spaces in E as [H _]; [exact H | lia].
Qed.

Lemma double_space_suffix pre t : double_space (pre ++ t) = false -> double_space t = false.
Proof.
  induction pre as [| x pre IH]; cbn [app double_space]; [auto |].
  intros H. apply orb_false_elim in H as [_ H]. auto.
Qed.

Lemma double_space_true s :
  double_space s = true <->
  exists pre a b post, s = pre ++ a :: b :: post /\ is_space a = true /\ is_space b = true.
Proof.
  split.
  - induction s as [| x t IH]; cbn [double_space]; [discriminate |].
    intros H. apply orb_true_iff in H as [H | H].
    + apply andb_true_iff in H as [Hx Hb]. destruct t as [| y t]; [discriminate |].
      exists [], x, y, t. auto.
    + destruct (IH H) as (pre & a & b & post & -> & Ha & Hb).
      exists (x :: pre), a, b, post. auto.
  - intros (pre & a & b & post & -> & Ha & Hb).
    induction pre as [| x pre IH]; cbn [app double_space begins_space].
    + rewrite Ha, Hb. reflexivity.
    + rewrite IH. apply orb_true_r.
Qed.

Lemma double_space_rev s : double_space (rev s) = false -> double_space s = false.
Proof.
  intros H. destruct (double_space s) eqn:E; [| reflexivity].
  apply double_space_true in E as (pre & a & b & post & -> & Ha & Hb).
  assert (T : double_space (rev (pre ++ a :: b :: post)) = true); [| congruence].
  apply double_space_true. exists (rev post), b, a, (rev pre).
  rewrite rev_app_distr. cbn [rev]. rewrite <- !app_assoc. auto.
Qed.

Lemma double_space_strip s : double_space s = false -> double_space (strip s) = false.
Proof.
  intros H. unfold strip. apply double_space_rev. rewrite rev_involutive.
  destruct (lstrip_suffix (rev (lstrip s))) as [pre E].
  apply (double_space_suffix pre). rewrite <- E.
  apply double_space_rev. rewrite rev_involutive.
  destruct (lstrip_suffix s) as [pre' E'].
  apply (double_space_suffix pre'). rewrite <- E'. exact H.
Qed.

(** Line 34 leaves no run of white space: no two neighbours of a cleaned
    name are both white space. *)
Theorem clean_filename_single_spaced (filename : pystr) :
  double_space (clean_filename filename) = false.
Proof.
  unfold clean_filename. cbv zeta. apply double_space_strip, re_sub_spaces.
Qed.

Lemma search_from_Chr_none p s :
  Forall (fun c => p c = false) s ->
  forall pre, search_from (Chr p) false pre s = None.
Proof.
  induction 1 as [| x t Hx _ IH]; intros pre; cbn [search_from];
    unfold match_here; cbn [rmatch]; [reflexivity |].
  rewrite Hx. apply IH.
Qed.

Lemma re_sub_no_match r repl s : re_search r s = None -> re_sub r repl s = s.
Proof.
  unfold re_search, re_sub, scan_all. intros H.
  replace (2 * length s + 2)%nat with (S (2 * length s + 1)) by lia.
  cbn [scan]. rewrite H. reflexivity.
Qed.

Lemma search_spaces_none s : double_space s = false -> re_search spaces_re s = None.
Proof.
  intros H. unfold re_search. pose proof (search_spaces s []) as G.
  destruct (search_from spaces_re false [] s) as [m|]; [| reflexivity].
  destruct G as (skipped & a & b & rest & -> & Ha & Hb & _).
  assert (T : double_space (skipped ++ a :: b :: rest) = true); [| congruence].
  apply double_space_true. exists skipped, a, b, rest. auto.
Qed.

(** [clean_filename] changes nothing in a name that it has cleaned. *)
Theorem clean_filename_idempotent (filename : pystr) :
  clean_filename (clean_filename filename) = clean_filename filename.
Proof.
  set (t := clean_filename filename).
  assert (Hlegal : Forall (fun c => is_illegal c = false) t).
  { apply Forall_forall. intros c Hc. apply (clean_filename_chars filename c), Hc. }
  assert (Hd : double_space t = false).
  { unfold t, clean_filename. cbv zeta. apply double_space_strip, re_sub_spaces. }
  assert (Hends : (forall c, head t = Some c -> is_space c = false) /\
                  (forall c, last t = Some c -> is_space c = false)).
  { unfold t, clean_filename. cbv zeta. apply strip_ends. }
  unfold clean_filename at 1. cbv zeta.
  rewrite (re_sub_no_match illegal_re (py "_") t)
    by (apply search_from_Chr_none, Hlegal).
  rewrite (re_sub_no_match spaces_re (py " ") t) by (apply search_spaces_none, Hd).
  apply strip_id; apply Hends.
Qed.

(** Without the bracket of step 1 the season is the decimal text of a
    number, as [str(int(...))] writes it: the number read from group 1
    of the [season_episode] rule (line 119), or 1 (line 135). The season
    02 of a name is then kept as the text 2, while the bracket of step 1
    keeps it as 02. *)
Theorem season_without_bracket_is_canonical
        (patterns : PatternSet) (stem : pystr) (info : pydict) :
  re_search title_season_re stem = None ->
  parse_filename patterns stem = Ok info ->
  exists n,
    info !! "季数" = Some (VStr (str_of_int n)) /\
    (n = 1%Z \/
     exists work_str m raw,
       pat_search (rule_or_empty patterns "season_episode") work_str = Ok (Some m) /\
       group m 1 = Ok raw /\ py_int raw = Ok n).
Proof.
  intros Hnone Hparse.
  apply parse_filename_stages in Hparse
    as (info1 & w1 & info2 & w2 & info3 & w3 & info4 & S1 & S2 & S3 & S4 & S5).
  pose proof (episode_None_before_step3 _ _ _ _ _ _ S1 S2) as Hep.
  apply tech_blocks_extend in S2.
  unfold title_season_stage in S1. rewrite Hnone in S1. injection S1 as <- <-.
  assert (N2 : info2 !! "季数" = Some VNone).
  { rewrite (tech_extends_other _ _ _ S2);
      [reflexivity | discriminate | intros H; apply tech_fields_not in H; tauto]. }
  assert (N3 : info3 !! "季数" = Some VNone \/
               exists n m raw,
                 info3 !! "季数" = Some (VStr (str_of_int n)) /\
                 pat_search (rule_or_empty patterns "season_episode") w2 = Ok (Some m) /\
                 group m 1 = Ok raw /\ py_int raw = Ok n).
  { unfold episode_stage in S3. apply getitem_Ok in Hep. rewrite Hep in S3.
    cbn [mbind result_bind is_None] in S3. bind_inv S3 as se Hse.
    destruct se as [m|].
    - apply getitem_Ok in N2. rewrite N2 in S3. cbn [mbind result_bind is_None] in S3.
      bind_inv S3 as info' Hinfo'. bind_inv Hinfo' as g1 Hg1.
      bind_inv Hinfo' as n Hn. injection Hinfo' as <-.
      bind_inv S3 as g2 Hg2. bind_inv S3 as n2 Hn2. injection S3 as <- _.
      right. exists n, m, g1. rewrite lookup_insert_ne by discriminate.
      rewrite lookup_insert_eq. auto.
    - bind_inv S3 as ep Hepm. destruct ep as [m|].
      + bind_inv S3 as g1 Hg1. bind_inv S3 as n Hn. injection S3 as <- _.
        left. rewrite lookup_insert_ne by discriminate. exact N2.
      + injection S3 as <- _. left. exact N2. }
  rewrite <- (title_stage_frame _ _ _ "季数" S4) in N3 by discriminate.
  destruct (defaults_stage_season _ _ S5) as [[_ ->] | [Hne ->]].
  - exists 1%Z. split; [reflexivity | left; reflexivity].
  - destruct N3 as [N3 | (n & m & raw & -> & Hse & Hg & Hn)]; [contradiction |].
    exists n. split; [reflexivity |]. right. exists w2, m, raw. auto.
Qed.

Lemma season_without_bracket_is_canonical_witness :
  let stem := py "Show S02E03" in
  let info : pydict :=
    list_to_map
      [ ("字幕组", VNone); ("标题", VStr (py "Show")); ("季数", VStr (py "2"));
        ("集数", VStr (py "03")); ("分辨率", VNone); ("视频编码", VNone);
        ("音频编码", VNone); ("字幕", VNone); ("备注", VNone) ] in
  re_search title_season_re stem = None
  /\ parse_filename Rules.grouped stem = Ok info
  /\ exists n,
       info !! "季数" = Some (VStr (str_of_int n)) /\
       (n = 1%Z \/
        exists work_str m raw,
          pat_search (rule_or_empty Rules.grouped "season_episode") work_str = Ok (Some m) /\
          group m 1 = Ok raw /\ py_int raw = Ok n).
Proof.
  intros stem info.
  assert (Hn : re_search title_season_re stem = None) by reflexivity.
  assert (Hp : parse_filename Rules.grouped stem = Ok info) by reflexivity.
  split; [exact Hn |]. split; [exact Hp |].
  exact (season_without_bracket_is_canonical Rules.grouped stem info Hn Hp).
Defined.

(** ** A source that knows no title *)

Lemma search_subject_404 http q st :
  (exists body, http (length (requests st)) (SearchSubject q) = Response 404 body) ->
  search_subject http q st = (Ok VNone, sent st [SearchSubject q]).
Proof.
  intros [body H]. unfold search_subject, try_except.
  unfold mbind at 1, M_bind at 1. unfold _make_request. rewrite H. reflexivity.
Qed.

Lemma get_bangumi_details_404 http title season st :
  (forall n q, exists body, http n (SearchSubject q) = Response 404 body) ->
  (forall q v, api_cache st !! q = Some v -> v = VNone) ->
  exists st',
    _get_bangumi_details http title season st = (Ok VNone, st') /\
    linked st' = linked st /\
    (forall q v, api_cache st' !! q = Some v -> v = VNone).
Proof.
  intros Hhttp Hnone. unfold _get_bangumi_details.
  destruct (api_cache st !! api_query_of title season) as [cached|] eqn:Hc.
  { rewrite (Hnone _ _ Hc). exists st. auto. }
  unfold get_details_for_scraping. unfold mbind at 1, M_bind at 1.
  rewrite (search_subject_404 _ _ _ (Hhttp _ _)). cbn [truthy negb orb].
  unfold mret, M_ret. eexists. split; [reflexivity |]. split; [reflexivity |].
  cbn [api_cache sent]. intros q v.
  destruct (decide (api_query_of title season = q)) as [<- | Hne].
  - rewrite lookup_insert_eq. congruence.
  - rewrite lookup_insert_ne by exact Hne. apply Hnone.
Qed.

Lemma resolve_404 http info st :
  (forall n q, exists body, http n (SearchSubject q) = Response 404 body) ->
  (forall q v, api_cache st !! q = Some v -> v = VNone) ->
  (exists t, info !! "标题" = Some (VStr t)) ->
  (exists s, info !! "季数" = Some (VStr s)) ->
  exists st',
    resolve http info st = (Ok info, st') /\
    linked st' = linked st /\
    (forall q v, api_cache st' !! q = Some v -> v = VNone).
Proof.
  intros Hhttp Hnone [t Ht] [s Hs]. unfold resolve, dict_get. rewrite Ht, Hs.
  cbn [default id]. destruct (_ && _); [| exists st; auto].
  rewrite lift_bind. cbn [as_str]. rewrite lift_bind. cbn [as_optional_str].
  unfold mbind, M_bind.
  destruct (get_bangumi_details_404 http t (Some s) st Hhttp Hnone)
    as (st' & -> & Hl & Hnone').
  cbn [truthy]. exists st'. auto.
Qed.

Lemma process_directory_404 patterns http :
  rules_ok patterns ->
  (forall n q, exists body, http n (SearchSubject q) = Response 404 body) ->
  forall stems st,
    Forall short_enough stems ->
    (forall q v, api_cache st !! q = Some v -> v = VNone) ->
    exists recs st',
      Forall2 (fun stem rec => parse_filename patterns stem = Ok rec) stems recs /\
      process_directory patterns http stems st = (Ok tt, st') /\
      linked st' = linked st ++ recs.
Proof.
  intros Hrules Hhttp.
  induction stems as [| stem stems IH]; intros st Hshort Hnone; cbn [process_directory].
  { exists [], st. rewrite app_nil_r. repeat split. constructor. }
  apply Forall_cons in Hshort as [Hstem Hshort].
  destruct (parse_filename_total patterns stem Hrules Hstem) as [info Hparse].
  destruct (parse_record_strings _ _ _ Hparse) as [Ht Hs].
  destruct (resolve_404 http info st Hhttp Hnone Ht Hs) as (st1 & E & Hl & Hnone1).
  set (st2 := {| api_cache := api_cache st1; requests := requests st1;
                 linked := linked st1 ++ [info] |}).
  destruct (IH st2 Hshort Hnone1) as (recs & st' & Hall & Hrun & Hlinked).
  exists (info :: recs), st'. split; [constructor; assumption |].
  split.
  - unfold process_file. unfold mbind at 1, M_bind at 1.
    rewrite lift_bind, Hparse. unfold mbind, M_bind. rewrite E.
    unfold create_hard_link. exact Hrun.
  - rewrite Hlinked. unfold st2. cbn [linked]. rewrite Hl, <- app_assoc. reflexivity.
Qed.

(** With rules [parse_filename] can work with, names of at most 4300
    characters and a source that answers every search with 404, a run
    that starts with no answer but [None] in its cache returns, and
    every file reaches the linking step with its record as parsed. The
    linking step itself is taken to return: [create_hard_link] only
    records the file it is given. *)
Theorem unknown_titles_are_linked_as_parsed
        (patterns : PatternSet) (http : world) (stems : list pystr) (st : state) :
  rules_ok patterns ->
  Forall short_enough stems ->
  (forall n q, exists body, http n (SearchSubject q) = Response 404 body) ->
  (forall q v, api_cache st !! q = Some v -> v = VNone) ->
  exists recs,
    Forall2 (fun stem rec => parse_filename patterns stem = Ok rec) stems recs /\
    (process_directory patterns http stems st).1 = Ok tt /\
    linked (process_directory patterns http stems st).2 = linked st ++ recs.
Proof.
  intros Hrules Hshort Hhttp Hnone.
  destruct (process_directory_404 patterns http Hrules Hhttp stems st Hshort Hnone)
    as (recs & st' & Hall & -> & Hl).
  exists recs. auto.
Qed.

Lemma unknown_titles_are_linked_as_parsed_witness :
  let http : world := fun _ _ => Response 404 None in
  let stems := [py "Show - 05"; py "[Other Season 2][1080p] - 01"] in
  rules_ok Rules.grouped
  /\ Forall short_enough stems
  /\ exists recs,
       Forall2 (fun stem rec => parse_filename Rules.grouped stem = Ok rec) stems recs /\
       (process_directory Rules.grouped http stems initial_state).1 = Ok tt /\
       linked (process_directory Rules.grouped http stems initial_state).2
       = linked initial_state ++ recs.
Proof.
  intros http stems.
  assert (Hshort : Forall short_enough stems).
  { repeat constructor; unfold short_enough; apply N.leb_le; reflexivity. }
  split; [exact rules_ok_grouped |]. split; [exact Hshort |].
  apply (unknown_titles_are_linked_as_parsed Rules.grouped http stems initial_state
           rules_ok_grouped Hshort).
  - intros n q. exists None. reflexivity.
  - intros q v H. cbn in H. rewrite lookup_empty in H. discriminate.
Defined.

(** ** One segment, one rule *)

Lemma try_keys_one patterns content :
  forall keys info info' b,
    try_keys patterns keys content info = Ok (info', b) ->
    (b = false /\ info' = info) \/
    (b = true /\ (info' = info \/ exists k v, info' = <[k := v]> info)).
Proof.
  induction keys as [| [key field] keys IH]; intros info info' b H; cbn [try_keys] in H.
  { injection H as <- <-. left. auto. }
  destruct (patterns !! key) as [p|]; [| auto].
  destruct (pat_falsy p); [auto |].
  bind_inv H as found Hfound. destruct found as [m|]; [| auto].
  bind_inv H as g1 Hg1. bind_inv H as val Hval. bind_inv H as info1 Hinfo1.
  injection H as <- <-. right. split; [reflexivity |].
  destruct (String.eqb key "source").
  - unfold remarks_append in Hinfo1. bind_inv Hinfo1 as cur Hcur.
    destruct cur; try discriminate. injection Hinfo1 as <-. right. eauto.
  - bind_inv Hinfo1 as cur Hcur. injection Hinfo1 as <-.
    destruct (is_None cur); [right; eauto | left; reflexivity].
Qed.

(** One bracketed segment (lines 96-112) feeds at most one field: either
    the record and the working string are left as they were, or the
    segment is cut from the working string and the record is left as it
    was or changes under one key. *)
Theorem segment_feeds_one_field
        (patterns : PatternSet) (info : pydict) (temp_work_str : pystr)
        (content_block : re_match) (info' : pydict) (temp_work_str' : pystr) :
  tech_block patterns (info, temp_work_str) content_block = Ok (info', temp_work_str') ->
  (info' = info /\ temp_work_str' = temp_work_str)
  \/ (temp_work_str' = replace_first (m_text content_block) [] temp_work_str
      /\ (info' = info \/ exists k v, info' = <[k := v]> info)).
Proof.
  unfold tech_block. intros H. bind_inv H as content Hcontent.
  destruct content; try discriminate.
  bind_inv H as r Hr. destruct r as [info1 matched]. injection H as <- <-.
  apply try_keys_one in Hr as [[-> ->] | [-> Hr]]; [left; auto | right; auto].
Qed.

Lemma segment_feeds_one_field_witness :
  let block := {| m_pre := []; m_text := py "[BD 1080p]";
                  m_groups := [Some (py "BD 1080p")]; m_post := py " Show - 05" |} in
  let w := py "[BD 1080p] Show - 05" in
  let info' : pydict := <["分辨率" := VStr (py "1080p")]> info_init in
  tech_block Rules.grouped (info_init, w) block = Ok (info', py " Show - 05")
  /\ ((info' = info_init /\ py " Show - 05" = w)
      \/ (py " Show - 05" = replace_first (m_text block) [] w
          /\ (info' = info_init \/ exists k v, info' = <[k := v]> info_init))).
Proof.
  intros block w info'.
  assert (E : tech_block Rules.grouped (info_init, w) block = Ok (info', py " Show - 05"))
    by reflexivity.
  split; [exact E |].
  exact (segment_feeds_one_field Rules.grouped info_init w block info' _ E).
Defined.
